(** * Visual Assistant UI: a shallow embedding of its pure helpers and handlers

    The repository is a Next.js front end.  This development embeds, as Rocq
    functions, the pure helpers of its pages (visibility rules, photo
    aggregation, deep merge, link generation) and, with explicit state
    passing, the event handlers whose behaviour the specification describes
    (note upsert, publish, delete, public report loading).

    Modelling conventions, shared by every module below.
    - A JavaScript string is a [string] (a sequence of bytes, read as the
      UTF-8 encoding of the text).  The white space of [trim], of
      [parseFloat] and of the regular expression class \s is the white
      space of the language: TAB, LF, VT, FF, CR, SPACE, U+00A0, U+1680,
      U+2000 to U+200A, U+2028, U+2029, U+202F, U+205F, U+3000 and U+FEFF,
      each in its encoding; [s.length] counts UTF-16 code units.  The case
      mapping of the texts that the user types or the sheet provides (the
      link generator) is the one of the engine, a parameter of the
      definitions that use it; on identifiers and status codes (the inbox)
      it is the mapping of the ASCII letters.
    - A JavaScript object used as a dictionary is a [gmap string _], or an
      association list where the code iterates over the entries in
      insertion order, over its own keys.  Where the code reads or writes
      such an object at a name that comes from the data (the intro values,
      the mapping of a rule, the keys of a patch), the names inherited
      from Object.prototype are modelled: reading one finds the inherited
      member, and assigning to __proto__ stores no key.
    - A JavaScript number is written as a [number]: NaN, an infinity or the
      decimal numeral [m * 10^e]; numbers are compared as the doubles
      nearest to them (IEEE 754 binary64, ties to even).
    - A handler is a function from the answers of the outside world (HTTP
      responses, the confirmation dialog, the clock) and the page state to
      the next page state and the list of events it emitted.  One run of a
      handler is sequential, so a functional update [setX(prev => ...)]
      reads the state the run has reached.  A URL built by [buildUrl] or
      [buildWebhookUrl] is the base it resolves against and its path.  The
      events are the requests, the confirmation dialogs and the warnings
      and errors of the console; [console.log] traces are left out.
    - A [Map] is the list of its entries in insertion order.  A [Set] of
      strings that is turned back into an array is the list of its elements,
      each once, in insertion order; a [Set] that is only asked [has] is the
      array it was made from, asked [includes].
    - [Math.random()] is a stream of draws, each a fraction below one; a
      function that calls it takes the stream and counts its calls.

    The second part of the definitions covers the rest of the pages: the
    step selection, the sections, the intro values and the example photo of
    the link generator; the selection of photos, the notes and the context
    form of the detail page; the phone number, the filters and the order of
    the inbox; the photo drafts of the session page; and the viewer of the
    public session. *)

From Stdlib Require Import ZArith NArith Ascii String List Bool Lia.
From Stdlib Require HexadecimalString HexadecimalN HexadecimalPos Sorted.
From stdpp Require Import base decidable option list gmap strings pretty fin_maps.

Set Warnings "-register-all".

(** ** JavaScript strings *)

Module JsString.

(** The white space characters that UTF-8 writes in one byte: TAB, LF, VT,
    FF, CR and SPACE. *)
Definition is_ws (c : ascii) : bool :=
  let n := nat_of_ascii c in
  ((9 <=? n)%nat && (n <=? 13)%nat) || (n =? 32)%nat.

(** A byte between [lo] and [hi]. *)
Definition byte_in (lo hi : nat) (c : ascii) : bool :=
  let n := nat_of_ascii c in (lo <=? n)%nat && (n <=? hi)%nat.

Definition is_byte (n : nat) (c : ascii) : bool := byte_in n n c.

(** The white space character of two bytes: U+00A0, written C2 A0. *)
Definition is_ws2 (a b : ascii) : bool := is_byte 194 a && is_byte 160 b.

(** The white space characters of three bytes: U+1680 (E1 9A 80), U+2000 to
    U+200A (E2 80 80 to E2 80 8A), U+2028 and U+2029 (E2 80 A8, E2 80 A9),
    U+202F (E2 80 AF), U+205F (E2 81 9F), U+3000 (E3 80 80) and U+FEFF
    (EF BB BF). *)
Definition is_ws3 (a b c : ascii) : bool :=
  (is_byte 225 a && is_byte 154 b && is_byte 128 c)
  || (is_byte 226 a && is_byte 128 b
      && (byte_in 128 138 c || byte_in 168 169 c || is_byte 175 c))
  || (is_byte 226 a && is_byte 129 b && is_byte 159 c)
  || (is_byte 227 a && is_byte 128 b && is_byte 128 c)
  || (is_byte 239 a && is_byte 187 b && is_byte 191 c).

Definition is_digit (c : ascii) : bool :=
  let n := nat_of_ascii c in (48 <=? n)%nat && (n <=? 57)%nat.

Definition lower_char (c : ascii) : ascii :=
  let n := nat_of_ascii c in
  if (65 <=? n)%nat && (n <=? 90)%nat then ascii_of_nat (n + 32) else c.

Definition is_empty (s : string) : bool :=
  match s with EmptyString => true | String _ _ => false end.

(** [s.toLowerCase()] for a text whose letters are those of ASCII (an
    identifier, a status code): A to Z go to a to z and every other byte
    stays. *)
Fixpoint toLowerCase (s : string) : string :=
  match s with
  | EmptyString => EmptyString
  | String c r => String (lower_char c) (toLowerCase r)
  end.

(** What follows the white space character that [s] starts with, if it
    starts with one. *)
Definition skip_ws (s : string) : option string :=
  match s with
  | String a r =>
      if is_ws a then Some r
      else
        match r with
        | String b r2 =>
            if is_ws2 a b then Some r2
            else
              match r2 with
              | String c r3 => if is_ws3 a b c then Some r3 else None
              | EmptyString => None
              end
        | EmptyString => None
        end
  | EmptyString => None
  end.

(** [s.trimStart()]: the white space characters at the start go, whatever
    their number of bytes. *)
Fixpoint trimStart (s : string) : string :=
  match s with
  | String a r =>
      if is_ws a then trimStart r
      else
        match r with
        | String b r2 =>
            if is_ws2 a b then trimStart r2
            else
              match r2 with
              | String c r3 => if is_ws3 a b c then trimStart r3 else s
              | EmptyString => s
              end
        | EmptyString => s
        end
  | EmptyString => EmptyString
  end.

(** A string made of white space only (the empty string is one). *)
Definition blank (s : string) : bool := is_empty (trimStart s).

(** [s.trimEnd()]: the string is cut where what remains is white space. *)
Fixpoint trimEnd (s : string) : string :=
  match s with
  | EmptyString => EmptyString
  | String c r => if blank s then EmptyString else String c (trimEnd r)
  end.

(** [s.trim()] *)
Definition trim (s : string) : string := trimEnd (trimStart s).

(** A UTF-16 code unit [u] from U+0800 on, as a string of its own, in the
    three bytes that UTF-8 gives to a character of that range. *)
Definition unit3 (u : N) : string :=
  String (ascii_of_N (224 + u / 4096))
    (String (ascii_of_N (128 + (u / 64) mod 64))
       (String (ascii_of_N (128 + u mod 64)) EmptyString)).

(** The two code units, the surrogates, of a character beyond U+FFFF, which
    UTF-8 writes in the four bytes [a b c d]. *)
Definition surrogates (a b c d : ascii) : list string :=
  let cp := ((N_of_ascii a mod 8) * 262144 + (N_of_ascii b mod 64) * 4096
             + (N_of_ascii c mod 64) * 64 + N_of_ascii d mod 64 - 65536)%N in
  [unit3 (55296 + cp / 1024); unit3 (56320 + cp mod 1024)].

(** The UTF-16 code units of the text, which are the characters that
    JavaScript sees in a string, each as a string of its own.  A character
    that UTF-8 writes in one, two or three bytes is one unit; one of four
    bytes is two units. *)
Fixpoint code_units (s : string) : list string :=
  match s with
  | EmptyString => []
  | String a r1 =>
      if byte_in 192 223 a then
        match r1 with
        | String b r2 => String a (String b EmptyString) :: code_units r2
        | EmptyString => [String a EmptyString]
        end
      else if byte_in 224 239 a then
        match r1 with
        | String b (String c r3) =>
            String a (String b (String c EmptyString)) :: code_units r3
        | _ => String a EmptyString :: code_units r1
        end
      else if byte_in 240 247 a then
        match r1 with
        | String b (String c (String d r4)) => surrogates a b c d ++ code_units r4
        | _ => String a EmptyString :: code_units r1
        end
      else String a EmptyString :: code_units r1
  end.

(** [s.length], the number of UTF-16 code units of the text. *)
Definition utf16_length (s : string) : nat := length (code_units s).

(** JavaScript truthiness of a string: [!s] is [negb (truthy s)]. *)
Definition truthy (s : string) : bool := negb (is_empty s).

(** [a || b] on strings. *)
Definition or_else (a b : string) : string := if truthy a then a else b.

(** Truthiness of a string-or-null ([None] is null or undefined). *)
Definition truthy_opt (x : option string) : bool :=
  match x with
  | Some v => truthy v
  | None => false
  end.

(** A string-or-null that passes an [if (x)] test. *)
Definition truthy_id (x : option string) : option string :=
  match x with
  | Some v => if truthy v then Some v else None
  | None => None
  end.

(** The line feed of a template literal. *)
Definition nl : string := String (ascii_of_nat 10) EmptyString.

Fixpoint all_chars (p : ascii -> bool) (s : string) : bool :=
  match s with
  | EmptyString => true
  | String c r => p c && all_chars p r
  end.

(** [parts.join(sep)] *)
Fixpoint join (sep : string) (parts : list string) : string :=
  match parts with
  | [] => ""
  | [x] => x
  | x :: rest => x +:+ sep +:+ join sep rest
  end.

(** [s.startsWith(p)] returning the remainder. *)
Fixpoint strip_prefix (p s : string) : option string :=
  match p, s with
  | EmptyString, _ => Some s
  | String a p', String b s' => if Ascii.eqb a b then strip_prefix p' s' else None
  | String _ _, EmptyString => None
  end.

End JsString.

(** ** JavaScript numbers *)

Module JsNumber.

Import JsString.

(** A numeral: NaN, an infinity, or the decimal [m * 10^e] as it is
    written.  The number it denotes is its value rounded to a double
    ([to_double]); the comparisons and the truth test go through it. *)
Inductive number : Type :=
  | NaN
  | Inf (negative : bool)
  | Fin (m : Z) (e : Z).

Definition isNaN (x : number) : bool :=
  match x with NaN => true | _ => false end.

Definition of_N (n : N) : number := Fin (Z.of_N n) 0.

(** A value of the type Number: NaN, an infinity, or the finite double
    [k * 2^-1074] (every finite double is such a multiple; the two zeros
    are not told apart). *)
Inductive double : Type :=
  | DNaN
  | DInf (negative : bool)
  | DFin (k : Z).

(** The integer nearest to [n / d], the even one when two are as near
    ([0 <= n] and [0 < d]). *)
Definition round_half_even (n d : Z) : Z :=
  let q := (n / d)%Z in
  let r := (n mod d)%Z in
  if (2 * r <? d)%Z then q
  else if (d <? 2 * r)%Z then (q + 1)%Z
  else if Z.even q then q else (q + 1)%Z.

(** The double nearest to [n / d] units of [2^-1074]: below [2^53] units
    the doubles are one unit apart; from [2^(52+s)] to [2^(53+s)] units
    they are [2^s] units apart; what rounds to [2^2098] units, that is to
    [2^1024], or more is an infinity. *)
Definition nearest_double (n d : Z) : double :=
  let s := Z.max 0 (Z.log2 (n / d) - 52) in
  let k := (round_half_even n (d * 2 ^ s) * 2 ^ s)%Z in
  if (k <? 2 ^ 2098)%Z then DFin k else DInf false.

Definition negate (x : double) : double :=
  match x with
  | DNaN => DNaN
  | DInf s => DInf (negb s)
  | DFin k => DFin (- k)
  end.

(** The number a numeral denotes: its value rounded to the nearest double,
    ties to even, as [parseFloat] and [JSON.parse] round. *)
Definition to_double (x : number) : double :=
  match x with
  | NaN => DNaN
  | Inf s => DInf s
  | Fin m e =>
      let a := Z.abs m in
      let r :=
        if (0 <=? e)%Z then nearest_double (a * 10 ^ e * 2 ^ 1074) 1
        else nearest_double (a * 2 ^ 1074) (10 ^ (- e)) in
      if (m <? 0)%Z then negate r else r
  end.

(** [a >= b]; every comparison with NaN is false. *)
Definition ge (a b : number) : bool :=
  match to_double a, to_double b with
  | DNaN, _ | _, DNaN => false
  | DInf false, _ => true
  | _, DInf true => true
  | DInf true, _ => false
  | _, DInf false => false
  | DFin k1, DFin k2 => (k2 <=? k1)%Z
  end.

(** JavaScript truthiness of a number. *)
Definition truthy_number (x : number) : bool :=
  match to_double x with
  | DNaN => false
  | DInf _ => true
  | DFin k => negb (k =? 0)%Z
  end.

Definition digit_val (c : ascii) : N := N.of_nat (nat_of_ascii c - 48).

(** Value of a run of decimal digits, most significant first. *)
Fixpoint digits_val (acc : N) (s : string) : N :=
  match s with
  | EmptyString => acc
  | String c r => digits_val (10 * acc + digit_val c) r
  end.

(** Longest prefix of digits, and what follows it. *)
Fixpoint span_digits (s : string) : string * string :=
  match s with
  | EmptyString => (EmptyString, EmptyString)
  | String c r =>
      if is_digit c then let '(d, rest) := span_digits r in (String c d, rest)
      else (EmptyString, s)
  end.

(** An optional sign: [true] when negative. *)
Definition take_sign (s : string) : bool * string :=
  match s with
  | String "-" r => (true, r)
  | String "+" r => (false, r)
  | _ => (false, s)
  end.

(** The ExponentPart of a decimal literal, when one is present. *)
Definition take_exponent (s : string) : Z :=
  match s with
  | String c r =>
      if Ascii.eqb c "e" || Ascii.eqb c "E" then
        let '(neg, r1) := take_sign r in
        let '(d, _) := span_digits r1 in
        if is_empty d then 0%Z
        else let v := Z.of_N (digits_val 0 d) in if neg then (- v)%Z else v
      else 0%Z
  | EmptyString => 0%Z
  end.

(** [parseFloat(s)]: leading whitespace is skipped and the longest prefix
    that is a StrDecimalLiteral is converted; NaN when there is none. *)
Definition parseFloat (s : string) : number :=
  let '(neg, body) := take_sign (trimStart s) in
  match strip_prefix "Infinity" body with
  | Some _ => Inf neg
  | None =>
      let '(ip, rest) := span_digits body in
      let '(fp, rest') :=
        match rest with
        | String "." r => span_digits r
        | _ => (EmptyString, rest)
        end in
      if is_empty ip && is_empty fp then NaN
      else
        let m := Z.of_N (digits_val 0 (ip +:+ fp)) in
        let e := (take_exponent rest' - Z.of_nat (String.length fp))%Z in
        Fin (if neg then (- m)%Z else m) e
  end.

End JsNumber.


(** ** JSON values and the deep merge of the session and chantier pages *)

Module Json.

Import JsNumber.

(** The values a page holds in its state: what JSON.parse returns, plus
    [undefined], which object literals of the code can contain. *)
Inductive value : Type :=
  | VUndef
  | VNull
  | VBool (b : bool)
  | VNum (n : number)
  | VStr (s : string)
  | VArr (l : list value)
  | VObj (m : gmap string value).

(** [v && typeof v === "object" && !Array.isArray(v)] *)
Definition is_plain_object (v : value) : bool :=
  match v with VObj _ => true | _ => false end.

(** JavaScript truthiness. *)
Definition truthy_value (v : value) : bool :=
  match v with
  | VUndef | VNull => false
  | VBool b => b
  | VNum n => truthy_number n
  | VStr s => JsString.truthy s
  | VArr _ | VObj _ => true
  end.

(** [o?.[k]]: a key that is absent reads as [undefined]. *)
Definition get (o : gmap string value) (k : string) : value :=
  default VUndef (o !! k).

(** [v?.[k]] on any value. *)
Definition get_in (v : value) (k : string) : value :=
  match v with VObj o => get o k | _ => VUndef end.

(** [a || b] *)
Definition value_or (a b : value) : value := if truthy_value a then a else b.

(** [out[k] = v] on an object that inherits from Object.prototype.  Under
    the name [__proto__], unless [out] has it as an own property, the
    assignment goes to the setter that [out] inherits: no property is
    stored (the setter replaces the prototype of [out] when [v] is an
    object or null; the prototype is not part of the model). *)
Definition assign (out : gmap string value) (k : string) (v : value) : gmap string value :=
  if String.eqb k "__proto__" && negb (bool_decide (is_Some (out !! k))) then out
  else <[k := v]> out.

(** One turn of the loop of [deepMerge]: [out[k] = ...].  When [base] has
    no own property [k], [base[k]] is [undefined], or what [base] inherits
    under that name: a function, which is not merged into, or, for
    [__proto__], Object.prototype, and then the value goes to [__proto__],
    where it is not stored. *)
Definition merge_step (rec : gmap string value -> value -> gmap string value)
    (base : gmap string value) (k : string) (pv : value)
    (out : gmap string value) : gmap string value :=
  match pv, base !! k with
  | VObj _, Some (VObj bm) => assign out k (VObj (rec bm pv))
  | _, _ => assign out k pv
  end.

(** The loop [for (const k of Object.keys(patch))] when [patch] is an
    array: its keys are the indices, in decimal. *)
Fixpoint fold_indices (f : string -> value -> gmap string value -> gmap string value)
    (i : nat) (l : list value) (out : gmap string value) : gmap string value :=
  match l with
  | [] => out
  | pv :: l' => fold_indices f (S i) l' (f (pretty i) pv out)
  end.

(** [deepMerge(base, patch)] (part_003, lines 178-191): the own properties
    of the object it returns.  [base] is an object: the type parameter of
    the source extends Record<string, any> and every call site passes a
    state object. *)
Fixpoint deepMerge (base : gmap string value) (patch : value) {struct patch}
    : gmap string value :=
  match patch with
  | VObj pm => map_fold (merge_step deepMerge base) base pm
  | VArr l => fold_indices (merge_step deepMerge base) 0 l base
  | _ => base
  end.

(** The properties of an array: its elements, each under its index. *)
Fixpoint index_props (i : nat) (l : list value) : gmap string value :=
  match l with
  | [] => ∅
  | pv :: l' => <[pretty i := pv]> (index_props (S i) l')
  end.

(** The words of the specification for the conflict rule: "a key present
    in the patch" is an own enumerable property of the patch, as
    [Object.keys] lists them (none for a patch that is not an object). *)
Definition own_props (patch : value) : gmap string value :=
  match patch with
  | VObj pm => pm
  | VArr l => index_props 0 l
  | _ => ∅
  end.

(** A key that an assignment stores: any name but [__proto__], and
    [__proto__] when the base has it as an own property. *)
Definition stored (base : gmap string value) (k : string) : Prop :=
  k = "__proto__" -> base !! k <> None.

(** What the conflict rule prescribes for a key of the patch. *)
Definition merged (base : gmap string value) (k : string) (pv : value) : value :=
  match pv, base !! k with
  | VObj _, Some (VObj bm) => VObj (deepMerge bm pv)
  | _, _ => pv
  end.

End Json.

(** ** Objects whose entries are visited in insertion order *)

Module JsObject.

(** The own property [k] of [o], if it has one. *)
Fixpoint get {A} (o : list (string * A)) (k : string) : option A :=
  match o with
  | [] => None
  | (k', v) :: o' => if String.eqb k' k then Some v else get o' k
  end.

(** The names that every object inherits from Object.prototype. *)
Definition inherited_names : list string :=
  ["constructor"; "__defineGetter__"; "__defineSetter__"; "hasOwnProperty";
   "__lookupGetter__"; "__lookupSetter__"; "isPrototypeOf"; "propertyIsEnumerable";
   "toString"; "valueOf"; "__proto__"; "toLocaleString"].

Definition is_inherited (k : string) : bool := existsb (String.eqb k) inherited_names.

(** What [o[k]] reads on an object made by a literal, a spread or
    JSON.parse: its own property; or, under one of the inherited names, a
    function of Object.prototype (Object.prototype itself for
    [__proto__]); or [undefined]. *)
Inductive property (A : Type) : Type :=
  | Own (v : A)
  | Inherited
  | Undefined.
Arguments Own {A} v.
Arguments Inherited {A}.
Arguments Undefined {A}.

Definition found {A} (own : option A) (k : string) : property A :=
  match own with
  | Some v => Own v
  | None => if is_inherited k then Inherited else Undefined
  end.

(** [o[k]] for an object whose entries are kept in order. *)
Definition read {A} (o : list (string * A)) (k : string) : property A := found (get o k) k.

(** [o[k]] for an object used as a dictionary. *)
Definition read_map {A} (o : gmap string A) (k : string) : property A := found (o !! k) k.

End JsObject.

(** ** URL encoding *)

Module Url.

Import JsString.

Definition is_alnum (c : ascii) : bool :=
  let n := nat_of_ascii c in
  is_digit c || ((65 <=? n)%nat && (n <=? 90)%nat) || ((97 <=? n)%nat && (n <=? 122)%nat).

Definition hex_digit (n : nat) : ascii :=
  match String.get n "0123456789ABCDEF" with
  | Some c => c
  | None => "0"%char
  end.

(** [%XX] for one byte. *)
Definition percent (c : ascii) (rest : string) : string :=
  let n := nat_of_ascii c in
  String "%" (String (hex_digit (n / 16)) (String (hex_digit (n mod 16)) rest)).

Definition in_chars (set : string) (c : ascii) : bool :=
  negb (all_chars (fun x => negb (Ascii.eqb x c)) set).

(** One character of [encodeURIComponent]: letters, digits and
    [-_.!~*'()] are kept. *)
Definition uri_char (c : ascii) (rest : string) : string :=
  if is_alnum c || in_chars "-_.!~*'()" c then String c rest else percent c rest.

(** [encodeURIComponent(s)] *)
Fixpoint encodeURIComponent (s : string) : string :=
  match s with
  | EmptyString => EmptyString
  | String c r => uri_char c (encodeURIComponent r)
  end.

(** One character of the application/x-www-form-urlencoded serializer of
    URLSearchParams: letters, digits and [*-._] are kept and a space
    becomes [+]. *)
Definition form_char (c : ascii) (rest : string) : string :=
  if is_alnum c || in_chars "*-._" c then String c rest
  else if Ascii.eqb c " " then String "+" rest
  else percent c rest.

Fixpoint form_encode (s : string) : string :=
  match s with
  | EmptyString => EmptyString
  | String c r => form_char c (form_encode r)
  end.




(** A character that is not the separator [sep]. *)
Definition other_than (sep c : ascii) : bool := negb (Ascii.eqb c sep).


(** The part before the first [sep] and the part after it. *)
Fixpoint cut_at (sep : ascii) (s : string) : string * string :=
  match s with
  | EmptyString => (EmptyString, EmptyString)
  | String c r =>
      if Ascii.eqb c sep then (EmptyString, r)
      else let '(a, b) := cut_at sep r in (String c a, b)
  end.

(** A URLSearchParams object: its list of name-value pairs. *)
Definition URLSearchParams : Type := list (string * string).

(** [params.set(name, value)]: the first pair of that name takes the value
    and the other pairs of that name go; a new name is appended. *)
Fixpoint usp_set (params : URLSearchParams) (name value : string) : URLSearchParams :=
  match params with
  | [] => [(name, value)]
  | (n, v) :: rest =>
      if String.eqb n name
      then (name, value) :: List.filter (fun nv => negb (String.eqb (fst nv) name)) rest
      else (n, v) :: usp_set rest name value
  end.

(** [params.get(name)] *)
Definition usp_get (params : URLSearchParams) (name : string) : option string :=
  JsObject.get params name.

(** One pair of [params.toString()]. *)
Definition usp_pair (nv : string * string) : string :=
  form_encode (fst nv) +:+ "=" +:+ form_encode (snd nv).

(** [params.toString()] *)
Definition usp_toString (params : URLSearchParams) : string :=
  join "&" (map usp_pair params).


End Url.

(** ** The link generator page (src/app/generateur/page.tsx) *)

Module Generateur.

Import JsString JsNumber Url.

Module FieldShowIf.
Record t : Type := { sourceField : string; rule : string }.
End FieldShowIf.

Module IntroField.
Record t : Type := {
  key : string;
  label : string;
  type : string;
  options : option (list string);
  mapTo : option (gmap string number);
  showIf : option FieldShowIf.t
}.
End IntroField.

Module GroupShowIf.
Record t : Type := { sourceField : string; allowedValues : list string }.
End GroupShowIf.

Module StepGroup.
Record t : Type := {
  label : string;
  category : string;
  keys : list string;
  showIf : option GroupShowIf.t
}.
End StepGroup.

Module Feuille.
Record t : Type := {
  sheetName : string;
  sections : list string;
  introFields : list IntroField.t
}.
End Feuille.

Module ProductApi.
Record t : Type := { code : string; label : string; feuilles : list Feuille.t }.
End ProductApi.

(** The values typed so far in the intro fields, [ivData]. *)
Definition IvData : Type := list (string * string).

(** The regular expression [/^>=\s*([0-9]+)$/]: the captured digits. *)
Definition match_ge_rule (rule : string) : option string :=
  match strip_prefix ">=" rule with
  | None => None
  | Some r =>
      let d := trimStart r in
      if negb (is_empty d) && all_chars is_digit d then Some d else None
  end.

(** What the variable [numeric] of [shouldShowField] holds: [null], a
    number, or what a mapTo table inherits under the name of the value (a
    function, or Object.prototype), which is neither [undefined] nor
    [null] and compares as NaN. *)
Inductive numeric : Type :=
  | Null
  | Num (n : number)
  | Member.

(** The variable [numeric] once lines 130-138 have run: the entry of the
    mapTo table of the source field, or else the number parsed from the
    value. *)
Definition numeric_of (allIntro : list IntroField.t) (sourceField valRaw : string) : numeric :=
  let src := find (fun f => String.eqb (IntroField.key f) sourceField) allIntro in
  let mapped : numeric :=
    match src with
    | Some f =>
        match IntroField.mapTo f with
        | Some table =>
            match JsObject.read_map table valRaw with
            | JsObject.Own n => Num n
            | JsObject.Inherited => Member
            | JsObject.Undefined => Null
            end
        | None => Null
        end
    | None => Null
    end in
  match mapped with
  | Null =>
      let parsed := parseFloat valRaw in
      if isNaN parsed then Null else Num parsed
  | _ => mapped
  end.

(** [shouldShowField(field, ivData, allIntro)] (lines 125-149); [None] is
    the TypeError of [valRaw.trim()] when [ivData] has no own property
    [sourceField] and inherits a function under that name. *)
Definition shouldShowField (field : IntroField.t) (ivData : IvData)
    (allIntro : list IntroField.t) : option bool :=
  match IntroField.showIf field with
  | None => Some true
  | Some si =>
      let sourceField := FieldShowIf.sourceField si in
      let rule := FieldShowIf.rule si in
      match JsObject.read ivData sourceField with
      | JsObject.Undefined => Some false
      | JsObject.Inherited => None
      | JsObject.Own valRaw =>
          if negb (truthy valRaw) || negb (truthy (trim valRaw)) then Some false
          else
            match numeric_of allIntro sourceField valRaw with
            | Null => Some false
            | Num n =>
                match match_ge_rule rule with
                | Some digits => Some (ge n (parseFloat digits))
                | None => Some true
                end
            | Member =>
                match match_ge_rule rule with
                | Some _ => Some false
                | None => Some true
                end
            end
      end
  end.

Section Visibility.

(** [s.toLowerCase()] on the texts of the form (labels, values typed):
    the case mapping of the engine, which follows the version of Unicode
    the engine implements. *)
Variable toLowerCase : string -> string.

(** [shouldShowGroup(group, ivData)] (lines 151-157); [None] is the
    TypeError of [.toLowerCase()] when [ivData] has no own property
    [sourceField] and inherits a function under that name. *)
Definition shouldShowGroup (group : StepGroup.t) (ivData : IvData) : option bool :=
  match StepGroup.showIf group with
  | None => Some true
  | Some si =>
      let sourceField := GroupShowIf.sourceField si in
      if negb (truthy sourceField) then Some true
      else
        match JsObject.read ivData sourceField with
        | JsObject.Inherited => None
        | found =>
            let typed := match found with JsObject.Own v => v | _ => "" end in
            let current := trim (toLowerCase (or_else typed "")) in
            if negb (truthy current) then Some false
            else Some (existsb (fun v => String.eqb (trim (toLowerCase v)) current)
                               (GroupShowIf.allowedValues si))
        end
  end.

(** The words of the specification for the two visibility rules. *)

(** "Lower-cased and trimmed". *)
Definition lower_trimmed (v : string) : string := trim (toLowerCase v).

End Visibility.

(** The current value of a field: the empty string when nothing was typed. *)
Definition current_value (ivData : IvData) (sourceField : string) : string :=
  default "" (JsObject.get ivData sourceField).

(** A rule "of the form >=N": the two characters, optional white space and
    the decimal digits of the natural number [n]. *)
Definition is_ge_rule (rule : string) (n : N) : Prop :=
  exists ws digits : string,
    blank ws = true /\ all_chars is_digit digits = true /\ digits <> ""
    /\ rule = ">=" +:+ ws +:+ digits /\ n = digits_val 0 digits.

(** "Maps to a number, via the source field's mapTo table, or else numeric
    parse": the table of the first intro field with that key when it has the
    value, the parsed number otherwise. *)
Definition maps_to_number (allIntro : list IntroField.t) (sourceField valRaw : string)
    (x : number) : Prop :=
  let src := find (fun f => String.eqb (IntroField.key f) sourceField) allIntro in
  (exists f table,
      src = Some f /\ IntroField.mapTo f = Some table /\ table !! valRaw = Some x)
  \/ ((forall f table,
         src = Some f -> IntroField.mapTo f = Some table -> table !! valRaw = None)
      /\ parseFloat valRaw = x /\ isNaN x = false).

(** The form state read by the link: the six required fields, the selected
    steps, the intro values and the products fetched from the API. *)
Module Form.
Record t : Type := {
  c : string;
  p : string;
  s : string;
  np : string;
  ns : string;
  em : string;
  selectedSteps : list string;
  ivData : IvData;
  products : list ProductApi.t
}.
End Form.

(** [products.find((prod) => prod.code === p)] *)
Definition currentProduct (f : Form.t) : option ProductApi.t :=
  find (fun prod => String.eqb (ProductApi.code prod) (Form.p f)) (Form.products f).

(** [x.replace(/_/g, " ")] *)
Fixpoint replace_underscores (x : string) : string :=
  match x with
  | EmptyString => EmptyString
  | String ch r =>
      String (if Ascii.eqb ch "_" then " "%char else ch) (replace_underscores r)
  end.

(** [x.replace(/\s+/g, " ")]; [inside] tells that the run of white space
    being read has already given its space. *)
Fixpoint collapse_ws (inside : bool) (x : string) : string :=
  match x with
  | EmptyString => EmptyString
  | String a r =>
      if is_ws a then
        (if inside then collapse_ws true r else String " " (collapse_ws true r))
      else
        match r with
        | String b r2 =>
            if is_ws2 a b then
              (if inside then collapse_ws true r2 else String " " (collapse_ws true r2))
            else
              match r2 with
              | String c r3 =>
                  if is_ws3 a b c then
                    (if inside then collapse_ws true r3 else String " " (collapse_ws true r3))
                  else String a (collapse_ws false r)
              | EmptyString => String a (collapse_ws false r)
              end
        | EmptyString => String a (collapse_ws false r)
        end
  end.

Definition set_if_truthy (params : URLSearchParams) (name value : string) : URLSearchParams :=
  if truthy value then usp_set params name value else params.

(** One entry of [Object.entries(ivData)]:
    [if (v && v.trim()) params.set(k, v.trim())]. *)
Definition iv_step (params : URLSearchParams) (kv : string * string) : URLSearchParams :=
  if truthy (snd kv) && truthy (trim (snd kv))
  then usp_set params (fst kv) (trim (snd kv)) else params.

(** The names the link reserves for the form itself. *)
Definition reserved : list string := ["c"; "p"; "s"; "steps"; "np"; "ns"; "em"].

Definition PHONE_PERGE : string := "33744866654".

Section Link.

Variable toLowerCase : string -> string.

(** The label the legacy value is made from: [currentProduct?.label ?? p]. *)
Definition product_label (f : Form.t) : string :=
  match currentProduct f with
  | Some prod => ProductApi.label prod
  | None => Form.p f
  end.

(** The "legacy" product value sent as [p]. *)
Definition legacyP (f : Form.t) : string :=
  collapse_ws false (trim (replace_underscores (toLowerCase (product_label f)))).

(** The query parameters built by [generatedUrl] (lines 468-492). *)
Definition generatedParams (f : Form.t) : URLSearchParams :=
  let params : URLSearchParams := [] in
  let params := set_if_truthy params "c" (Form.c f) in
  let params := if truthy (Form.p f) then usp_set params "p" (legacyP f) else params in
  let params := set_if_truthy params "s" (Form.s f) in
  let params :=
    if (0 <? length (Form.selectedSteps f))%nat
    then usp_set params "steps" (join "," (Form.selectedSteps f)) else params in
  let params := set_if_truthy params "np" (Form.np f) in
  let params := set_if_truthy params "ns" (Form.ns f) in
  let params := set_if_truthy params "em" (Form.em f) in
  fold_left iv_step (Form.ivData f) params.

Definition generatedUrl (f : Form.t) : string :=
  "/plan?" +:+ usp_toString (generatedParams f).

(** [whatsappUrl] (lines 494-498). *)
Definition whatsappUrl (f : Form.t) : string :=
  if negb (truthy (generatedUrl f)) then ""
  else "https://wa.me/" +:+ PHONE_PERGE +:+ "?text=" +:+ encodeURIComponent (generatedUrl f).

(** [isReady] (lines 511-518), as the boolean the controls test. *)
Definition isReady (f : Form.t) : bool :=
  truthy (trim (Form.ns f)) && truthy (trim (Form.np f)) && truthy (trim (Form.em f))
  && truthy (trim (Form.c f)) && truthy (trim (Form.p f)) && truthy (trim (Form.s f))
  && (0 <? length (Form.selectedSteps f))%nat.

(** The [disabled] attribute of the copy button and the test that makes the
    "open" link swallow its click (lines 1021 and 1031-1033). *)
Definition controls_disabled (f : Form.t) : bool :=
  negb (isReady f) || negb (truthy (whatsappUrl f)).

End Link.

End Generateur.

(** ** What a handler exchanges with the outside world *)

Module Http.

(** The result of awaiting a promise. *)
Inductive outcome (A : Type) : Type :=
  | Resolved (a : A)
  | Rejected (message : string).
Arguments Resolved {A} a.
Arguments Rejected {A} message.

(** A fetch Response: [res.ok], [res.status], [await res.text()] and
    [await res.json()]. *)
Record response (A : Type) : Type := {
  ok : bool;
  status : nat;
  text : outcome string;
  json : outcome A
}.
Arguments ok {A} r.
Arguments status {A} r.
Arguments text {A} r.
Arguments json {A} r.

Inductive method : Type := GET | POST | PATCH | DELETE.

(** The base a path is resolved against: [buildUrl] or [buildWebhookUrl]. *)
Inductive host : Type := Api | Webhook.

Record request : Type := {
  meth : method;
  to : host;
  path : string;
  body : option Json.value
}.

Inductive level : Type := LogWarn | LogError.

(** What a handler does that the outside world can see. *)
Inductive event : Type :=
  | Fetch (r : request)
  | Confirm (message : string)
  | Console (l : level).

Inductive toast_type : Type := success | error.

Record Toast : Type := { type : toast_type; message : string }.

Definition is_delete (e : event) : bool :=
  match e with
  | Fetch r => match meth r with DELETE => true | _ => false end
  | _ => false
  end.

Definition is_confirm (e : event) : bool :=
  match e with Confirm _ => true | _ => false end.

(** A request that changes something on a server: any method but GET. *)
Definition is_mutation (e : event) : bool :=
  match e with
  | Fetch r => match meth r with GET => false | _ => true end
  | _ => false
  end.

(** Only console events: no request among them. *)
Definition only_logs (evs : list event) : Prop :=
  Forall (fun e => exists l, e = Console l) evs.

End Http.

(** ** The session and chantier detail page (part_003) *)

Module SavDetail.

Import JsString Json Http Url.

Module SessionPhoto.
Record t : Type := {
  id : string;
  url : string;
  timestamp : option Z;
  __session_id : option string;
  __photo_id : option string
}.
End SessionPhoto.

Module SessionDetail.
Record t : Type := {
  session_id : string;
  status : option string;
  created_at : option Z;
  updated_at : option Z;
  photos : list SessionPhoto.t
}.
End SessionDetail.

(** An entry of the id map: [{ session_id, photo_id }]. *)
Module Origin.
Record t : Type := { session_id : string; photo_id : string }.
End Origin.

Module Aggregated.
Record t : Type := {
  photos : list SessionPhoto.t;
  idMap : gmap string Origin.t
}.
End Aggregated.

(** [typeof x === "number" ? x : 0] *)
Definition number_or_0 (x : option Z) : Z := default 0%Z x.

(** The comparator of [orderedSessions]: by created_at, then updated_at. *)
Definition compare_sessions (a b : SessionDetail.t) : Z :=
  let ac := number_or_0 (SessionDetail.created_at a) in
  let bc := number_or_0 (SessionDetail.created_at b) in
  if negb (ac =? bc)%Z then (ac - bc)%Z
  else (number_or_0 (SessionDetail.updated_at a) - number_or_0 (SessionDetail.updated_at b))%Z.

(** [Array.prototype.sort] is stable: an element goes before the first
    element of the sorted rest that does not compare below it. *)
Fixpoint insert_sorted {A} (cmp : A -> A -> Z) (x : A) (l : list A) : list A :=
  match l with
  | [] => [x]
  | y :: l' => if (cmp x y <=? 0)%Z then x :: l else y :: insert_sorted cmp x l'
  end.

Definition sort {A} (cmp : A -> A -> Z) (l : list A) : list A :=
  foldr (insert_sorted cmp) [] l.

(** [`${composite}__${k}`] *)
Definition suffixed (composite : string) (k : nat) : string :=
  composite +:+ "__" +:+ pretty k.

(** The loop [while (idMap[finalId]) finalId = `${composite}__${k++}`];
    [fuel] bounds the number of turns. *)
Fixpoint collision_loop (idMap : gmap string Origin.t) (composite finalId : string)
    (k fuel : nat) : option string :=
  match idMap !! finalId with
  | None => Some finalId
  | Some _ =>
      match fuel with
      | O => None
      | S fuel' => collision_loop idMap composite (suffixed composite k) (S k) fuel'
      end
  end.

(** The body of the inner loop, for the photo [p] of the session [sid]. *)
Definition add_photo (sid : string) (acc : Aggregated.t) (p : SessionPhoto.t)
    : option Aggregated.t :=
  let pid := SessionPhoto.id p in
  if negb (truthy sid) || negb (truthy pid) then Some acc
  else
    let composite := sid +:+ "__" +:+ pid in
    let idMap := Aggregated.idMap acc in
    match collision_loop idMap composite composite 2 (size idMap) with
    | None => None
    | Some finalId =>
        Some {|
          Aggregated.photos :=
            Aggregated.photos acc ++
            [ {| SessionPhoto.id := finalId;
                 SessionPhoto.url := SessionPhoto.url p;
                 SessionPhoto.timestamp := SessionPhoto.timestamp p;
                 SessionPhoto.__session_id := Some sid;
                 SessionPhoto.__photo_id := Some pid |} ];
          Aggregated.idMap :=
            <[finalId := {| Origin.session_id := sid; Origin.photo_id := pid |}]> idMap
        |}
    end.

Fixpoint add_photos (sid : string) (photos : list SessionPhoto.t) (acc : Aggregated.t)
    : option Aggregated.t :=
  match photos with
  | [] => Some acc
  | p :: rest =>
      match add_photo sid acc p with
      | None => None
      | Some acc' => add_photos sid rest acc'
      end
  end.

Fixpoint add_sessions (sessions : list SessionDetail.t) (acc : Aggregated.t)
    : option Aggregated.t :=
  match sessions with
  | [] => Some acc
  | s :: rest =>
      match add_photos (SessionDetail.session_id s) (SessionDetail.photos s) acc with
      | None => None
      | Some acc' => add_sessions rest acc'
      end
  end.

(** [buildChantierAggregatedPhotos(sessions)] (lines 225-268); [None] would
    be a collision loop that ran out of fuel. *)
Definition buildChantierAggregatedPhotos (sessions : list SessionDetail.t)
    : option Aggregated.t :=
  add_sessions (sort compare_sessions sessions)
    {| Aggregated.photos := []; Aggregated.idMap := ∅ |}.

(** The words of the specification for the aggregation. *)

(** The composite id [sessionId__photoId] of an origin photo. *)
Definition composite_of (o : string * SessionPhoto.t) : string :=
  fst o +:+ "__" +:+ SessionPhoto.id (snd o).

(** The origin photos of a list of sessions, each with its session id. *)
Definition origins (sessions : list SessionDetail.t) : list (string * SessionPhoto.t) :=
  flat_map (fun s => map (fun p => (SessionDetail.session_id s, p)) (SessionDetail.photos s))
           sessions.

(** [out] is the entry of the origin photo [o]: it has the data of the
    photo, points back to the session and photo ids, and its id is the
    composite, or the composite with a numeric suffix from 2 on. *)
Definition entry_of (out : SessionPhoto.t) (o : string * SessionPhoto.t) : Prop :=
  SessionPhoto.__session_id out = Some (fst o)
  /\ SessionPhoto.__photo_id out = Some (SessionPhoto.id (snd o))
  /\ SessionPhoto.url out = SessionPhoto.url (snd o)
  /\ SessionPhoto.timestamp out = SessionPhoto.timestamp (snd o)
  /\ (SessionPhoto.id out = composite_of o
      \/ exists k, 2 <= k /\ SessionPhoto.id out = suffixed (composite_of o) k).

(** The id map sends the id of [out] back to its origin. *)
Definition mapped_back (idMap : gmap string Origin.t) (out : SessionPhoto.t) : Prop :=
  exists o, idMap !! SessionPhoto.id out = Some o
            /\ SessionPhoto.__session_id out = Some (Origin.session_id o)
            /\ SessionPhoto.__photo_id out = Some (Origin.photo_id o).

(** What holds of the accumulator once the origin photos [os] are in. *)
Record invariant (acc : Aggregated.t) (os : list (string * SessionPhoto.t)) : Prop := {
  inv_entries : Forall2 entry_of (Aggregated.photos acc) os;
  inv_nodup : NoDup (map SessionPhoto.id (Aggregated.photos acc));
  inv_back : forall out, In out (Aggregated.photos acc) -> mapped_back (Aggregated.idMap acc) out;
  inv_dom : forall i, Aggregated.idMap acc !! i <> None ->
                      In i (map SessionPhoto.id (Aggregated.photos acc));
  inv_exact : NoDup (map composite_of os) ->
              map SessionPhoto.id (Aggregated.photos acc) = map composite_of os
}.

(** *** Notes *)

Module NoteAsset.
Record t : Type := {
  asset_id : string;
  filename : option string;
  asset_url : option string
}.
End NoteAsset.

Module SavNote.
Record t : Type := {
  id : string;
  title : option string;
  text : string;
  photo_ids : list string;
  assets : option (list NoteAsset.t);
  updated_at : option N;
  created_at : option N
}.
End SavNote.

(** The readings of the clock and of the random generator that one run of
    a handler makes: [Date.now()] for the timestamps, and the two values
    [uid] prints. *)
Module Clock.
Record t : Type := {
  now_ms : N;
  uid_random_hex : string;
  uid_now_ms : N
}.
End Clock.

(** [n.toString(16)] for a natural number. *)
Definition to_hex (n : N) : string :=
  HexadecimalString.NilZero.string_of_uint (N.to_hex_uint n).

(** [uid(prefix)] (lines 174-176); [uid_random_hex] is
    [Math.random().toString(16).slice(2)]. *)
Definition uid (prefix : string) (clock : Clock.t) : string :=
  prefix +:+ "_" +:+ Clock.uid_random_hex clock +:+ "_" +:+ to_hex (Clock.uid_now_ms clock).

(** [Array.from(new Set(xs))]: the first occurrence of each value, in order. *)
Fixpoint dedup_first (seen xs : list string) : list string :=
  match xs with
  | [] => []
  | x :: rest =>
      if existsb (String.eqb x) seen then dedup_first seen rest
      else x :: dedup_first (x :: seen) rest
  end.

Module ChantierMeta.
Inductive kind_t : Type := chantier | unattached_session.
Record t : Type := {
  kind : option kind_t;
  chantier_id : option string;
  session_count : nat;
  session_ids : list string
}.
End ChantierMeta.

(** The slices of the page state that the handlers below read or write. *)
Module Page.
Record t : Type := {
  key : string;
  loadedSessionId : string;
  detail : option SessionDetail.t;
  chantier : option (gmap string value);
  chantierMeta : ChantierMeta.t;
  includeMap : gmap string bool;
  author : string;
  publishing : bool;
  toast : option Toast;
  notes : list SavNote.t;
  activeNoteId : option string;
  noteText : string;
  notePhotos : list string;
  selectedAssetId : option string
}.

Definition setDetail (st : t) (v : option SessionDetail.t) : t :=
  {| key := key st; loadedSessionId := loadedSessionId st; detail := v;
     chantier := chantier st; chantierMeta := chantierMeta st;
     includeMap := includeMap st; author := author st; publishing := publishing st;
     toast := toast st; notes := notes st; activeNoteId := activeNoteId st;
     noteText := noteText st; notePhotos := notePhotos st;
     selectedAssetId := selectedAssetId st |}.

Definition setChantier (st : t) (v : option (gmap string value)) : t :=
  {| key := key st; loadedSessionId := loadedSessionId st; detail := detail st;
     chantier := v; chantierMeta := chantierMeta st;
     includeMap := includeMap st; author := author st; publishing := publishing st;
     toast := toast st; notes := notes st; activeNoteId := activeNoteId st;
     noteText := noteText st; notePhotos := notePhotos st;
     selectedAssetId := selectedAssetId st |}.

Definition setPublishing (st : t) (v : bool) : t :=
  {| key := key st; loadedSessionId := loadedSessionId st; detail := detail st;
     chantier := chantier st; chantierMeta := chantierMeta st;
     includeMap := includeMap st; author := author st; publishing := v;
     toast := toast st; notes := notes st; activeNoteId := activeNoteId st;
     noteText := noteText st; notePhotos := notePhotos st;
     selectedAssetId := selectedAssetId st |}.

Definition setToast (st : t) (v : option Toast) : t :=
  {| key := key st; loadedSessionId := loadedSessionId st; detail := detail st;
     chantier := chantier st; chantierMeta := chantierMeta st;
     includeMap := includeMap st; author := author st; publishing := publishing st;
     toast := v; notes := notes st; activeNoteId := activeNoteId st;
     noteText := noteText st; notePhotos := notePhotos st;
     selectedAssetId := selectedAssetId st |}.

Definition setNotes (st : t) (v : list SavNote.t) : t :=
  {| key := key st; loadedSessionId := loadedSessionId st; detail := detail st;
     chantier := chantier st; chantierMeta := chantierMeta st;
     includeMap := includeMap st; author := author st; publishing := publishing st;
     toast := toast st; notes := v; activeNoteId := activeNoteId st;
     noteText := noteText st; notePhotos := notePhotos st;
     selectedAssetId := selectedAssetId st |}.

Definition setActiveNoteId (st : t) (v : option string) : t :=
  {| key := key st; loadedSessionId := loadedSessionId st; detail := detail st;
     chantier := chantier st; chantierMeta := chantierMeta st;
     includeMap := includeMap st; author := author st; publishing := publishing st;
     toast := toast st; notes := notes st; activeNoteId := v;
     noteText := noteText st; notePhotos := notePhotos st;
     selectedAssetId := selectedAssetId st |}.

Definition setSelectedAssetId (st : t) (v : option string) : t :=
  {| key := key st; loadedSessionId := loadedSessionId st; detail := detail st;
     chantier := chantier st; chantierMeta := chantierMeta st;
     includeMap := includeMap st; author := author st; publishing := publishing st;
     toast := toast st; notes := notes st; activeNoteId := activeNoteId st;
     noteText := noteText st; notePhotos := notePhotos st;
     selectedAssetId := v |}.
End Page.

(** [loadedSessionId || key] *)
Definition effectiveSessionId (st : Page.t) : string :=
  or_else (Page.loadedSessionId st) (Page.key st).

Definition isChantierMode (st : Page.t) : bool :=
  match ChantierMeta.kind (Page.chantierMeta st), ChantierMeta.chantier_id (Page.chantierMeta st) with
  | Some ChantierMeta.chantier, Some cid => truthy cid
  | _, _ => false
  end.

Definition isMultiSessionChantier (st : Page.t) : bool :=
  match ChantierMeta.kind (Page.chantierMeta st) with
  | Some ChantierMeta.chantier => (1 <? ChantierMeta.session_count (Page.chantierMeta st))%nat
  | _ => false
  end.

Definition toast_of (ty : toast_type) (msg : string) : option Toast :=
  Some {| type := ty; message := msg |}.

(** [Array.from(new Set((notePhotos || []).filter(Boolean)))] *)
Definition cleanedPhotos (notePhotos : list string) : list string :=
  dedup_first [] (List.filter (fun x => truthy x) notePhotos).

(** [upsertNote()] (lines 967-1023). *)
Definition upsertNote (clock : Clock.t) (st : Page.t) : Page.t :=
  let cleanedText := trim (or_else (Page.noteText st) "") in
  if negb (truthy cleanedText) then
    Page.setToast st (toast_of error "Écris au moins une recommandation SAV dans la note.")
  else
    let cleanedPhotos := cleanedPhotos (Page.notePhotos st) in
    let now := (Clock.now_ms clock / 1000)%N in
    let fresh (id : string) : SavNote.t :=
      {| SavNote.id := id; SavNote.title := None; SavNote.text := cleanedText;
         SavNote.photo_ids := cleanedPhotos; SavNote.assets := Some [];
         SavNote.updated_at := Some now; SavNote.created_at := Some now |} in
    match truthy_id (Page.activeNoteId st) with
    | Some activeNoteId =>
        if negb (existsb (fun n => String.eqb (SavNote.id n) activeNoteId) (Page.notes st)) then
          let st := Page.setNotes st (fresh activeNoteId :: Page.notes st) in
          Page.setToast st (toast_of success "Note SAV créée.")
        else
          let st :=
            Page.setNotes st
              (map (fun n =>
                      if String.eqb (SavNote.id n) activeNoteId then
                        {| SavNote.id := SavNote.id n; SavNote.title := SavNote.title n;
                           SavNote.text := cleanedText; SavNote.photo_ids := cleanedPhotos;
                           SavNote.assets := SavNote.assets n;
                           SavNote.updated_at := Some now;
                           SavNote.created_at := SavNote.created_at n |}
                      else n)
                   (Page.notes st)) in
          Page.setToast st (toast_of success "Note SAV mise à jour.")
    | None =>
        let id := uid "note" clock in
        let st := Page.setNotes st (fresh id :: Page.notes st) in
        let st := Page.setActiveNoteId st (Some id) in
        let st := Page.setSelectedAssetId st None in
        Page.setToast st (toast_of success "Note SAV créée.")
    end.

(** The words of the specification for a saved note: it has the trimmed
    text, the linked photo ids and the date of the save. *)
Definition written (clock : Clock.t) (st : Page.t) (n : SavNote.t) : Prop :=
  SavNote.text n = trim (Page.noteText st)
  /\ SavNote.photo_ids n = cleanedPhotos (Page.notePhotos st)
  /\ SavNote.updated_at n = Some (Clock.now_ms clock / 1000)%N.

(** What a [catch (err)] block shows: [err?.message || fallback]. *)
Definition error_toast (message fallback : string) : option Toast :=
  toast_of error (or_else message fallback).

(** [deleteNoteAsset(noteId, assetId)] (lines 1138-1182); [res] is what the
    DELETE request gets back. *)
Definition deleteNoteAsset (res : outcome (response unit)) (noteId assetId : string)
    (st : Page.t) : Page.t * list event :=
  let sid := effectiveSessionId st in
  if negb (truthy sid) then (st, [])
  else
    let req := Fetch {| meth := DELETE; to := Api;
                        path := "/sessions/" +:+ encodeURIComponent sid +:+ "/notes/"
                                +:+ encodeURIComponent noteId +:+ "/assets/"
                                +:+ encodeURIComponent assetId;
                        body := None |} in
    let failed (message : string) :=
      (Page.setToast st (error_toast message "Erreur suppression visuel."),
       [req; Console LogError]) in
    match res with
    | Rejected message => failed message
    | Resolved r =>
        if negb (ok r) then
          match text r with
          | Rejected message => failed message
          | Resolved txt =>
              failed ("Suppression visuel (" +:+ pretty (status r) +:+ ") : "
                      +:+ or_else txt "Erreur")
          end
        else
          let without (n : SavNote.t) : list NoteAsset.t :=
            List.filter (fun a => negb (String.eqb (NoteAsset.asset_id a) assetId))
                   (default [] (SavNote.assets n)) in
          let st1 :=
            Page.setNotes st
              (map (fun n =>
                      if negb (String.eqb (SavNote.id n) noteId) then n
                      else {| SavNote.id := SavNote.id n; SavNote.title := SavNote.title n;
                              SavNote.text := SavNote.text n;
                              SavNote.photo_ids := SavNote.photo_ids n;
                              SavNote.assets := Some (without n);
                              SavNote.updated_at := SavNote.updated_at n;
                              SavNote.created_at := SavNote.created_at n |})
                   (Page.notes st)) in
          let selected :=
            if negb (bool_decide (Page.selectedAssetId st = Some assetId))
            then Page.selectedAssetId st
            else
              let remaining :=
                match find (fun x => String.eqb (SavNote.id x) noteId) (Page.notes st) with
                | Some n => without n
                | None => []
                end in
              match remaining with
              | a :: _ => truthy_id (Some (NoteAsset.asset_id a))
              | [] => None
              end in
          let st2 := Page.setSelectedAssetId st1 selected in
          (Page.setToast st2 (toast_of success "Visuel supprimé."), [req])
    end.

(** *** Publishing *)

(** What the three requests of [handlePublish] get back. *)
Module PublishEnv.
Record t : Type := {
  chantier_publish : outcome (response value);
  session_publish : outcome (response SessionDetail.t);
  notify : outcome (response unit)
}.
End PublishEnv.

(** [author || "Service Technique"] *)
Definition json_author (st : Page.t) : value :=
  VStr (or_else (Page.author st) "Service Technique").

(** The properties that [{ ...v }] copies. *)
Definition spread (v : value) : gmap string value :=
  match v with
  | VObj m => m
  | VArr l => index_props 0 l
  | VStr s => index_props 0 (map VStr (code_units s))
  | _ => ∅
  end.

(** The patch that the chantier publish writes into the local chantier
    (lines 1252-1262). *)
Definition pubPatch (prev : option (gmap string value)) (data : value) : gmap string value :=
  let prev_get (k : string) : value :=
    match prev with Some o => get o k | None => VUndef end in
  let prev_pub := prev_get "publication" in
  let publication :=
    <["last_published_by" :=
        value_or (get_in data "last_published_by") (get_in prev_pub "last_published_by")]>
    (<["last_published_at" :=
        value_or (get_in data "last_published_at") (get_in prev_pub "last_published_at")]>
    (<["report_public_url" :=
        value_or (get_in data "public_url") (get_in prev_pub "report_public_url")]>
    (<["report_public_slug" :=
        value_or (get_in data "public_slug") (get_in prev_pub "report_public_slug")]>
    (spread (value_or prev_pub (VObj ∅)))))) in
  <["updated_at" := value_or (get_in data "updated_at") (prev_get "updated_at")]>
  (<["status" := value_or (get_in data "status") (prev_get "status")]>
  {[ "publication" := VObj publication ]}).

(** The local chantier after a chantier publish answered [data]. *)
Definition published_chantier (prev : option (gmap string value)) (data : value)
    : gmap string value :=
  match prev with
  | Some o => deepMerge o (VObj (pubPatch prev data))
  | None => pubPatch prev data
  end.

(** [{ ...prev, status: "PUBLIÉ" }] *)
Definition mark_published (d : SessionDetail.t) : SessionDetail.t :=
  {| SessionDetail.session_id := SessionDetail.session_id d;
     SessionDetail.status := Some "PUBLIÉ";
     SessionDetail.created_at := SessionDetail.created_at d;
     SessionDetail.updated_at := SessionDetail.updated_at d;
     SessionDetail.photos := SessionDetail.photos d |}.

(** What the best-effort notification of the chantier branch logs. *)
Definition chantier_notify_log (n : outcome (response unit)) : list event :=
  match n with
  | Rejected _ => [Console LogError]
  | Resolved r =>
      if negb (ok r) then
        match text r with
        | Resolved _ => [Console LogWarn]
        | Rejected _ => [Console LogError]
        end
      else []
  end.

(** What the best-effort notification of the session branch logs: only a
    rejected fetch is noticed. *)
Definition session_notify_log (n : outcome (response unit)) : list event :=
  match n with
  | Rejected _ => [Console LogError]
  | Resolved _ => []
  end.

(** The photos a session publish sends: [includeMap[p.id] !== false]. *)
Definition included_photos (st : Page.t) (d : SessionDetail.t) : list SessionPhoto.t :=
  List.filter (fun p => negb (bool_decide (Page.includeMap st !! SessionPhoto.id p = Some false)))
         (SessionDetail.photos d).

Definition payload_item (p : SessionPhoto.t) : value :=
  let photo_id :=
    match truthy_id (SessionPhoto.__photo_id p) with
    | Some x => x
    | None => SessionPhoto.id p
    end in
  VObj (<["annotated_url" := VNull]> (<["annotated_path" := VNull]>
       (<["commentaire" := VStr ""]> {[ "photo_id" := VStr photo_id ]}))).

(** [handlePublish()] (lines 1223-1376). *)
Definition handlePublish (env : PublishEnv.t) (st : Page.t) : Page.t * list event :=
  match Page.detail st with
  | None => (st, [])
  | Some detail =>
      match (if isChantierMode st
             then truthy_id (ChantierMeta.chantier_id (Page.chantierMeta st)) else None) with
      | Some cid =>
          (* chantier first *)
          let st0 := Page.setPublishing st true in
          let req := Fetch {| meth := POST; to := Api;
                              path := "/chantiers/" +:+ encodeURIComponent cid +:+ "/publish";
                              body := Some (VObj {[ "author" := json_author st ]}) |} in
          let failed (message : string) :=
            (Page.setPublishing
               (Page.setToast st0 (error_toast message "Erreur lors de la publication chantier."))
               false,
             [req; Console LogError]) in
          match PublishEnv.chantier_publish env with
          | Rejected message => failed message
          | Resolved res =>
              if negb (ok res) then
                match text res with
                | Rejected message => failed message
                | Resolved txt =>
                    failed ("Erreur publication chantier (" +:+ pretty (status res) +:+ ") : "
                            +:+ or_else txt "Impossible de publier")
                end
              else
                match json res with
                | Rejected message => failed message
                | Resolved data =>
                    let st1 :=
                      Page.setChantier st0 (Some (published_chantier (Page.chantier st0) data)) in
                    let st2 := Page.setDetail st1 (option_map mark_published (Page.detail st1)) in
                    let notifyReq :=
                      Fetch {| meth := POST; to := Webhook; path := "/notify-chantier-published";
                               body := Some (VObj (<["public_url" := get_in data "public_url"]>
                                                   (<["author" := json_author st]>
                                                   {[ "chantier_id" := VStr cid ]}))) |} in
                    let st3 := Page.setToast st2 (toast_of success "Rapport chantier publié.") in
                    (Page.setPublishing st3 false,
                     [req; notifyReq] ++ chantier_notify_log (PublishEnv.notify env))
                end
          end
      | None =>
          (* legacy: session publish *)
          if isMultiSessionChantier st then
            (Page.setToast st
               (toast_of error
                  "Chantier multi-sessions : publication non supportée pour l’instant. (On affiche bien toutes les photos, mais le rapport reste lié à une session.)"),
             [])
          else
            let sid := effectiveSessionId st in
            if negb (truthy sid) then (st, [])
            else
              let included := included_photos st detail in
              if (length included =? 0)%nat then
                (Page.setToast st (toast_of error "Aucune photo sélectionnée pour le rapport."), [])
              else
                let st0 := Page.setPublishing st true in
                let req := Fetch {| meth := POST; to := Api;
                                    path := "/sessions/" +:+ encodeURIComponent sid +:+ "/publish";
                                    body := Some (VObj (<["items" := VArr (map payload_item included)]>
                                                        {[ "author" := json_author st ]})) |} in
                let failed (message : string) :=
                  (Page.setPublishing
                     (Page.setToast st0 (error_toast message "Erreur lors de la publication."))
                     false,
                   [req; Console LogError]) in
                match PublishEnv.session_publish env with
                | Rejected message => failed message
                | Resolved res =>
                    if negb (ok res) then
                      match text res with
                      | Rejected message => failed message
                      | Resolved txt =>
                          failed ("Erreur publication (" +:+ pretty (status res) +:+ ") : "
                                  +:+ or_else txt "Impossible de publier")
                      end
                    else
                      match json res with
                      | Rejected message => failed message
                      | Resolved updated =>
                          let st1 := Page.setDetail st0 (Some updated) in
                          let notifyReq :=
                            Fetch {| meth := POST; to := Webhook;
                                     path := "/notify-session-published";
                                     body := Some (VObj (<["author" := json_author st]>
                                                         {[ "session_id" := VStr sid ]})) |} in
                          let st2 := Page.setToast st1 (toast_of success "Rapport publié.") in
                          (Page.setPublishing st2 false,
                           [req; notifyReq] ++ session_notify_log (PublishEnv.notify env))
                      end
                end
      end
  end.

End SavDetail.

(** ** The first session detail page (part_002) *)

Module SavSession.

Import JsString Json Http Url.

Module SessionPhoto.
Record t : Type := { id : string; url : string; section : option string }.
End SessionPhoto.

Module SessionDetail.
Record t : Type := {
  session_id : string;
  status : option string;
  photos : list SessionPhoto.t
}.
End SessionDetail.

Module PhotoDraft.
Inductive status_t : Type := ok | a_revoir.
Record t : Type := {
  status : status_t;
  commentaire : string;
  annotatedPath : option string;
  annotatedUrl : option string
}.
End PhotoDraft.

Module Page.
Record t : Type := {
  sessionId : string;
  detail : option SessionDetail.t;
  drafts : gmap string PhotoDraft.t;
  author : string;
  publishing : bool;
  toast : option Toast
}.

Definition setDetail (st : t) (v : option SessionDetail.t) : t :=
  {| sessionId := sessionId st; detail := v; drafts := drafts st; author := author st;
     publishing := publishing st; toast := toast st |}.

Definition setPublishing (st : t) (v : bool) : t :=
  {| sessionId := sessionId st; detail := detail st; drafts := drafts st; author := author st;
     publishing := v; toast := toast st |}.

Definition setToast (st : t) (v : option Toast) : t :=
  {| sessionId := sessionId st; detail := detail st; drafts := drafts st; author := author st;
     publishing := publishing st; toast := v |}.
End Page.

Module PublishEnv.
Record t : Type := {
  publish : outcome (response SessionDetail.t);
  notify : outcome (response unit)
}.
End PublishEnv.

(** [x || null] for a string. *)
Definition string_or_null (x : option string) : value :=
  match x with
  | Some v => if truthy v then VStr v else VNull
  | None => VNull
  end.

Definition payload_item (drafts : gmap string PhotoDraft.t) (p : SessionPhoto.t) : value :=
  let d :=
    default {| PhotoDraft.status := PhotoDraft.a_revoir; PhotoDraft.commentaire := "";
               PhotoDraft.annotatedPath := None; PhotoDraft.annotatedUrl := None |}
            (drafts !! SessionPhoto.id p) in
  VObj (<["annotated_url" := string_or_null (PhotoDraft.annotatedUrl d)]>
       (<["annotated_path" := string_or_null (PhotoDraft.annotatedPath d)]>
       (<["commentaire" := VStr (or_else (PhotoDraft.commentaire d) "")]>
       {[ "photo_id" := VStr (SessionPhoto.id p) ]}))).

(** [handlePublish()] (lines 452-538). *)
Definition handlePublish (env : PublishEnv.t) (st : Page.t) : Page.t * list event :=
  match Page.detail st with
  | None => (st, [])
  | Some detail =>
      let sessionId := Page.sessionId st in
      if negb (truthy sessionId) then (st, [])
      else
        let payloadItems := map (payload_item (Page.drafts st)) (SessionDetail.photos detail) in
        if (length payloadItems =? 0)%nat then
          (Page.setToast st
             (Some {| type := error; message := "Aucune photo à publier pour cette session." |}),
           [])
        else
          let st0 := Page.setPublishing st true in
          let author := VStr (or_else (Page.author st) "Service Technique") in
          let req := Fetch {| meth := POST; to := Api;
                              path := "/sessions/" +:+ encodeURIComponent sessionId +:+ "/publish";
                              body := Some (VObj (<["items" := VArr payloadItems]>
                                                  {[ "author" := author ]})) |} in
          let failed (message : string) :=
            (Page.setPublishing
               (Page.setToast st0
                  (Some {| type := error;
                           message := or_else message "Erreur lors de la publication du diagnostic." |}))
               false,
             [req; Console LogError]) in
          match PublishEnv.publish env with
          | Rejected message => failed message
          | Resolved res =>
              if negb (Http.ok res) then
                match text res with
                | Rejected message => failed message
                | Resolved txt =>
                    failed ("Erreur publication (" +:+ pretty (status res) +:+ ") : "
                            +:+ or_else txt "Impossible de publier")
                end
              else
                match json res with
                | Rejected message => failed message
                | Resolved updated =>
                    let st1 := Page.setDetail st0 (Some updated) in
                    let notifyReq :=
                      Fetch {| meth := POST; to := Webhook; path := "/notify-session-published";
                               body := Some (VObj (<["author" := author]>
                                                   {[ "session_id" := VStr sessionId ]})) |} in
                    let log :=
                      match PublishEnv.notify env with
                      | Rejected _ => [Console LogError]
                      | Resolved _ => []
                      end in
                    let st2 :=
                      Page.setToast st1
                        (Some {| type := success;
                                 message := "Diagnostic publié et envoyé à l’installateur." |}) in
                    (Page.setPublishing st2 false, [req; notifyReq] ++ log)
                end
          end
  end.

End SavSession.

(** ** The inbox and list page (part_004) *)

Module SavList.

Import JsString Http Url.

Module ChantierAggItem.
Record t : Type := {
  group_key : string;
  chantier_id : option string;
  session_ids : option (list string)
}.
End ChantierAggItem.

Module Page.
Record t : Type := {
  unattached : list ChantierAggItem.t;
  chantiers : list ChantierAggItem.t;
  loading : bool;
  error : option string;
  hasLoadedOnce : bool;
  isRefreshing : bool;
  deletingKey : option string;
  deleteError : option string
}.

Definition setDeletingKey (st : t) (v : option string) : t :=
  {| unattached := unattached st; chantiers := chantiers st; loading := loading st;
     error := error st; hasLoadedOnce := hasLoadedOnce st; isRefreshing := isRefreshing st;
     deletingKey := v; deleteError := deleteError st |}.

Definition setDeleteError (st : t) (v : option string) : t :=
  {| unattached := unattached st; chantiers := chantiers st; loading := loading st;
     error := error st; hasLoadedOnce := hasLoadedOnce st; isRefreshing := isRefreshing st;
     deletingKey := deletingKey st; deleteError := v |}.
End Page.

(** The rows that the projection of a /sav/overview answer yields: the
    unattached groups and the chantiers, both already sorted. *)
Definition Overview : Type := (list ChantierAggItem.t * list ChantierAggItem.t)%type.

Module DeleteEnv.
Record t : Type := {
  confirm : bool;
  delete_session : string -> outcome (response unit);
  delete_chantier : outcome (response unit);
  overview : outcome (response Overview)
}.
End DeleteEnv.

(** [fetchOverview()] (lines 408-463). *)
Definition fetchOverview (res : outcome (response Overview)) (st : Page.t)
    : Page.t * list event :=
  let req := Fetch {| meth := GET; to := Api; path := "/sav/overview"; body := None |} in
  let finish (unattached chantiers : list ChantierAggItem.t) (err : option string) : Page.t :=
    {| Page.unattached := unattached; Page.chantiers := chantiers; Page.loading := false;
       Page.error := err; Page.hasLoadedOnce := true; Page.isRefreshing := false;
       Page.deletingKey := Page.deletingKey st; Page.deleteError := Page.deleteError st |} in
  let network :=
    (finish (Page.unattached st) (Page.chantiers st)
       (Some "Erreur réseau lors du chargement de l’inbox SAV."),
     [req; Console LogError]) in
  match res with
  | Rejected _ => network
  | Resolved r =>
      if negb (ok r) then
        (finish (Page.unattached st) (Page.chantiers st)
           (Some "Erreur lors du chargement de l’inbox SAV."), [req])
      else
        match json r with
        | Rejected _ => network
        | Resolved (nextUnattached, nextChantiers) =>
            (finish nextUnattached nextChantiers None, [req])
        end
  end.

(** The message of the error thrown for a DELETE that is not ok:
    [txt && txt.length < 220 ? txt : fallback], where a failing [res.text()]
    reads as the empty string. *)
Definition delete_failure (r : response unit) (fallback : string) : string :=
  let txt := match text r with Resolved t => t | Rejected _ => "" end in
  if truthy txt && (utf16_length txt <? 220)%nat then txt else fallback.

(** The loop over the sessions of an unattached group: the requests sent,
    and the message of the error that stopped the loop, if any. *)
Fixpoint delete_sessions (env : DeleteEnv.t) (sids : list string)
    : list event * option string :=
  match sids with
  | [] => ([], None)
  | sid :: rest =>
      let req := Fetch {| meth := DELETE; to := Api;
                          path := "/sessions/" +:+ encodeURIComponent sid; body := None |} in
      match DeleteEnv.delete_session env sid with
      | Rejected message => ([req], Some message)
      | Resolved r =>
          if negb (ok r) then
            ([req], Some (delete_failure r ("Erreur suppression session " +:+ sid)))
          else
            let '(evs, err) := delete_sessions env rest in (req :: evs, err)
      end
  end.

(** [e?.message ? `Suppression impossible: ${e.message}` : "Suppression impossible."] *)
Definition delete_error_text (message : string) : string :=
  if truthy message then "Suppression impossible: " +:+ message else "Suppression impossible.".

(** The end of both branches: refresh the overview when every DELETE went
    through, show the error otherwise, and release [deletingKey]. *)
Definition after_delete (env : DeleteEnv.t) (st : Page.t) (err : option string)
    : Page.t * list event :=
  match err with
  | None =>
      let '(st', evs) := fetchOverview (DeleteEnv.overview env) st in
      (Page.setDeletingKey st' None, evs)
  | Some message =>
      (Page.setDeletingKey (Page.setDeleteError st (Some (delete_error_text message))) None,
       [Console LogError])
  end.

(** [handleDeleteRow(row, isUnattached)] (lines 659-750; the later version
    of the page, lines 2003-2085, has the same handler). *)
Definition handleDeleteRow (env : DeleteEnv.t) (row : ChantierAggItem.t)
    (isUnattached : bool) (st : Page.t) : Page.t * list event :=
  let st := Page.setDeleteError st None in
  match truthy_opt (Page.deletingKey st) with
  | true => (st, [])
  | false =>
      if isUnattached then
        let sids := default [] (ChantierAggItem.session_ids row) in
        let count := length sids in
        if (count =? 0)%nat then
          (Page.setDeleteError st (Some "Impossible de supprimer: aucune session détectée."), [])
        else
          let ask :=
            Confirm (if (count =? 1)%nat
                     then "Supprimer cette session ? Cette action est irréversible."
                     else "Supprimer ces " +:+ pretty count
                          +:+ " sessions ? Cette action est irréversible.") in
          if negb (DeleteEnv.confirm env) then (st, [ask])
          else
            let st1 := Page.setDeletingKey st (Some (ChantierAggItem.group_key row)) in
            let '(evs, err) := delete_sessions env sids in
            let '(st2, evs') := after_delete env st1 err in
            (st2, ask :: evs ++ evs')
      else
        let chantierId := trim (default "" (ChantierAggItem.chantier_id row)) in
        if negb (truthy chantierId) then
          (Page.setDeleteError st (Some "Impossible de supprimer: chantier_id manquant."), [])
        else
          let ask :=
            Confirm ("Supprimer ce chantier ?" +:+ nl +:+ nl
                     +:+ "Les sessions liées seront détachées (elles resteront visibles dans 'Sessions non rattachées')."
                     +:+ nl +:+ nl +:+ "Cette action est irréversible.") in
          if negb (DeleteEnv.confirm env) then (st, [ask])
          else
            let st1 := Page.setDeletingKey st (Some (ChantierAggItem.group_key row)) in
            let req := Fetch {| meth := DELETE; to := Api;
                                path := "/chantiers/" +:+ encodeURIComponent chantierId;
                                body := None |} in
            let err :=
              match DeleteEnv.delete_chantier env with
              | Rejected message => Some message
              | Resolved r =>
                  if negb (ok r) then Some (delete_failure r "Erreur suppression chantier")
                  else None
              end in
            let '(st2, evs') := after_delete env st1 err in
            (st2, ask :: req :: evs')
  end.

(** No request at all among the events. *)
Definition no_request (evs : list event) : Prop :=
  Forall (fun e => forall r, e <> Fetch r) evs.

End SavList.

(** ** The public report pages (src/app/r/[slug]/page.tsx and part_001) *)

Module PublicReport.

Import JsString Json Http Url.

(** What a page renders. *)
Inductive view : Type :=
  | Loading
  | NotFound (title : string) (detail : option string)
  | Report (data : value).

(** "The fetch returns a non-2xx response or fails". *)
Definition fetch_failed {A} (res : outcome (response A)) : Prop :=
  match res with
  | Rejected _ => True
  | Resolved r => ok r = false
  end.

(** No event of the list changes anything on a server. *)
Definition no_mutation (evs : list event) : Prop :=
  Forall (fun e => is_mutation e = false) evs.

(** *** The chantier report, /r/[slug] *)

Module Chantier.

Record t : Type := {
  data : option value;
  loading : bool;
  errMsg : option string
}.

(** The state the component mounts with. *)
Definition initial : t := {| data := None; loading := true; errMsg := None |}.

(** The effect that loads the report (lines 171-202).  [res] is the answer
    to the fetch and [cancelled] the value of the flag once it has come. *)
Definition load (res : outcome (response value)) (cancelled : bool) (slug : string) (st : t)
    : t * list event :=
  if negb (truthy slug) then (st, [])
  else
    let st0 := {| data := data st; loading := true; errMsg := None |} in
    let req := Fetch {| meth := GET; to := Api;
                        path := "/chantiers/public/" +:+ encodeURIComponent slug;
                        body := None |} in
    let failed (message : string) :=
      (if cancelled then st0
       else {| data := None; loading := false;
               errMsg := Some (or_else message "Impossible de charger le rapport.") |},
       [req]) in
    match res with
    | Rejected message => failed message
    | Resolved r =>
        if negb (ok r) then
          let txt := match text r with Resolved t => t | Rejected _ => "" end in
          failed (or_else txt ("Erreur " +:+ pretty (status r)))
        else
          match json r with
          | Rejected message => failed message
          | Resolved j =>
              (if cancelled then st0
               else {| data := Some j; loading := false; errMsg := None |},
               [req])
          end
    end.

(** The three returns of the component (lines 219-236 and below). *)
Definition render (slug : string) (st : t) : view :=
  if loading st || negb (truthy slug) then Loading
  else
    match data st with
    | Some d =>
        if truthy_value d then Report d
        else NotFound "Rapport introuvable"
               (Some (default "Le lien est invalide ou le chantier n’a pas été publié."
                              (truthy_id (errMsg st))))
    | None =>
        NotFound "Rapport introuvable"
          (Some (default "Le lien est invalide ou le chantier n’a pas été publié."
                         (truthy_id (errMsg st))))
    end.

End Chantier.

(** *** The session report (part_001) *)

Module Session.

Record t : Type := {
  session : option value;
  loading : bool
}.

Definition initial : t := {| session := None; loading := true |}.

(** The effect that loads the session (lines 50-76). *)
Definition load (res : outcome (response value)) (slug : string) (st : t) : t * list event :=
  if negb (truthy slug) then (st, [])
  else
    let req := Fetch {| meth := GET; to := Api; path := "/sessions/public/" +:+ slug;
                        body := None |} in
    match res with
    | Rejected _ => ({| session := None; loading := false |}, [req; Console LogError])
    | Resolved r =>
        if ok r then
          match json r with
          | Rejected _ => ({| session := None; loading := false |}, [req; Console LogError])
          | Resolved j => ({| session := Some j; loading := false |}, [req])
          end
        else ({| session := None; loading := false |}, [req; Console LogWarn])
    end.

(** The returns of the component (lines 94-108 and below). *)
Definition render (slug : string) (st : t) : view :=
  if loading st || negb (truthy slug) then Loading
  else
    match session st with
    | Some d => if truthy_value d then Report d else NotFound "Session introuvable" None
    | None => NotFound "Session introuvable" None
    end.

End Session.

End PublicReport.

(** ** Arrays of strings *)

Module JsArray.

(** [arr.includes(k)], and [set.has(k)] for [new Set(arr)]. *)
Definition includes (arr : list string) (k : string) : bool :=
  existsb (String.eqb k) arr.

(** [arr.filter(pred)] for a predicate that can throw: the elements are
    tested in order and the first exception ends the call. *)
Fixpoint filter_throwing {A} (pred : A -> option bool) (arr : list A) : option (list A) :=
  match arr with
  | [] => Some []
  | x :: rest =>
      match pred x with
      | None => None
      | Some keep =>
          match filter_throwing pred rest with
          | None => None
          | Some kept => Some (if keep then x :: kept else kept)
          end
      end
  end.

End JsArray.

(** ** The requests of a handler *)

Module Trace.

Import Http.

(** The requests among the events of a handler, in the order they were
    sent. *)
Definition requests (evs : list event) : list request :=
  omap (fun e => match e with Fetch r => Some r | _ => None end) evs.

End Trace.

(** ** The link generator page: steps, categories, intro values and resets *)

Module GenerateurSteps.

Import JsString JsNumber JsArray Json Url Http Generateur.

(** [for (const k of all) if (!next.includes(k)) next.push(k)] *)
Definition push_missing (next all : list string) : list string :=
  fold_left (fun next k => if includes next k then next else next ++ [k]) all next.

(** The update of [selectedSteps] by [toggleGroup(group)] (lines 337-347). *)
Definition toggleGroup (group : StepGroup.t) (prev : list string) : list string :=
  let all := StepGroup.keys group in
  let allInside := forallb (includes prev) all in
  if allInside then List.filter (fun k => negb (includes all k)) prev
  else push_missing prev all.

(** [isGroupChecked(group)] (lines 349-352). *)
Definition isGroupChecked (group : StepGroup.t) (selectedSteps : list string) : bool :=
  if (length (StepGroup.keys group) =? 0)%nat then false
  else forallb (includes selectedSteps) (StepGroup.keys group).

(** [visibleGroups] (lines 354-357); [toLowerCase] is the case mapping of
    the engine, and [None] the TypeError of a [shouldShowGroup] that
    throws. *)
Definition visibleGroups (toLowerCase : string -> string)
    (availableGroups : list StepGroup.t) (ivData : IvData) : option (list StepGroup.t) :=
  filter_throwing (fun g => shouldShowGroup toLowerCase g ivData) availableGroups.

(** [selectedPhotoCount] (lines 359-367). *)
Definition selectedPhotoCount (visibleGroups : list StepGroup.t) (selectedSteps : list string)
    : nat :=
  if (length visibleGroups =? 0)%nat then 0
  else
    fold_left
      (fun count g =>
         if negb (length (StepGroup.keys g) =? 0)%nat
            && forallb (includes selectedSteps) (StepGroup.keys g)
         then S count else count)
      visibleGroups 0.

(** A [Map<string, StepGroup[]>]: its entries in insertion order. *)
Definition Buckets : Type := list (string * list StepGroup.t).

(** [if (!out.has(cat)) out.set(cat, []); out.get(cat).push(g)] *)
Fixpoint bucket_push (out : Buckets) (cat : string) (g : StepGroup.t) : Buckets :=
  match out with
  | [] => [(cat, [g])]
  | (c, gs) :: rest =>
      if String.eqb c cat then (c, gs ++ [g]) :: rest
      else (c, gs) :: bucket_push rest cat g
  end.

(** [g.category?.trim() || "Autres"] *)
Definition category_of (g : StepGroup.t) : string :=
  or_else (trim (StepGroup.category g)) "Autres".

(** [groupsByCategory] (lines 372-380). *)
Definition groupsByCategory (visibleGroups : list StepGroup.t) : Buckets :=
  fold_left (fun out g => bucket_push out (category_of g) g) visibleGroups [].

(** [groupsByCategory.get(cat) || []] *)
Definition bucket (groups : Buckets) (cat : string) : list StepGroup.t :=
  default [] (JsObject.get groups cat).

(** The update of [selectedSteps] by [selectAllInCategory(cat)]
    (lines 382-389). *)
Definition selectAllInCategory (groups : Buckets) (cat : string) (prev : list string)
    : list string :=
  let allKeys := flat_map StepGroup.keys (bucket groups cat) in
  push_missing prev allKeys.

(** The update of [selectedSteps] by [clearAllInCategory(cat)]
    (lines 394-399). *)
Definition clearAllInCategory (groups : Buckets) (cat : string) (prev : list string)
    : list string :=
  let allKeys := flat_map StepGroup.keys (bucket groups cat) in
  List.filter (fun k => negb (includes allKeys k)) prev.

(** *** Intro values *)

(** The array index a property name stands for, if any: a decimal numeral
    without a leading zero, below 2^32 - 1. *)
Definition array_index (k : string) : option N :=
  match k with
  | EmptyString => None
  | String c r =>
      if all_chars is_digit k && (negb (Ascii.eqb c "0") || is_empty r) then
        let n := digits_val 0 k in
        if (n <? 4294967295)%N then Some n else None
      else None
  end.

(** The order of the own properties of an object: the array indices in
    ascending order, then the other names as they were created. *)
Definition goes_before (k k' : string) : bool :=
  match array_index k, array_index k' with
  | Some n, Some n' => (n <? n')%N
  | Some _, None => true
  | None, _ => false
  end.

(** [{ ...prev, [key]: value }]: the value of an existing property is
    replaced where it stands; a new property takes its place in the order
    above. *)
Fixpoint with_property {A} (prev : list (string * A)) (key : string) (value : A)
    : list (string * A) :=
  match prev with
  | [] => [(key, value)]
  | (k, v) :: rest =>
      if String.eqb k key then (key, value) :: rest
      else if goes_before key k then (key, value) :: prev
      else (k, v) :: with_property rest key value
  end.

(** The names of the own properties of an object, as [Object.entries]
    visits them: no name twice, and no name after one it goes before. *)
Inductive property_order : list string -> Prop :=
  | property_order_nil : property_order []
  | property_order_cons (k : string) (rest : list string) :
      Forall (fun k' => k' <> k /\ goes_before k' k = false) rest ->
      property_order rest ->
      property_order (k :: rest).

(** The update of [ivData] by [handleIvChange(key, value)] (lines 310-312). *)
Definition handleIvChange (key value : string) (prev : IvData) : IvData :=
  with_property prev key value.

(** *** Shuffling the groups of a category *)

(** One value of [Math.random()]: the number [num / (num + gap + 1)], which
    is below one. *)
Module Draw.
Record t : Type := { num : N; gap : N }.
End Draw.

(** [Math.floor(Math.random() * n)], the product taken exactly. *)
Definition floor_scaled (r : Draw.t) (n : nat) : nat :=
  N.to_nat (Draw.num r * N.of_nat n / (Draw.num r + Draw.gap r + 1)).

(** [[arr[i], arr[j]] = [arr[j], arr[i]]] for two indices of the array. *)
Definition swap {A} (arr : list A) (i j : nat) : list A :=
  match arr !! i, arr !! j with
  | Some x, Some y => <[j := x]> (<[i := y]> arr)
  | _, _ => arr
  end.

(** The loop of [shuffleInPlace], from the index [i] down to 1; [call]
    counts the calls of [Math.random] made so far. *)
Fixpoint shuffle_loop {A} (random : nat -> Draw.t) (call i : nat) (arr : list A) : list A :=
  match i with
  | O => arr
  | S i' =>
      let j := floor_scaled (random call) (i + 1) in
      shuffle_loop random (S call) i' (swap arr i j)
  end.

(** [shuffleInPlace(arr)] (lines 440-446); [random] gives the successive
    values of [Math.random()]. *)
Definition shuffleInPlace {A} (random : nat -> Draw.t) (arr : list A) : list A :=
  shuffle_loop random 0 (length arr - 1) arr.

(** *** The example photo of a category *)

Module Preview.
Record t : Type := {
  previewTitle : option string;
  previewLoading : bool;
  previewUrl : value;
  previewError : value
}.
End Preview.

Definition NO_EXAMPLE : string := "Pas d’exemple photo disponible.".

(** [fetchExamplePhotoForGroup(prodCode, sheetName, groupLabel)]
    (lines 407-437): the state it leaves, the request it sends and the
    boolean it returns. *)
Definition fetchExamplePhotoForGroup (res : outcome (response value))
    (prodCode sheetName groupLabel : string) : Preview.t * list event * bool :=
  let req :=
    Fetch {| meth := GET; to := Api;
             path := "/example-photo?"
                     +:+ usp_toString [("produit", prodCode); ("sheet", sheetName);
                                       ("group", groupLabel)];
             body := None |} in
  let caught :=
    ({| Preview.previewTitle := Some groupLabel; Preview.previewLoading := false;
        Preview.previewUrl := VNull; Preview.previewError := VStr NO_EXAMPLE |},
     [req], false) in
  match res with
  | Rejected _ => caught
  | Resolved r =>
      match json r with
      | Rejected _ => caught
      | Resolved data =>
          if ok r && truthy_value (get_in data "ok") && truthy_value (get_in data "url") then
            ({| Preview.previewTitle := Some groupLabel; Preview.previewLoading := false;
                Preview.previewUrl := get_in data "url"; Preview.previewError := VNull |},
             [req], true)
          else
            ({| Preview.previewTitle := Some groupLabel; Preview.previewLoading := false;
                Preview.previewUrl := VNull;
                Preview.previewError := value_or (get_in data "message") (VStr NO_EXAMPLE) |},
             [req], false)
      end
  end.

(** Whether an answer gives an example photo:
    [res.ok && data?.ok && data?.url], and no exception before. *)
Definition has_example (res : outcome (response value)) : bool :=
  match res with
  | Rejected _ => false
  | Resolved r =>
      match json r with
      | Rejected _ => false
      | Resolved data =>
          ok r && truthy_value (get_in data "ok") && truthy_value (get_in data "url")
      end
  end.

(** The loop [for (const g of candidates)] of
    [pickRandomPreviewFromCategory]; [answers] gives the answer to the
    successive requests, [sent] counts those already made. *)
Fixpoint try_candidates (answers : nat -> outcome (response value)) (sent : nat)
    (p s : string) (candidates : list StepGroup.t) (st : Preview.t)
    : Preview.t * list event :=
  match candidates with
  | [] => (st, [])
  | g :: rest =>
      let '(st', evs, found) :=
        fetchExamplePhotoForGroup (answers sent) p s (StepGroup.label g) in
      if found then (st', evs)
      else
        let '(st'', evs') := try_candidates answers (S sent) p s rest st' in
        (st'', evs ++ evs')
  end.

(** [pickRandomPreviewFromCategory(cat)] (lines 450-464). *)
Definition pickRandomPreviewFromCategory (random : nat -> Draw.t)
    (answers : nat -> outcome (response value)) (groups : Buckets) (cat p s : string)
    (st : Preview.t) : Preview.t * list event :=
  let bucket := bucket groups cat in
  if (length bucket =? 0)%nat || negb (truthy p) || negb (truthy s) then
    ({| Preview.previewTitle := None; Preview.previewLoading := Preview.previewLoading st;
        Preview.previewUrl := VNull; Preview.previewError := VStr NO_EXAMPLE |}, [])
  else try_candidates answers 0 p s (shuffleInPlace random bucket) st.

(** The request for the example photo of the group [g]. *)
Definition example_request (p s : string) (g : StepGroup.t) : event :=
  Fetch {| meth := GET; to := Api;
           path := "/example-photo?"
                   +:+ usp_toString [("produit", p); ("sheet", s);
                                     ("group", StepGroup.label g)];
           body := None |}.

(** *** The form as a whole *)

(** What [handleProductChange(newCode)] (lines 281-294) writes into the
    form; it also empties the step groups and the preview. *)
Definition handleProductChange (newCode : string) (f : Form.t) : Form.t :=
  {| Form.c := Form.c f; Form.p := newCode; Form.s := "";
     Form.np := Form.np f; Form.ns := Form.ns f; Form.em := Form.em f;
     Form.selectedSteps := []; Form.ivData := []; Form.products := Form.products f |}.

(** What [handleSheetChange(newSheet)] (lines 296-308) writes into the
    form. *)
Definition handleSheetChange (newSheet : string) (f : Form.t) : Form.t :=
  {| Form.c := Form.c f; Form.p := Form.p f; Form.s := newSheet;
     Form.np := Form.np f; Form.ns := Form.ns f; Form.em := Form.em f;
     Form.selectedSteps := []; Form.ivData := []; Form.products := Form.products f |}.

(** What [handleResetAll()] (lines 529-564) writes into the form; the
    products stay. *)
Definition handleResetAll (f : Form.t) : Form.t :=
  {| Form.c := ""; Form.p := ""; Form.s := "";
     Form.np := ""; Form.ns := ""; Form.em := "";
     Form.selectedSteps := []; Form.ivData := []; Form.products := Form.products f |}.

Definition setSelectedSteps (f : Form.t) (v : list string) : Form.t :=
  {| Form.c := Form.c f; Form.p := Form.p f; Form.s := Form.s f;
     Form.np := Form.np f; Form.ns := Form.ns f; Form.em := Form.em f;
     Form.selectedSteps := v; Form.ivData := Form.ivData f;
     Form.products := Form.products f |}.

Definition setIvData (f : Form.t) (v : IvData) : Form.t :=
  {| Form.c := Form.c f; Form.p := Form.p f; Form.s := Form.s f;
     Form.np := Form.np f; Form.ns := Form.ns f; Form.em := Form.em f;
     Form.selectedSteps := Form.selectedSteps f; Form.ivData := v;
     Form.products := Form.products f |}.

Definition setContact (f : Form.t) (np ns em : string) : Form.t :=
  {| Form.c := Form.c f; Form.p := Form.p f; Form.s := Form.s f;
     Form.np := np; Form.ns := ns; Form.em := em;
     Form.selectedSteps := Form.selectedSteps f; Form.ivData := Form.ivData f;
     Form.products := Form.products f |}.

Definition setC (f : Form.t) (v : string) : Form.t :=
  {| Form.c := v; Form.p := Form.p f; Form.s := Form.s f;
     Form.np := Form.np f; Form.ns := Form.ns f; Form.em := Form.em f;
     Form.selectedSteps := Form.selectedSteps f; Form.ivData := Form.ivData f;
     Form.products := Form.products f |}.

Definition setProducts (f : Form.t) (v : list ProductApi.t) : Form.t :=
  {| Form.c := Form.c f; Form.p := Form.p f; Form.s := Form.s f;
     Form.np := Form.np f; Form.ns := Form.ns f; Form.em := Form.em f;
     Form.selectedSteps := Form.selectedSteps f; Form.ivData := Form.ivData f;
     Form.products := v |}.

(** Every writer of the form: what the user does, the choice of a contact
    (lines 227-232), the arrival of the products (line 262) and the end of
    the effect that loads the steps of a sheet, which empties the selection
    on each of its paths (lines 314-335). *)
Inductive action : Type :=
  | SetNs (v : string)
  | SetEm (v : string)
  | SetC (v : string)
  | SelectContact (name company email : string)
  | ProductsLoaded (products : list ProductApi.t)
  | ProductChange (newCode : string)
  | SheetChange (newSheet : string)
  | IvChange (key value : string)
  | ToggleGroup (group : StepGroup.t)
  | SelectAllInCategory (groups : Buckets) (cat : string)
  | ClearAllInCategory (groups : Buckets) (cat : string)
  | StepsLoaded
  | ResetAll.

Definition step (f : Form.t) (a : action) : Form.t :=
  match a with
  | SetNs v => setContact f (Form.np f) v (Form.em f)
  | SetEm v => setContact f (Form.np f) (Form.ns f) v
  | SetC v => setC f v
  | SelectContact name company email =>
      setContact f (or_else name "") (or_else company "") (or_else email "")
  | ProductsLoaded products => setProducts f products
  | ProductChange newCode => handleProductChange newCode f
  | SheetChange newSheet => handleSheetChange newSheet f
  | IvChange key value => setIvData f (handleIvChange key value (Form.ivData f))
  | ToggleGroup group => setSelectedSteps f (toggleGroup group (Form.selectedSteps f))
  | SelectAllInCategory groups cat =>
      setSelectedSteps f (selectAllInCategory groups cat (Form.selectedSteps f))
  | ClearAllInCategory groups cat =>
      setSelectedSteps f (clearAllInCategory groups cat (Form.selectedSteps f))
  | StepsLoaded => setSelectedSteps f []
  | ResetAll => handleResetAll f
  end.

(** The form the page mounts with. *)
Definition initial : Form.t :=
  {| Form.c := ""; Form.p := ""; Form.s := ""; Form.np := ""; Form.ns := ""; Form.em := "";
     Form.selectedSteps := []; Form.ivData := []; Form.products := [] |}.

End GenerateurSteps.

(** ** The session and chantier detail page: selection, notes and context *)

Module SavDetailEdit.

Import JsString JsArray Trace Json Http Url SavDetail.

(** *** The pilot session *)

(** The comparator of [pickMostRecentSession]: by updated_at, then
    created_at, the most recent first. *)
Definition compare_recent (a b : SessionDetail.t) : Z :=
  let au := number_or_0 (SessionDetail.updated_at a) in
  let bu := number_or_0 (SessionDetail.updated_at b) in
  if negb (bu =? au)%Z then (bu - au)%Z
  else (number_or_0 (SessionDetail.created_at b) - number_or_0 (SessionDetail.created_at a))%Z.

(** [pickMostRecentSession(sessions)] (lines 211-223). *)
Definition pickMostRecentSession (sessions : list SessionDetail.t) : option SessionDetail.t :=
  if (length sessions =? 0)%nat then None
  else head (sort compare_recent sessions).

(** [a] was updated before [b], or at the same time and created before. *)
Definition less_recent (a b : SessionDetail.t) : Prop :=
  (number_or_0 (SessionDetail.updated_at a) < number_or_0 (SessionDetail.updated_at b))%Z
  \/ (number_or_0 (SessionDetail.updated_at a) = number_or_0 (SessionDetail.updated_at b)
      /\ (number_or_0 (SessionDetail.created_at a)
          < number_or_0 (SessionDetail.created_at b))%Z).

(** [a] is [less_recent] than [b], or as recent. *)
Definition at_most_as_recent (a b : SessionDetail.t) : Prop :=
  less_recent a b
  \/ (number_or_0 (SessionDetail.updated_at a) = number_or_0 (SessionDetail.updated_at b)
      /\ number_or_0 (SessionDetail.created_at a) = number_or_0 (SessionDetail.created_at b)).

(** *** The photos of the report *)

Definition setIncludeMap (st : Page.t) (v : gmap string bool) : Page.t :=
  {| Page.key := Page.key st; Page.loadedSessionId := Page.loadedSessionId st;
     Page.detail := Page.detail st; Page.chantier := Page.chantier st;
     Page.chantierMeta := Page.chantierMeta st; Page.includeMap := v;
     Page.author := Page.author st; Page.publishing := Page.publishing st;
     Page.toast := Page.toast st; Page.notes := Page.notes st;
     Page.activeNoteId := Page.activeNoteId st; Page.noteText := Page.noteText st;
     Page.notePhotos := Page.notePhotos st; Page.selectedAssetId := Page.selectedAssetId st |}.

Definition setNoteText (st : Page.t) (v : string) : Page.t :=
  {| Page.key := Page.key st; Page.loadedSessionId := Page.loadedSessionId st;
     Page.detail := Page.detail st; Page.chantier := Page.chantier st;
     Page.chantierMeta := Page.chantierMeta st; Page.includeMap := Page.includeMap st;
     Page.author := Page.author st; Page.publishing := Page.publishing st;
     Page.toast := Page.toast st; Page.notes := Page.notes st;
     Page.activeNoteId := Page.activeNoteId st; Page.noteText := v;
     Page.notePhotos := Page.notePhotos st; Page.selectedAssetId := Page.selectedAssetId st |}.

Definition setNotePhotos (st : Page.t) (v : list string) : Page.t :=
  {| Page.key := Page.key st; Page.loadedSessionId := Page.loadedSessionId st;
     Page.detail := Page.detail st; Page.chantier := Page.chantier st;
     Page.chantierMeta := Page.chantierMeta st; Page.includeMap := Page.includeMap st;
     Page.author := Page.author st; Page.publishing := Page.publishing st;
     Page.toast := Page.toast st; Page.notes := Page.notes st;
     Page.activeNoteId := Page.activeNoteId st; Page.noteText := Page.noteText st;
     Page.notePhotos := v; Page.selectedAssetId := Page.selectedAssetId st |}.

(** [photos]: [detail?.photos || []] (line 433). *)
Definition photos (st : Page.t) : list SessionPhoto.t :=
  match Page.detail st with
  | Some d => SessionDetail.photos d
  | None => []
  end.

(** [includeMap[id] !== false] *)
Definition is_included (includeMap : gmap string bool) (id : string) : bool :=
  negb (bool_decide (includeMap !! id = Some false)).

(** [includedPhotoIds] (lines 441-444). *)
Definition includedPhotoIds (st : Page.t) : list string :=
  List.filter (is_included (Page.includeMap st)) (map SessionPhoto.id (photos st)).

(** [saveIncludeDraft(uiPhotoId, include)] (lines 894-918): the request it
    sends, to the session and photo that [chantierPhotoIdMap] gives for an
    aggregated photo, and the warning of a fetch that is rejected. *)
Definition saveIncludeDraft (res : outcome (response unit))
    (chantierPhotoIdMap : gmap string Origin.t) (uiPhotoId : string) (include : bool)
    (st : Page.t) : list event :=
  let sid := effectiveSessionId st in
  if negb (truthy sid) then []
  else
    let mapped := chantierPhotoIdMap !! uiPhotoId in
    let targetSessionId :=
      or_else (match mapped with Some o => Origin.session_id o | None => "" end) sid in
    let targetPhotoId :=
      or_else (match mapped with Some o => Origin.photo_id o | None => "" end) uiPhotoId in
    Fetch {| meth := POST; to := Api;
             path := "/sessions/" +:+ encodeURIComponent targetSessionId +:+ "/photos/"
                     +:+ encodeURIComponent targetPhotoId +:+ "/draft";
             body := Some (VObj {[ "include_in_report" := VBool include ]}) |}
    :: match res with
       | Rejected _ => [Console LogWarn]
       | Resolved _ => []
       end.

(** [toggleInclude(photoId)] (lines 920-929). *)
Definition toggleInclude (res : outcome (response unit))
    (chantierPhotoIdMap : gmap string Origin.t) (photoId : string) (st : Page.t)
    : Page.t * list event :=
  let prev := Page.includeMap st in
  let next :=
    <[photoId := if bool_decide (prev !! photoId = Some false) then true else false]> prev in
  (setIncludeMap st next,
   saveIncludeDraft res chantierPhotoIdMap photoId (is_included next photoId) st).

(** *** Notes *)

(** [toggleNotePhoto(pid)] (lines 1409-1416), as the update of
    [notePhotos]. *)
Definition toggleNotePhoto (pid : string) (prev : list string) : list string :=
  let set := dedup_first [] prev in
  if includes set pid then List.filter (fun x => negb (String.eqb x pid)) set
  else set ++ [pid].

(** [startNewNote()] (lines 937-942). *)
Definition startNewNote (st : Page.t) : Page.t :=
  let included := includedPhotoIds st in
  let st := Page.setActiveNoteId st None in
  let st := setNoteText st "" in
  let st := setNotePhotos st (if (length included =? 0)%nat then [] else take 3 included) in
  Page.setSelectedAssetId st None.

(** [openNoteForEdit(id)] (lines 952-965); [selectedPhotoId] is the photo
    shown in the viewer, which the handler moves to the first photo of the
    note. *)
Definition openNoteForEdit (id : string) (selectedPhotoId : option string) (st : Page.t)
    : Page.t * option string :=
  match find (fun x => String.eqb (SavNote.id x) id) (Page.notes st) with
  | None => (st, selectedPhotoId)
  | Some n =>
      let st := Page.setActiveNoteId st (Some id) in
      let st := setNoteText st (or_else (SavNote.text n) "") in
      let st := setNotePhotos st (SavNote.photo_ids n) in
      let selectedPhotoId :=
        match SavNote.photo_ids n with
        | p :: _ => Some p
        | [] => selectedPhotoId
        end in
      let first :=
        match default [] (SavNote.assets n) with
        | a :: _ => truthy_id (Some (NoteAsset.asset_id a))
        | [] => None
        end in
      (Page.setSelectedAssetId st first, selectedPhotoId)
  end.

(** [deleteNote(id)] (lines 1025-1034). *)
Definition deleteNote (id : string) (st : Page.t) : Page.t :=
  let st1 :=
    Page.setNotes st (List.filter (fun n => negb (String.eqb (SavNote.id n) id)) (Page.notes st)) in
  let st2 := if bool_decide (Page.activeNoteId st = Some id) then startNewNote st1 else st1 in
  Page.setToast st2 (toast_of success "Note supprimée.").

(** A digit of [n.toString(16)]. *)
Definition is_hex (c : ascii) : bool :=
  let n := nat_of_ascii c in
  is_digit c || ((97 <=? n)%nat && (n <=? 102)%nat).

(** *** The context of the chantier *)

(** [patchChantier(patch)] (lines 686-713); [res] is what the PATCH request
    gets back. *)
Definition patchChantier (res : outcome (response unit)) (patch : value) (st : Page.t)
    : Page.t * list event :=
  match truthy_id (ChantierMeta.chantier_id (Page.chantierMeta st)) with
  | None => (st, [])
  | Some cid =>
      let req := Fetch {| meth := PATCH; to := Api;
                          path := "/chantiers/" +:+ encodeURIComponent cid;
                          body := Some patch |} in
      let failed (message : string) :=
        (Page.setToast st (error_toast message "Erreur lors de la sauvegarde du chantier."),
         [req; Console LogError]) in
      match res with
      | Rejected message => failed message
      | Resolved r =>
          if negb (ok r) then
            match text r with
            | Rejected message => failed message
            | Resolved txt =>
                failed ("PATCH chantier (" +:+ pretty (status r) +:+ ") : "
                        +:+ or_else txt "Erreur")
            end
          else
            (Page.setChantier st
               (option_map (fun prev => deepMerge prev patch) (Page.chantier st)),
             [req])
      end
  end.

Module ProductOption.
Record t : Type := { code : string; label : string }.
End ProductOption.

(** The form that edits the context of the chantier. *)
Module ContextDraft.
Record t : Type := {
  isEditingContext : bool;
  draftInstallerName : string;
  draftInstallerCompany : string;
  draftInstallerPhone : string;
  draftReferenceChantier : string;
  draftProductCode : string;
  products : list ProductOption.t
}.

Definition setIsEditingContext (d : t) (v : bool) : t :=
  {| isEditingContext := v; draftInstallerName := draftInstallerName d;
     draftInstallerCompany := draftInstallerCompany d;
     draftInstallerPhone := draftInstallerPhone d;
     draftReferenceChantier := draftReferenceChantier d;
     draftProductCode := draftProductCode d; products := products d |}.
End ContextDraft.

(** [x || null] for a string. *)
Definition str_or_null (x : string) : value :=
  if truthy x then VStr x else VNull.

(** The patch that [saveEditContext] sends (lines 804-819). *)
Definition context_patch (d : ContextDraft.t) : value :=
  let prod : option ProductOption.t :=
    if truthy (ContextDraft.draftProductCode d) then
      Some (default {| ProductOption.code := ContextDraft.draftProductCode d;
                       ProductOption.label := ContextDraft.draftProductCode d |}
                    (find (fun p => String.eqb (ProductOption.code p)
                                               (ContextDraft.draftProductCode d))
                          (ContextDraft.products d)))
    else None in
  let installateur : gmap string value :=
    <["source" := VStr "crm_or_manual"]>
    (<["phone" := str_or_null (ContextDraft.draftInstallerPhone d)]>
    (<["societe" := str_or_null (ContextDraft.draftInstallerCompany d)]>
    {[ "nom" := str_or_null (ContextDraft.draftInstallerName d) ]})) in
  let context : gmap string value :=
    <["produit" :=
        match prod with
        | Some p => VObj (<["label" := VStr (ProductOption.label p)]>
                          {[ "code" := VStr (ProductOption.code p) ]})
        | None => VNull
        end]>
    (<["reference_chantier" := str_or_null (ContextDraft.draftReferenceChantier d)]>
    {[ "installateur" := VObj installateur ]}) in
  VObj {[ "context" := VObj context ]}.

(** [saveEditContext()] (lines 798-834). *)
Definition saveEditContext (res : outcome (response unit)) (d : ContextDraft.t) (st : Page.t)
    : Page.t * ContextDraft.t * list event :=
  if negb (isChantierMode st)
     || negb (truthy_opt (ChantierMeta.chantier_id (Page.chantierMeta st))) then
    (Page.setToast st
       (toast_of error "Cette session n'est pas encore rattachée à un chantier."),
     d, [])
  else
    let '(st1, evs) := patchChantier res (context_patch d) st in
    (Page.setToast st1 (toast_of success "Contexte enregistré."),
     ContextDraft.setIsEditingContext d false, evs).

End SavDetailEdit.

(** ** More of JavaScript strings *)

Module JsStringOps.

Import JsString.

Definition upper_char (c : ascii) : ascii :=
  let n := nat_of_ascii c in
  if (97 <=? n)%nat && (n <=? 122)%nat then ascii_of_nat (n - 32) else c.

(** [s.toUpperCase()] for a text whose letters are those of ASCII (a status
    code): a to z go to A to Z and every other byte stays. *)
Fixpoint toUpperCase (s : string) : string :=
  match s with
  | EmptyString => EmptyString
  | String c r => String (upper_char c) (toUpperCase r)
  end.

(** [s.startsWith(p)] *)
Definition startsWith (s p : string) : bool :=
  match strip_prefix p s with
  | Some _ => true
  | None => false
  end.

(** [hay.includes(needle)] *)
Fixpoint includes (hay needle : string) : bool :=
  startsWith hay needle
  || match hay with
     | EmptyString => false
     | String _ r => includes r needle
     end.

(** [s.replace(/[...]/g, "")] for a class [p] of characters. *)
Fixpoint remove_chars (p : ascii -> bool) (s : string) : string :=
  match s with
  | EmptyString => EmptyString
  | String c r => if p c then remove_chars p r else String c (remove_chars p r)
  end.

(** [s.slice(1)] *)
Definition slice1 (s : string) : string :=
  match s with
  | EmptyString => EmptyString
  | String _ r => r
  end.

End JsStringOps.

(** ** The inbox and list page: numbers, filters and order (part_004) *)

Module SavListView.

Import JsString JsStringOps Trace Json Http Url SavDetail.

(** *** The WhatsApp template *)

(** The class [[ \.\-\(\)]]. *)
Definition is_separator (c : ascii) : bool := in_chars " .-()" c.

(** [/^0[67]\d{8}$/] *)
Definition is_national_mobile (s : string) : bool :=
  match s with
  | String "0" (String c rest) =>
      (Ascii.eqb c "6" || Ascii.eqb c "7")
      && (String.length rest =? 8)%nat && all_chars is_digit rest
  | _ => false
  end.

(** [/^33\d{9}$/] *)
Definition is_33_number (s : string) : bool :=
  match strip_prefix "33" s with
  | Some rest => (String.length rest =? 9)%nat && all_chars is_digit rest
  | None => false
  end.

(** [toE164FR(raw)] (lines 239-257). *)
Definition toE164FR (raw : string) : string :=
  let v := trim (or_else raw "") in
  if negb (truthy v) then ""
  else
    let cleaned := remove_chars is_separator v in
    if startsWith cleaned "+" then cleaned
    else if is_national_mobile cleaned then "+33" +:+ slice1 cleaned
    else if is_33_number cleaned then "+" +:+ cleaned
    else cleaned.

Module Wa.
Record t : Type := {
  waPhone : string;
  waSending : bool;
  waMsg : option string
}.
End Wa.

(** [txt && txt.length < n ? `${prefix}${txt}` : fallback], where a failing
    [res.text()] reads as the empty string. *)
Definition short_error {A} (r : response A) (n : nat) (prefix fallback : string) : string :=
  let txt := match text r with Resolved t => t | Rejected _ => "" end in
  if truthy txt && (utf16_length txt <? n)%nat then prefix +:+ txt else fallback.

(** [sendWhatsAppTemplate()] (lines 259-300). *)
Definition sendWhatsAppTemplate (res : outcome (response unit)) (st : Wa.t)
    : Wa.t * list event :=
  let toNumber := toE164FR (Wa.waPhone st) in
  let say (sending : bool) (msg : string) : Wa.t :=
    {| Wa.waPhone := Wa.waPhone st; Wa.waSending := sending; Wa.waMsg := Some msg |} in
  if negb (truthy toNumber) then (say (Wa.waSending st) "Veuillez saisir un numéro.", [])
  else if negb (startsWith toNumber "+") then
    (say (Wa.waSending st) "Numéro invalide. Format attendu: 06… / 07… ou +33…", [])
  else
    let req := Fetch {| meth := POST; to := Api; path := "/actions/whatsapp/request-photos";
                        body := Some (VObj {[ "to_number" := VStr toNumber ]}) |} in
    match res with
    | Rejected _ =>
        (say false "Erreur réseau lors de l’envoi WhatsApp.", [req; Console LogError])
    | Resolved r =>
        if negb (ok r) then
          (say false (short_error r 220 "Erreur envoi: " "Erreur lors de l’envoi WhatsApp."),
           [req])
        else (say false "✅ Template WhatsApp envoyé.", [req])
    end.

(** *** The rows of the two tables *)

Module Row.
Record t : Type := {
  group_key : string;
  chantier_id : option string;
  installateur : option string;
  status : option string;
  type : option string;
  session_ids : option (list string);
  sender_numbers : option (list string);
  report_recipient_number : option string;
  updated_at : option Z;
  created_at : option Z
}.
End Row.

(** [normalizeStatusForFilter(st)] (lines 92-97). *)
Definition normalizeStatusForFilter (st : option string) : string :=
  let s := toUpperCase (trim (default "" (truthy_id st))) in
  if String.eqb s "PUBLIE" then "RESOLU" else s.

(** [normalizeStr(v)] (lines 118-122), for a string. *)
Definition normalizeStr (v : string) : string :=
  toLowerCase (trim (or_else v "")).

(** The text in which a row is searched (lines 514-526). *)
Definition hay (c : Row.t) : string :=
  toLowerCase
    (join " "
       (omap truthy_id
          ([Some (Row.group_key c); Row.chantier_id c; Row.status c; Row.type c]
           ++ map Some (default [] (Row.session_ids c))
           ++ map Some (default [] (Row.sender_numbers c))
           ++ [Some (default "" (truthy_id (Row.installateur c)));
               Some (default "" (truthy_id (Row.report_recipient_number c)))]))).

(** [filteredChantiers] and [filteredUnattached] (lines 470-530): the rows
    of a table that the status filter and the search keep. *)
Definition filtered (rows : list Row.t) (search statusFilter : string) : list Row.t :=
  let q := trim search in
  let qn := normalizeStr q in
  let statusNorm := toUpperCase (trim (or_else statusFilter "")) in
  List.filter
    (fun c =>
       if truthy statusNorm
          && negb (String.eqb (normalizeStatusForFilter (Row.status c)) statusNorm)
       then false
       else if negb (truthy qn) then true
       else includes (hay c) qn)
    rows.

(** [c.updated_at || c.created_at || 0] *)
Definition activity (c : Row.t) : Z :=
  match Row.updated_at c with
  | Some u => if negb (u =? 0)%Z then u else
                match Row.created_at c with
                | Some k => if negb (k =? 0)%Z then k else 0%Z
                | None => 0%Z
                end
  | None =>
      match Row.created_at c with
      | Some k => if negb (k =? 0)%Z then k else 0%Z
      | None => 0%Z
      end
  end.

(** The comparator of the two sorts of [fetchOverview] (lines 434-451):
    the latest activity first. *)
Definition compare_activity (a b : Row.t) : Z := (activity b - activity a)%Z.

(** The order in which [fetchOverview] shows the rows it received. *)
Definition by_activity (rows : list Row.t) : list Row.t := sort compare_activity rows.

End SavListView.

(** ** The first session detail page: photo drafts (part_002) *)

Module SavSessionDrafts.

Import JsString Json Http Url SavSession.

Definition setDrafts (st : Page.t) (v : gmap string PhotoDraft.t) : Page.t :=
  {| Page.sessionId := Page.sessionId st; Page.detail := Page.detail st; Page.drafts := v;
     Page.author := Page.author st; Page.publishing := Page.publishing st;
     Page.toast := Page.toast st |}.

(** A call of [scheduleDraftSave(sessionId, photoId, draft)]. *)
Module Scheduled.
Record t : Type := { sessionId : string; photoId : string; draft : PhotoDraft.t }.
End Scheduled.

(** The draft that [handleStatusChange] stores (lines 316-321). *)
Definition with_status (prev : gmap string PhotoDraft.t) (photoId : string)
    (status : PhotoDraft.status_t) : PhotoDraft.t :=
  {| PhotoDraft.status := status;
     PhotoDraft.commentaire :=
       or_else (match prev !! photoId with
                | Some d => PhotoDraft.commentaire d
                | None => ""
                end) "";
     PhotoDraft.annotatedPath :=
       match prev !! photoId with Some d => PhotoDraft.annotatedPath d | None => None end;
     PhotoDraft.annotatedUrl :=
       match prev !! photoId with Some d => PhotoDraft.annotatedUrl d | None => None end |}.

(** The draft that [handleCommentChange] stores (lines 346-351). *)
Definition with_comment (prev : gmap string PhotoDraft.t) (photoId value : string)
    : PhotoDraft.t :=
  {| PhotoDraft.status :=
       match prev !! photoId with
       | Some d => PhotoDraft.status d
       | None => PhotoDraft.a_revoir
       end;
     PhotoDraft.commentaire := value;
     PhotoDraft.annotatedPath :=
       match prev !! photoId with Some d => PhotoDraft.annotatedPath d | None => None end;
     PhotoDraft.annotatedUrl :=
       match prev !! photoId with Some d => PhotoDraft.annotatedUrl d | None => None end |}.

(** The end of both handlers: the draft is stored, and its save is
    scheduled when the page has a session id. *)
Definition store (photoId : string) (d : PhotoDraft.t) (st : Page.t)
    : Page.t * option Scheduled.t :=
  let next := <[photoId := d]> (Page.drafts st) in
  if negb (truthy (Page.sessionId st)) then (setDrafts st next, None)
  else
    (setDrafts st next,
     option_map (fun d' => {| Scheduled.sessionId := Page.sessionId st;
                              Scheduled.photoId := photoId; Scheduled.draft := d' |})
                (next !! photoId)).

(** [handleStatusChange(photoId, status)] (lines 314-342). *)
Definition handleStatusChange (photoId : string) (status : PhotoDraft.status_t) (st : Page.t)
    : Page.t * option Scheduled.t :=
  store photoId (with_status (Page.drafts st) photoId status) st.

(** [handleCommentChange(photoId, value)] (lines 344-372). *)
Definition handleCommentChange (photoId value : string) (st : Page.t)
    : Page.t * option Scheduled.t :=
  store photoId (with_comment (Page.drafts st) photoId value) st.

(** The body that [savePhotoDraftToServer] posts (lines 52-56). *)
Definition draft_body (d : PhotoDraft.t) : gmap string value :=
  let body : gmap string value :=
    {[ "status" := VStr (match PhotoDraft.status d with
                         | PhotoDraft.ok => "ok"
                         | PhotoDraft.a_revoir => "a_revoir"
                         end) ]} in
  let body := <["commentaire" := VStr (PhotoDraft.commentaire d)]> body in
  let body :=
    match truthy_id (PhotoDraft.annotatedPath d) with
    | Some x => <["annotated_path" := VStr x]> body
    | None => body
    end in
  match truthy_id (PhotoDraft.annotatedUrl d) with
  | Some x => <["annotated_url" := VStr x]> body
  | None => body
  end.

(** [savePhotoDraftToServer(sessionId, photoId, draft)] (lines 46-70), which
    the timer of [scheduleDraftSave] calls; [res] is what the request gets
    back. *)
Definition savePhotoDraftToServer (res : outcome (response unit)) (s : Scheduled.t)
    : list event :=
  Fetch {| meth := POST; to := Api;
           path := "/sessions/" +:+ encodeURIComponent (Scheduled.sessionId s) +:+ "/photos/"
                   +:+ encodeURIComponent (Scheduled.photoId s) +:+ "/draft";
           body := Some (VObj (draft_body (Scheduled.draft s))) |}
  :: match res with
     | Rejected _ => [Console LogError]
     | Resolved _ => []
     end.

End SavSessionDrafts.

(** ** The public session report: the photo viewer (part_001) *)

Module PublicSessionViewer.

Import JsString JsStringOps.

Module PublishedItem.
Inductive status_t : Type := ok | a_revoir.
Record t : Type := {
  photo_id : string;
  original_url : string;
  annotated_url : option string;
  commentaire : option string;
  status : status_t
}.
End PublishedItem.

Inductive mode : Type := original | annotated.

(** The state of the viewer: [currentIndex], [showComment], [viewMode]. *)
Module Viewer.
Record t : Type := {
  currentIndex : nat;
  showComment : bool;
  viewMode : mode
}.
End Viewer.

(** The state the component mounts with (lines 46-48). *)
Definition initial : Viewer.t :=
  {| Viewer.currentIndex := 0; Viewer.showComment := false; Viewer.viewMode := original |}.

(** [handlePrev()] (lines 78-83); [session] is the [published_items] of the
    session, when it is loaded. *)
Definition handlePrev (session : option (list PublishedItem.t)) (st : Viewer.t) : Viewer.t :=
  match session with
  | None => st
  | Some _ =>
      let idx := Viewer.currentIndex st in
      {| Viewer.currentIndex := if (0 <? idx)%nat then idx - 1 else idx;
         Viewer.showComment := false; Viewer.viewMode := original |}
  end.

(** [handleNext()] (lines 85-92). *)
Definition handleNext (session : option (list PublishedItem.t)) (st : Viewer.t) : Viewer.t :=
  match session with
  | None => st
  | Some published_items =>
      let idx := Viewer.currentIndex st in
      {| Viewer.currentIndex :=
           if (Z.of_nat idx <? Z.of_nat (length published_items) - 1)%Z then idx + 1 else idx;
         Viewer.showComment := false; Viewer.viewMode := original |}
  end.

(** [current] and [hasAnnotated] (lines 111-112). *)
Definition current (published_items : list PublishedItem.t) (st : Viewer.t)
    : option PublishedItem.t :=
  published_items !! Viewer.currentIndex st.

Definition hasAnnotated (item : PublishedItem.t) : bool :=
  truthy_opt (PublishedItem.annotated_url item).

(** The click on the switch between the photo and the technical visual
    (lines 157-160). *)
Definition toggleView (published_items : list PublishedItem.t) (st : Viewer.t) : Viewer.t :=
  match current published_items st with
  | Some item =>
      if hasAnnotated item then
        {| Viewer.currentIndex := Viewer.currentIndex st;
           Viewer.showComment := Viewer.showComment st;
           Viewer.viewMode := match Viewer.viewMode st with
                              | original => annotated
                              | annotated => original
                              end |}
      else st
  | None => st
  end.

Definition setShowComment (st : Viewer.t) (v : bool) : Viewer.t :=
  {| Viewer.currentIndex := Viewer.currentIndex st; Viewer.showComment := v;
     Viewer.viewMode := Viewer.viewMode st |}.

(** The address of an image: a string used as it is, or the result of
    [buildUrl] on a path. *)
Inductive address : Type :=
  | AsIs (url : string)
  | OnApi (path : string).

(** [computeImageUrl()] (lines 115-130); [None] is the TypeError of a
    [current] that is undefined. *)
Definition computeImageUrl (published_items : list PublishedItem.t) (st : Viewer.t)
    : option address :=
  match current published_items st with
  | None => None
  | Some item =>
      match Viewer.viewMode st with
      | annotated =>
          if hasAnnotated item then
            let raw := default "" (PublishedItem.annotated_url item) in
            if startsWith raw "http://" || startsWith raw "https://" then Some (AsIs raw)
            else Some (OnApi raw)
          else Some (AsIs (PublishedItem.original_url item))
      | original => Some (AsIs (PublishedItem.original_url item))
      end
  end.

(** What the visitor can click once the session is shown. *)
Inductive click : Type := Prev | Next | Switch | OpenComment | CloseComment.

Definition step (published_items : list PublishedItem.t) (st : Viewer.t) (c : click)
    : Viewer.t :=
  match c with
  | Prev => handlePrev (Some published_items) st
  | Next => handleNext (Some published_items) st
  | Switch => toggleView published_items st
  | OpenComment => setShowComment st true
  | CloseComment => setShowComment st false
  end.

End PublicSessionViewer.

(** * Properties *)

(** ** Strings *)

Module JsStringFacts.

Import JsString.

(** A proof by cases on the 256 values of a character. *)
Ltac by_char c :=
  destruct c as [[] [] [] [] [] [] [] []];
  first [reflexivity | vm_compute; congruence].

Lemma is_empty_true s : is_empty s = true <-> s = "".
Proof. destruct s; simpl; split; congruence. Qed.

Lemma is_empty_false s : is_empty s = false <-> s <> "".
Proof. destruct s; simpl; split; congruence. Qed.

Lemma truthy_true s : truthy s = true <-> s <> "".
Proof. unfold truthy. rewrite negb_true_iff. apply is_empty_false. Qed.

Lemma truthy_false s : truthy s = false <-> s = "".
Proof. unfold truthy. rewrite negb_false_iff. apply is_empty_true. Qed.

Lemma or_else_empty_r s : or_else s "" = s.
Proof. unfold or_else. destruct s; reflexivity. Qed.

Lemma strip_prefix_app p s : strip_prefix p (p +:+ s) = Some s.
Proof.
  induction p as [|a p IH]; [reflexivity|].
  change (strip_prefix (String a p) (String a (p +:+ s)) = Some s).
  simpl. rewrite Ascii.eqb_refl. exact IH.
Qed.

Lemma strip_prefix_Some p s r : strip_prefix p s = Some r -> s = p +:+ r.
Proof.
  revert s; induction p as [|a p IH]; intros s H; simpl in *.
  - injection H as ->. reflexivity.
  - destruct s as [|b s]; [discriminate|].
    destruct (Ascii.eqb a b) eqn:E; [|discriminate].
    apply Ascii.eqb_eq in E. subst b.
    change (String a s = String a (p +:+ r)). f_equal. apply IH, H.
Qed.

(** *** White space *)

Lemma truthy_trim v : truthy (trim v) = true -> truthy v = true.
Proof. destruct v; [discriminate | reflexivity]. Qed.

Lemma append_nil_r s : s +:+ "" = s.
Proof.
  induction s as [|c s IH]; [reflexivity|].
  change (String c (s +:+ "") = String c s). rewrite IH. reflexivity.
Qed.

Lemma append_assoc (a b c : string) : (a +:+ b) +:+ c = a +:+ (b +:+ c).
Proof.
  induction a as [|x a IH]; [reflexivity|].
  change (String x ((a +:+ b) +:+ c) = String x (a +:+ (b +:+ c))). rewrite IH. reflexivity.
Qed.

Lemma trimStart_eq (a : ascii) (r : string) :
  trimStart (String a r)
  = if is_ws a then trimStart r
    else match r with
         | String b r2 =>
             if is_ws2 a b then trimStart r2
             else match r2 with
                  | String c r3 => if is_ws3 a b c then trimStart r3 else String a r
                  | EmptyString => String a r
                  end
         | EmptyString => String a r
         end.
Proof. reflexivity. Qed.

Lemma trimStart_skip (s : string) :
  trimStart s = match skip_ws s with Some r => trimStart r | None => s end.
Proof.
  destruct s as [|a r]; [reflexivity|]. rewrite trimStart_eq. cbn [skip_ws].
  destruct (is_ws a); [reflexivity|]. destruct r as [|b r2]; [reflexivity|].
  destruct (is_ws2 a b); [reflexivity|]. destruct r2 as [|c r3]; [reflexivity|].
  destruct (is_ws3 a b c); reflexivity.
Qed.

(** What [skip_ws] removes is one white space character. *)
Lemma skip_ws_Some (s r : string) :
  skip_ws s = Some r ->
  exists w, s = w +:+ r /\ w <> "" /\ skip_ws w = Some "" /\ String.length w <= 3.
Proof.
  destruct s as [|a s]; [discriminate|]. cbn [skip_ws].
  destruct (is_ws a) eqn:Ha.
  { intros [= <-]. exists (String a ""). cbn [skip_ws]. rewrite Ha.
    repeat split; [discriminate | simpl; lia]. }
  destruct s as [|b s]; [discriminate|].
  destruct (is_ws2 a b) eqn:Hb.
  { intros [= <-]. exists (String a (String b "")). cbn [skip_ws]. rewrite Ha, Hb.
    repeat split; [discriminate | simpl; lia]. }
  destruct s as [|c s]; [discriminate|].
  destruct (is_ws3 a b c) eqn:Hc; [|discriminate].
  intros [= <-]. exists (String a (String b (String c ""))). cbn [skip_ws].
  rewrite Ha, Hb, Hc. repeat split; [discriminate | simpl; lia].
Qed.

Lemma skip_ws_length (s r : string) :
  skip_ws s = Some r -> String.length r < String.length s.
Proof.
  destruct s as [|a [|b [|c t]]]; cbn [skip_ws];
    repeat match goal with |- context [if ?x then _ else _] => destruct x end;
    intros [= <-]; simpl; lia.
Qed.

(** Induction along the white space a string starts with. *)
Lemma ws_ind (P : string -> Prop) :
  (forall s, skip_ws s = None -> P s) ->
  (forall s r, skip_ws s = Some r -> P r -> P s) ->
  forall s, P s.
Proof.
  intros Hnone Hsome s.
  remember (String.length s) as n eqn:Hn. revert s Hn.
  induction n as [n IH] using lt_wf_ind. intros s ->.
  destruct (skip_ws s) as [r|] eqn:E; [|apply Hnone, E].
  apply (Hsome s r E). apply (IH (String.length r)); [|reflexivity].
  apply skip_ws_length, E.
Qed.

Lemma skip_ws_app (a r b : string) :
  skip_ws a = Some r -> skip_ws (a +:+ b) = Some (r +:+ b).
Proof.
  destruct a as [|x a]; [discriminate|].
  change (String x a +:+ b) with (String x (a +:+ b)). cbn [skip_ws].
  destruct (is_ws x); [intros [= <-]; reflexivity|].
  destruct a as [|y a]; [discriminate|].
  change (String y a +:+ b) with (String y (a +:+ b)). cbn [skip_ws].
  destruct (is_ws2 x y); [intros [= <-]; reflexivity|].
  destruct a as [|z a]; [discriminate|].
  change (String z a +:+ b) with (String z (a +:+ b)). cbn [skip_ws].
  destruct (is_ws3 x y z); [intros [= <-]; reflexivity | discriminate].
Qed.

Lemma skip_ws_trimStart (s : string) : skip_ws (trimStart s) = None.
Proof.
  induction s as [s E | s r E IH] using ws_ind; rewrite trimStart_skip, E; assumption.
Qed.

Lemma trimStart_idem (s : string) : trimStart (trimStart s) = trimStart s.
Proof. rewrite (trimStart_skip (trimStart s)), skip_ws_trimStart. reflexivity. Qed.

Lemma blank_skip (s : string) :
  blank s = match skip_ws s with Some r => blank r | None => is_empty s end.
Proof. unfold blank. rewrite trimStart_skip. destruct (skip_ws s); reflexivity. Qed.

Lemma blank_empty (s : string) : blank s = true <-> trimStart s = "".
Proof. unfold blank. destruct (trimStart s); simpl; split; congruence. Qed.

(** White space in front of a string is trimmed away. *)
Lemma trimStart_blank_app (ws s : string) :
  blank ws = true -> trimStart (ws +:+ s) = trimStart s.
Proof.
  induction ws as [ws E | ws r E IH] using ws_ind; rewrite blank_skip, E.
  - destruct ws; [reflexivity | discriminate].
  - intros Hr. rewrite trimStart_skip, (skip_ws_app _ _ _ E). apply IH, Hr.
Qed.

Lemma blank_app (a b : string) : blank a = true -> blank (a +:+ b) = blank b.
Proof. intros H. unfold blank. rewrite trimStart_blank_app by exact H. reflexivity. Qed.

Lemma trimStart_split (s : string) :
  exists ws, blank ws = true /\ s = ws +:+ trimStart s.
Proof.
  induction s as [s E | s r E (ws & Hws & Hs)] using ws_ind.
  - exists "". rewrite trimStart_skip, E. split; reflexivity.
  - destruct (skip_ws_Some _ _ E) as (w & -> & Hw & Hsk & _).
    exists (w +:+ ws). split.
    + rewrite blank_skip, (skip_ws_app _ _ _ Hsk). exact Hws.
    + rewrite (trimStart_skip (w +:+ r)), E, append_assoc. congruence.
Qed.

Lemma trimStart_nonblank (s : string) :
  skip_ws s = None -> trimStart s = s.
Proof. intros E. rewrite trimStart_skip, E. reflexivity. Qed.

(** *** The end of a string *)

Lemma trimEnd_split (s : string) :
  exists ws, blank ws = true /\ s = trimEnd s +:+ ws.
Proof.
  induction s as [|c s (ws & Hws & Hs)]; [exists ""; split; reflexivity|].
  cbn [trimEnd]. destruct (blank (String c s)) eqn:E.
  - exists (String c s). split; [exact E | reflexivity].
  - exists ws. split; [exact Hws|].
    change (String c s = String c (trimEnd s +:+ ws)). congruence.
Qed.

(** A string no end of which, but the empty one, is white space is its
    own [trimEnd]. *)
Lemma trimEnd_clean (s : string) :
  (forall a b, s = a +:+ b -> b <> "" -> blank b = false) -> trimEnd s = s.
Proof.
  induction s as [|c s IH]; intros H; [reflexivity|].
  cbn [trimEnd]. rewrite (H "" (String c s) eq_refl) by discriminate.
  f_equal. apply IH. intros a b -> Hb. apply (H (String c a) b); [reflexivity | exact Hb].
Qed.

Lemma clean_end_trimEnd (s : string) :
  forall a b, trimEnd s = a +:+ b -> b <> "" -> blank b = false.
Proof.
  induction s as [|c s IH]; intros a b Hab Hb.
  - destruct a; [|discriminate]. change ("" = b) in Hab. congruence.
  - cbn [trimEnd] in Hab. destruct (blank (String c s)) eqn:E.
    + destruct a; [|discriminate]. change ("" = b) in Hab. congruence.
    + destruct a as [|x a].
      * change (String c (trimEnd s) = b) in Hab. subst b.
        destruct (trimEnd_split s) as (ws & Hws & Hs).
        destruct (blank (String c (trimEnd s))) eqn:E'; [|reflexivity].
        rewrite <- (blank_app _ ws E') in Hws.
        change (blank (String c (trimEnd s +:+ ws)) = true) in Hws.
        rewrite <- Hs in Hws. congruence.
      * change (String c (trimEnd s) = String x (a +:+ b)) in Hab.
        injection Hab as -> Hab. apply (IH a b Hab Hb).
Qed.

Lemma trimEnd_idem (s : string) : trimEnd (trimEnd s) = trimEnd s.
Proof. apply trimEnd_clean, clean_end_trimEnd. Qed.

Lemma skip_ws_prefix (a b : string) : skip_ws (a +:+ b) = None -> skip_ws a = None.
Proof.
  intros H. destruct (skip_ws a) as [r|] eqn:E; [|reflexivity].
  rewrite (skip_ws_app _ _ _ E) in H. discriminate.
Qed.

Lemma skip_ws_trim (s : string) : skip_ws (trim s) = None.
Proof.
  unfold trim. destruct (trimEnd_split (trimStart s)) as (ws & _ & Hs).
  apply (skip_ws_prefix _ ws). rewrite <- Hs. apply skip_ws_trimStart.
Qed.

Lemma trim_idem (s : string) : trim (trim s) = trim s.
Proof.
  unfold trim at 1. rewrite (trimStart_nonblank _ (skip_ws_trim s)).
  unfold trim. apply trimEnd_idem.
Qed.

Lemma trim_split (s : string) : exists a b, s = a +:+ trim s +:+ b.
Proof.
  destruct (trimStart_split s) as (a & _ & Ha).
  destruct (trimEnd_split (trimStart s)) as (b & _ & Hb).
  exists a, b. unfold trim. rewrite <- Hb. exact Ha.
Qed.

Lemma trim_blank (s : string) : trim s = "" <-> blank s = true.
Proof.
  unfold trim. rewrite blank_empty. split.
  - intros H. destruct (trimStart s) as [|c r] eqn:E; [reflexivity|].
    cbn [trimEnd] in H. destruct (blank (String c r)) eqn:Eb; [|discriminate].
    rewrite <- E in Eb. unfold blank in Eb. rewrite trimStart_idem, E in Eb. discriminate.
  - intros ->. reflexivity.
Qed.

(** *** Digits and letters of ASCII *)

Lemma is_digit_not_ws c : is_digit c = true -> is_ws c = false.
Proof. by_char c. Qed.

Lemma is_digit_low c : is_digit c = true -> (nat_of_ascii c <? 128)%nat = true.
Proof. by_char c. Qed.

Lemma byte_in_high lo hi c :
  128 <= lo -> (nat_of_ascii c <? 128)%nat = true -> byte_in lo hi c = false.
Proof.
  intros Hlo Hc. apply Nat.ltb_lt in Hc. unfold byte_in.
  apply andb_false_iff. left. apply Nat.leb_gt. lia.
Qed.

(** A string that starts with an ASCII character that is not white space
    does not start with white space. *)
Lemma skip_ws_low c r :
  (nat_of_ascii c <? 128)%nat = true -> is_ws c = false -> skip_ws (String c r) = None.
Proof.
  intros Hc Hw. cbn [skip_ws]. rewrite Hw.
  assert (H2 : forall b, is_ws2 c b = false).
  { intros b. unfold is_ws2, is_byte. rewrite byte_in_high by (lia || exact Hc). reflexivity. }
  assert (H3 : forall b d, is_ws3 c b d = false).
  { intros b d. unfold is_ws3, is_byte.
    rewrite !(byte_in_high _ _ c) by (lia || exact Hc). reflexivity. }
  destruct r as [|b [|d r]]; rewrite ?H2, ?H3; reflexivity.
Qed.

Lemma trimStart_digits d : all_chars is_digit d = true -> trimStart d = d.
Proof.
  destruct d as [|c d]; [reflexivity|]. cbn [all_chars]. intros H.
  apply andb_true_iff in H as [Hc _]. apply trimStart_nonblank.
  apply skip_ws_low; [apply is_digit_low, Hc | apply is_digit_not_ws, Hc].
Qed.

Lemma trimStart_ws_app ws d :
  blank ws = true -> all_chars is_digit d = true -> trimStart (ws +:+ d) = d.
Proof.
  intros Hws Hd. rewrite trimStart_blank_app by exact Hws. apply trimStart_digits, Hd.
Qed.

(** *** Case mapping on ASCII letters and white space *)

Lemma nat_of_lower_char c :
  nat_of_ascii (lower_char c)
  = if (65 <=? nat_of_ascii c)%nat && (nat_of_ascii c <=? 90)%nat
    then nat_of_ascii c + 32 else nat_of_ascii c.
Proof. by_char c. Qed.

Lemma byte_in_lower lo hi c : 123 <= lo -> byte_in lo hi (lower_char c) = byte_in lo hi c.
Proof.
  intros Hlo. unfold byte_in. rewrite nat_of_lower_char.
  destruct ((65 <=? nat_of_ascii c)%nat && (nat_of_ascii c <=? 90)%nat) eqn:E; [|reflexivity].
  apply andb_true_iff in E as [_ E]. apply Nat.leb_le in E.
  rewrite !(proj2 (Nat.leb_gt lo _)) by lia. reflexivity.
Qed.

Lemma is_ws_lower_char c : is_ws (lower_char c) = is_ws c.
Proof. by_char c. Qed.

Lemma skip_ws_toLowerCase s : skip_ws (toLowerCase s) = option_map toLowerCase (skip_ws s).
Proof.
  destruct s as [|a [|b [|c r]]]; cbn [toLowerCase skip_ws]; unfold is_ws2, is_ws3, is_byte;
    rewrite ?is_ws_lower_char, ?byte_in_lower by lia;
    repeat match goal with |- context [if ?x then _ else _] => destruct x end; reflexivity.
Qed.

Lemma is_empty_toLowerCase s : is_empty (toLowerCase s) = is_empty s.
Proof. destruct s; reflexivity. Qed.

Lemma trimStart_toLowerCase s : trimStart (toLowerCase s) = toLowerCase (trimStart s).
Proof.
  induction s as [s E | s r E IH] using ws_ind;
    rewrite trimStart_skip, skip_ws_toLowerCase, (trimStart_skip s), E; [reflexivity | exact IH].
Qed.

Lemma trimEnd_toLowerCase s : trimEnd (toLowerCase s) = toLowerCase (trimEnd s).
Proof.
  induction s as [|c s IH]; [reflexivity|].
  cbn [toLowerCase trimEnd].
  change (String (lower_char c) (toLowerCase s)) with (toLowerCase (String c s)).
  unfold blank. rewrite trimStart_toLowerCase, is_empty_toLowerCase.
  destruct (is_empty (trimStart (String c s))); [reflexivity|].
  cbn [toLowerCase]. rewrite IH. reflexivity.
Qed.

Lemma trim_toLowerCase s : trim (toLowerCase s) = toLowerCase (trim s).
Proof. unfold trim. rewrite trimStart_toLowerCase. apply trimEnd_toLowerCase. Qed.

(** The ASCII case mapping leaves white space as it is. *)
Lemma lower_char_ws c : is_ws c = true -> lower_char c = c.
Proof. by_char c. Qed.

Lemma lower_char_high c : (128 <=? nat_of_ascii c)%nat = true -> lower_char c = c.
Proof. by_char c. Qed.

Lemma is_byte_high n c : 128 <= n -> is_byte n c = true -> (128 <=? nat_of_ascii c)%nat = true.
Proof.
  unfold is_byte, byte_in. intros Hn H. apply andb_true_iff in H as [H _].
  apply Nat.leb_le in H. apply Nat.leb_le. lia.
Qed.

Lemma toLowerCase_blank s : blank s = true -> toLowerCase s = s.
Proof.
  induction s as [s E | s r E IH] using ws_ind; rewrite blank_skip, E.
  - destruct s; [reflexivity | discriminate].
  - intros Hr. specialize (IH Hr).
    destruct s as [|a [|b [|c t]]]; cbn [skip_ws] in E; try discriminate.
    + destruct (is_ws a) eqn:Ha; [|discriminate]. injection E as <-.
      cbn [toLowerCase]. rewrite (lower_char_ws _ Ha). reflexivity.
    + destruct (is_ws a) eqn:Ha.
      * injection E as <-. cbn [toLowerCase] in *. rewrite (lower_char_ws _ Ha), IH. reflexivity.
      * destruct (is_ws2 a b) eqn:H2; [|discriminate]. injection E as <-.
        unfold is_ws2 in H2. apply andb_true_iff in H2 as [Hx Hy].
        cbn [toLowerCase].
        rewrite (lower_char_high a), (lower_char_high b)
          by (eapply is_byte_high; [|eassumption]; lia). reflexivity.
    + destruct (is_ws a) eqn:Ha.
      * injection E as <-. cbn [toLowerCase] in *. rewrite (lower_char_ws _ Ha), IH. reflexivity.
      * destruct (is_ws2 a b) eqn:H2.
        -- injection E as <-. unfold is_ws2 in H2. apply andb_true_iff in H2 as [Hx Hy].
           cbn [toLowerCase] in *.
           rewrite (lower_char_high a), (lower_char_high b), IH
             by (eapply is_byte_high; [|eassumption]; lia). reflexivity.
        -- destruct (is_ws3 a b c) eqn:H3; [|discriminate]. injection E as <-.
           assert (Hhigh : (128 <=? nat_of_ascii a)%nat = true
                           /\ (128 <=? nat_of_ascii b)%nat = true
                           /\ (128 <=? nat_of_ascii c)%nat = true).
           { unfold is_ws3, is_byte, byte_in in H3.
             repeat rewrite ?orb_true_iff, ?andb_true_iff, ?Nat.leb_le in H3.
             rewrite !Nat.leb_le. lia. }
           destruct Hhigh as (Hx & Hy & Hz).
           cbn [toLowerCase]. rewrite (lower_char_high a Hx), (lower_char_high b Hy),
             (lower_char_high c Hz), IH. reflexivity.
Qed.

End JsStringFacts.

(** ** The deep merge *)

Module DeepMergeFacts.

Import Json.

Lemma merge_step_assign base k pv out :
  merge_step deepMerge base k pv out = assign out k (merged base k pv).
Proof.
  unfold merge_step, merged.
  destruct pv; try reflexivity.
  destruct (base !! k) as [[]|]; reflexivity.
Qed.

Lemma assign_lookup_ne (out : gmap string value) (k k' : string) (v : value) :
  k <> k' -> assign out k v !! k' = out !! k'.
Proof.
  intros Hne. unfold assign.
  destruct (String.eqb k "__proto__" && negb (bool_decide (is_Some (out !! k))));
    [reflexivity | apply lookup_insert_ne, Hne].
Qed.

(** What an assignment leaves under the name it assigns to. *)
Lemma assign_lookup_eq (out : gmap string value) (k : string) (v : value) :
  assign out k v !! k
  = if bool_decide (k = "__proto__" /\ out !! k = None) then None else Some v.
Proof.
  unfold assign. destruct (String.eqb_spec k "__proto__") as [->|Hk]; cbn [andb].
  - destruct (out !! "__proto__") as [x|] eqn:E.
    + rewrite bool_decide_eq_true_2 by eauto. cbn [negb].
      rewrite lookup_insert_eq, bool_decide_eq_false_2; [reflexivity|].
      intros [_ H]. discriminate.
    + rewrite bool_decide_eq_false_2 by (intros [x Hx]; discriminate). cbn [negb].
      rewrite E, bool_decide_eq_true_2 by auto. reflexivity.
  - rewrite lookup_insert_eq, bool_decide_eq_false_2; [reflexivity | tauto].
Qed.

(** An object patch: every key of the patch is assigned, the others are
    kept. *)
Lemma deepMerge_object_lookup_gen (base pm : gmap string value) (k : string) :
  deepMerge base (VObj pm) !! k =
  match pm !! k with
  | Some pv =>
      if bool_decide (k = "__proto__" /\ base !! k = None) then None
      else Some (merged base k pv)
  | None => base !! k
  end.
Proof.
  simpl. revert k.
  apply (map_fold_weak_ind
           (fun (r : gmap string value) (m : gmap string value) =>
              forall k, r !! k =
                        match m !! k with
                        | Some pv =>
                            if bool_decide (k = "__proto__" /\ base !! k = None) then None
                            else Some (merged base k pv)
                        | None => base !! k
                        end)).
  - intros k. rewrite lookup_empty. reflexivity.
  - intros i x m r Hi IH k. rewrite merge_step_assign.
    destruct (decide (i = k)) as [->|Hne].
    + rewrite lookup_insert_eq, assign_lookup_eq, (IH k), Hi. reflexivity.
    + rewrite lookup_insert_ne, assign_lookup_ne by assumption. apply IH.
Qed.

(** The same for a key that an assignment stores. *)
Lemma deepMerge_object_lookup (base pm : gmap string value) (k : string) :
  k <> "__proto__" ->
  deepMerge base (VObj pm) !! k =
  match pm !! k with
  | Some pv => Some (merged base k pv)
  | None => base !! k
  end.
Proof.
  intros Hk. rewrite deepMerge_object_lookup_gen.
  rewrite bool_decide_eq_false_2 by tauto. reflexivity.
Qed.

Lemma index_props_below (l : list value) (i j : nat) :
  j < i -> index_props i l !! pretty j = None.
Proof.
  revert i. induction l as [|pv l IH]; intros i Hj; simpl.
  - apply lookup_empty.
  - rewrite lookup_insert_ne.
    + apply IH. lia.
    + intros E. apply (inj pretty) in E. lia.
Qed.

(** An array patch: its keys are its indices. *)
Lemma fold_indices_lookup (base : gmap string value) (l : list value) (i : nat)
    (out : gmap string value) (k : string) :
  fold_indices (merge_step deepMerge base) i l out !! k =
  match index_props i l !! k with
  | Some pv =>
      if bool_decide (k = "__proto__" /\ out !! k = None) then None
      else Some (merged base k pv)
  | None => out !! k
  end.
Proof.
  revert i out. induction l as [|pv l IH]; intros i out; simpl.
  - rewrite lookup_empty. reflexivity.
  - rewrite IH, merge_step_assign.
    destruct (decide (pretty i = k)) as [<-|Hne].
    + rewrite index_props_below by lia. rewrite lookup_insert_eq. apply assign_lookup_eq.
    + rewrite lookup_insert_ne, assign_lookup_ne by assumption. reflexivity.
Qed.

(** The result of [deepMerge] at any key, for any patch. *)
Lemma deepMerge_lookup (base : gmap string value) (patch : value) (k : string) :
  deepMerge base patch !! k =
  match own_props patch !! k with
  | Some pv =>
      if bool_decide (k = "__proto__" /\ base !! k = None) then None
      else Some (merged base k pv)
  | None => base !! k
  end.
Proof.
  destruct patch; try (simpl; rewrite lookup_empty; reflexivity).
  - simpl. apply fold_indices_lookup.
  - apply deepMerge_object_lookup_gen.
Qed.

(** C9, as amended.  [deepMerge] obeys the conflict rule for every base
    object and every patch, at every key [k] that an assignment stores: any
    name but [__proto__], and [__proto__] when the base has it as an own
    property.  (1) If the patch has [k] and its value or the base's value at
    [k] is not a plain object (an array, a string, a number, null, or a
    missing base value), the patch value replaces the base value wholesale.
    (2) If both are plain objects, the result at [k] is their recursive
    merge.  For every key: (3) if the patch does not have [k], the result
    at [k] is what the base has there (a value, or nothing); and (4) when
    the base has no own property [__proto__], the result has none either,
    whatever the patch holds under that name. *)
Theorem deepMerge_conflict_rule (base : gmap string value) (patch : value) (k : string) :
  (stored base k ->
     (forall pv,
        own_props patch !! k = Some pv ->
        is_plain_object pv && is_plain_object (get base k) = false ->
        deepMerge base patch !! k = Some pv)
     /\ (forall pv bm,
        own_props patch !! k = Some pv ->
        is_plain_object pv = true ->
        base !! k = Some (VObj bm) ->
        deepMerge base patch !! k = Some (VObj (deepMerge bm pv))))
  /\ (own_props patch !! k = None -> deepMerge base patch !! k = base !! k)
  /\ (~ stored base k -> deepMerge base patch !! k = None).
Proof.
  split; [|split].
  - intros Hk.
    assert (Hno : bool_decide (k = "__proto__" /\ base !! k = None) = false).
    { apply bool_decide_eq_false_2. intros [E1 E2]. exact (Hk E1 E2). }
    split.
    + intros pv Hpv Hnot. rewrite deepMerge_lookup, Hpv, Hno. f_equal.
      unfold merged. unfold get in Hnot.
      destruct pv; try reflexivity.
      destruct (base !! k) as [[]|]; try reflexivity. discriminate.
    + intros pv bm Hpv Hplain Hb. rewrite deepMerge_lookup, Hpv, Hno. f_equal.
      unfold merged. rewrite Hb. destruct pv; try discriminate. reflexivity.
  - intros Hk. rewrite deepMerge_lookup, Hk. reflexivity.
  - intros Hk. unfold stored in Hk.
    assert (Hp : k = "__proto__" /\ base !! k = None).
    { destruct (decide (k = "__proto__")) as [E|E]; [|exfalso; apply Hk; tauto].
      split; [exact E|]. destruct (base !! k) eqn:Eb; [|reflexivity].
      exfalso. apply Hk. intros _. discriminate. }
    rewrite deepMerge_lookup. destruct (own_props patch !! k).
    + rewrite bool_decide_eq_true_2 by exact Hp. reflexivity.
    + apply Hp.
Qed.

(** The rule at work: [a] is merged key by key, the array [b] and the
    string [c] are replaced, and [d] is kept. *)
Lemma deepMerge_conflict_rule_witness :
  let base : gmap string value :=
    {[ "a" := VObj {[ "x" := VNum (JsNumber.Fin 1 0); "y" := VNull ]};
       "b" := VArr [VNull; VNull];
       "c" := VObj ∅;
       "d" := VBool true ]} in
  let patch :=
    VObj {[ "a" := VObj {[ "x" := VStr "n" ]}; "b" := VArr []; "c" := VStr "s" ]} in
  deepMerge base patch !! "b" = Some (VArr [])
  /\ deepMerge base patch !! "c" = Some (VStr "s")
  /\ deepMerge base patch !! "a"
     = Some (VObj (deepMerge {[ "x" := VNum (JsNumber.Fin 1 0); "y" := VNull ]}
                             (VObj {[ "x" := VStr "n" ]})))
  /\ deepMerge base patch !! "d" = Some (VBool true).
Proof.
  intros base patch.
  assert (Hs : forall k, k <> "__proto__" -> stored base k) by (intros k Hk E; contradiction).
  pose proof (deepMerge_conflict_rule base patch "b") as (Hb & _ & _).
  pose proof (deepMerge_conflict_rule base patch "c") as (Hc & _ & _).
  pose proof (deepMerge_conflict_rule base patch "a") as (Ha & _ & _).
  pose proof (deepMerge_conflict_rule base patch "d") as (_ & Hd & _).
  split; [apply Hb; [apply Hs; discriminate | reflexivity | reflexivity]|].
  split; [apply Hc; [apply Hs; discriminate | reflexivity | reflexivity]|].
  split; [apply Ha; [apply Hs; discriminate | reflexivity | reflexivity | reflexivity]|].
  rewrite Hd; reflexivity.
Defined.

(** C9, as stated, fails at the key [__proto__]: the patch has it, its
    value is a number, not a plain object, and yet it does not replace
    anything: the result has no such key, it is the base with [b]. *)
Lemma deepMerge_proto_counterexample :
  let base : gmap string value := {[ "a" := VNum (JsNumber.Fin 1 0) ]} in
  let patch :=
    VObj {[ "__proto__" := VNum (JsNumber.Fin 5 0); "b" := VNum (JsNumber.Fin 2 0) ]} in
  own_props patch !! "__proto__" = Some (VNum (JsNumber.Fin 5 0))
  /\ is_plain_object (VNum (JsNumber.Fin 5 0)) && is_plain_object (get base "__proto__") = false
  /\ deepMerge base patch !! "__proto__" = None
  /\ deepMerge base patch !! "a" = Some (VNum (JsNumber.Fin 1 0))
  /\ deepMerge base patch !! "b" = Some (VNum (JsNumber.Fin 2 0)).
Proof.
  intros base patch.
  split; [reflexivity|]. split; [reflexivity|].
  rewrite !deepMerge_lookup. repeat split.
Qed.

End DeepMergeFacts.

(** ** The visibility rules of the link generator *)

Module VisibilityFacts.

Import JsString JsNumber Generateur JsStringFacts.

Lemma existsb_eqb_In (f : string -> string) (x : string) (l : list string) :
  existsb (fun v => String.eqb (f v) x) l = true <-> In x (map f l).
Proof.
  induction l as [|v l IH]; simpl.
  - split; [discriminate | tauto].
  - rewrite orb_true_iff, IH, String.eqb_eq. tauto.
Qed.

(** What [ivData[sourceField]] reads when it does not read a function the
    object inherits: the value typed, or nothing. *)
Lemma read_not_inherited (ivData : IvData) (k : string) :
  JsObject.read ivData k <> JsObject.Inherited ->
  JsObject.read ivData k
  = match JsObject.get ivData k with
    | Some v => JsObject.Own v
    | None => JsObject.Undefined
    end.
Proof.
  unfold JsObject.read, JsObject.found.
  destruct (JsObject.get ivData k); [reflexivity|].
  destruct (JsObject.is_inherited k); [congruence | reflexivity].
Qed.

Section Engine.

Variable toLowerCase : string -> string.

(** White space has no case: the case mapping leaves it as it is. *)
Hypothesis toLowerCase_blank : forall s, blank s = true -> toLowerCase s = s.

(** C2, as amended.  For a step group whose showIf names a source field,
    and unless that name is one that objects inherit and nothing was typed
    under it, [shouldShowGroup] returns, and it returns true if and only if
    the current value of that field, lower-cased and trimmed, is not empty
    and equals one of the allow-listed values lower-cased and trimmed; a
    missing, empty or whitespace-only value makes it return false.  The
    case mapping is the one of the engine; all that is used of it is that
    it leaves white space as it is. *)
Theorem shouldShowGroup_allow_list (group : StepGroup.t) (si : GroupShowIf.t)
    (ivData : IvData) :
  StepGroup.showIf group = Some si ->
  GroupShowIf.sourceField si <> "" ->
  JsObject.read ivData (GroupShowIf.sourceField si) <> JsObject.Inherited ->
  let current :=
    lower_trimmed toLowerCase (current_value ivData (GroupShowIf.sourceField si)) in
  exists shown,
    shouldShowGroup toLowerCase group ivData = Some shown
    /\ (shown = true
        <-> current <> ""
            /\ In current (map (lower_trimmed toLowerCase) (GroupShowIf.allowedValues si)))
    /\ (trim (current_value ivData (GroupShowIf.sourceField si)) = "" -> shown = false).
Proof.
  intros Hsi Hsrc Hread current.
  assert (Hrun : shouldShowGroup toLowerCase group ivData =
                 Some (if negb (truthy current) then false
                       else existsb (fun v => String.eqb (lower_trimmed toLowerCase v) current)
                                    (GroupShowIf.allowedValues si))).
  { unfold shouldShowGroup. rewrite Hsi.
    apply truthy_true in Hsrc. rewrite Hsrc. cbn [negb].
    rewrite (read_not_inherited _ _ Hread).
    unfold current, current_value, lower_trimmed.
    destruct (JsObject.get ivData (GroupShowIf.sourceField si)) as [v|];
      cbn [default from_option id]; rewrite or_else_empty_r;
      destruct (negb (truthy (trim (toLowerCase _)))); reflexivity. }
  eexists. split; [exact Hrun|]. split.
  - destruct (truthy current) eqn:Ht; cbn [negb].
    + apply truthy_true in Ht. rewrite existsb_eqb_In. tauto.
    + apply truthy_false in Ht. split; [discriminate | tauto].
  - intros Hblank. apply trim_blank in Hblank.
    assert (Hc : current = "").
    { unfold current, lower_trimmed. rewrite (toLowerCase_blank _ Hblank).
      apply trim_blank, Hblank. }
    rewrite Hc. reflexivity.
Qed.

End Engine.

(** The evaluation that the amended claim leaves out: under a name that
    objects inherit, with nothing typed, [shouldShowGroup] throws. *)
Lemma shouldShowGroup_inherited (toLowerCase : string -> string) (group : StepGroup.t)
    (si : GroupShowIf.t) (ivData : IvData) :
  StepGroup.showIf group = Some si ->
  GroupShowIf.sourceField si <> "" ->
  JsObject.read ivData (GroupShowIf.sourceField si) = JsObject.Inherited ->
  shouldShowGroup toLowerCase group ivData = None.
Proof.
  intros Hsi Hsrc Hread. unfold shouldShowGroup. rewrite Hsi.
  apply truthy_true in Hsrc. rewrite Hsrc, Hread. reflexivity.
Qed.

(** A group shown for the answer "OUI" when " oui " is allow-listed (the
    no-break space before it is trimmed too). *)
Lemma shouldShowGroup_allow_list_witness :
  let nbsp := String (ascii_of_nat 194) (String (ascii_of_nat 160) "") in
  let si := {| GroupShowIf.sourceField := "iv_ballon";
               GroupShowIf.allowedValues := ["non"; nbsp +:+ " oui "] |} in
  let group := {| StepGroup.label := "Ballon ECS"; StepGroup.category := "Hydraulique";
                  StepGroup.keys := ["k1"]; StepGroup.showIf := Some si |} in
  shouldShowGroup JsString.toLowerCase group [("iv_ballon", "OUI")] = Some true.
Proof.
  intros nbsp si group.
  destruct (shouldShowGroup_allow_list JsString.toLowerCase toLowerCase_blank group si
              [("iv_ballon", "OUI")] eq_refl)
    as (shown & Hrun & Hiff & _); [discriminate | discriminate |].
  rewrite Hrun. f_equal. apply Hiff.
  split; [discriminate | right; left; reflexivity].
Defined.

(** C2, as stated, fails on a whitespace-only value: the value " " is
    present and not empty, lower-cased and trimmed it equals the allow-listed
    " " lower-cased and trimmed, and yet the group is hidden. *)
Lemma shouldShowGroup_blank_counterexample :
  let si := {| GroupShowIf.sourceField := "iv_ballon";
               GroupShowIf.allowedValues := [" "] |} in
  let group := {| StepGroup.label := "Ballon ECS"; StepGroup.category := "Hydraulique";
                  StepGroup.keys := ["k1"]; StepGroup.showIf := Some si |} in
  let ivData : IvData := [("iv_ballon", " ")] in
  GroupShowIf.sourceField si <> ""
  /\ GroupShowIf.allowedValues si <> []
  /\ JsObject.get ivData "iv_ballon" = Some " "
  /\ " " <> ""
  /\ In (lower_trimmed JsString.toLowerCase " ")
        (map (lower_trimmed JsString.toLowerCase) (GroupShowIf.allowedValues si))
  /\ shouldShowGroup JsString.toLowerCase group ivData = Some false.
Proof.
  repeat split; try discriminate. left; reflexivity.
Qed.

(** *** The rule [>=N] *)

Lemma span_digits_all d :
  all_chars is_digit d = true -> span_digits d = (d, "").
Proof.
  induction d as [|c d IH]; simpl; [reflexivity|].
  intros H. apply andb_true_iff in H as [Hc Hd].
  rewrite Hc, (IH Hd). reflexivity.
Qed.

(** The captured digits are read back as the natural number they write. *)
Lemma parseFloat_digits d :
  all_chars is_digit d = true -> d <> "" -> parseFloat d = of_N (digits_val 0 d).
Proof.
  intros Hd Hne. destruct d as [|c d]; [congruence|].
  pose proof Hd as Hall. cbn [all_chars] in Hd. apply andb_true_iff in Hd as [Hc Hd].
  unfold parseFloat. rewrite (trimStart_digits _ Hall).
  assert (Hsign : take_sign (String c d) = (false, String c d)).
  { destruct c as [[] [] [] [] [] [] [] []]; try discriminate Hc; reflexivity. }
  rewrite Hsign.
  assert (Hinf : strip_prefix "Infinity" (String c d) = None).
  { destruct c as [[] [] [] [] [] [] [] []]; try discriminate Hc; reflexivity. }
  rewrite Hinf, (span_digits_all _ Hall). simpl.
  rewrite append_nil_r. reflexivity.
Qed.

Lemma match_ge_rule_of_form rule n :
  is_ge_rule rule n ->
  exists digits, match_ge_rule rule = Some digits /\ parseFloat digits = of_N n.
Proof.
  intros (ws & d & Hws & Hd & Hne & -> & ->).
  exists d. split; [|apply parseFloat_digits; assumption].
  unfold match_ge_rule. rewrite strip_prefix_app, (trimStart_ws_app _ _ Hws Hd), Hd.
  apply is_empty_false in Hne. rewrite Hne. reflexivity.
Qed.

Lemma match_ge_rule_form rule digits :
  match_ge_rule rule = Some digits -> is_ge_rule rule (digits_val 0 digits).
Proof.
  unfold match_ge_rule. destruct (strip_prefix ">=" rule) as [r|] eqn:Hp; [|discriminate].
  destruct (negb (is_empty (trimStart r)) && all_chars is_digit (trimStart r)) eqn:Hc;
    [|discriminate].
  intros [= <-]. apply andb_true_iff in Hc as [Hne Hd].
  apply negb_true_iff, is_empty_false in Hne.
  destruct (trimStart_split r) as (ws & Hws & Hr).
  exists ws, (trimStart r). repeat split; try assumption.
  apply strip_prefix_Some in Hp. congruence.
Qed.

(** None of the inherited names reads as a number. *)
Lemma parseFloat_inherited (k : string) :
  JsObject.is_inherited k = true -> isNaN (parseFloat k) = true.
Proof.
  unfold JsObject.is_inherited, JsObject.inherited_names. cbn [existsb].
  rewrite !orb_true_iff, !String.eqb_eq.
  intros H. repeat (destruct H as [-> | H]; [reflexivity|]). discriminate.
Qed.

(** The number the code compares. *)
Lemma numeric_of_spec (allIntro : list IntroField.t) (sourceField valRaw : string)
    (x : number) :
  numeric_of allIntro sourceField valRaw = Num x
  <-> maps_to_number allIntro sourceField valRaw x.
Proof.
  unfold maps_to_number, numeric_of, JsObject.read_map, JsObject.found. cbv zeta.
  assert (Hparse : (if isNaN (parseFloat valRaw) then Null else Num (parseFloat valRaw)) = Num x
                   <-> parseFloat valRaw = x /\ isNaN x = false).
  { destruct (isNaN (parseFloat valRaw)) eqn:Hn; split.
    - discriminate.
    - intros [<- Hx]. congruence.
    - intros [= <-]. auto.
    - intros [<- _]. reflexivity. }
  destruct (find _ allIntro) as [f|] eqn:Hf.
  - destruct (IntroField.mapTo f) as [table|] eqn:Hm.
    + destruct (table !! valRaw) as [y|] eqn:Hy.
      * split.
        -- intros [= <-]. left. exists f, table. auto.
        -- intros [(f' & t' & Ef & Em & Hx) | (Hno & _)].
           ++ injection Ef as <-. rewrite Hm in Em. injection Em as <-. congruence.
           ++ specialize (Hno f table eq_refl Hm). congruence.
      * destruct (JsObject.is_inherited valRaw) eqn:Hi.
        -- split; [discriminate|].
           intros [(f' & t' & Ef & Em & Hx) | (_ & <- & Hx)].
           ++ injection Ef as <-. rewrite Hm in Em. injection Em as <-. congruence.
           ++ rewrite (parseFloat_inherited _ Hi) in Hx. discriminate.
        -- split.
           ++ intros Hx. apply Hparse in Hx. right. split; [|exact Hx].
              intros f' t' Ef Em. injection Ef as <-. rewrite Hm in Em.
              injection Em as <-. exact Hy.
           ++ intros [(f' & t' & Ef & Em & Hx) | (_ & Hx)].
              ** injection Ef as <-. rewrite Hm in Em. injection Em as <-. congruence.
              ** apply Hparse, Hx.
    + split.
      * intros Hx. apply Hparse in Hx. right. split; [|exact Hx].
        intros f' t' Ef Em. injection Ef as <-. congruence.
      * intros [(f' & t' & Ef & Em & Hx) | (_ & Hx)].
        -- injection Ef as <-. congruence.
        -- apply Hparse, Hx.
  - split.
    + intros Hx. apply Hparse in Hx. right. split; [|exact Hx]. intros f' t' Ef. discriminate.
    + intros [(f' & t' & Ef & _) | (_ & Hx)]; [discriminate | apply Hparse, Hx].
Qed.

(** How [shouldShowField] runs on a value that was typed and is not
    blank. *)
Lemma shouldShowField_run (field : IntroField.t) (si : FieldShowIf.t) (ivData : IvData)
    (allIntro : list IntroField.t) (valRaw : string) :
  IntroField.showIf field = Some si ->
  JsObject.get ivData (FieldShowIf.sourceField si) = Some valRaw ->
  trim valRaw <> "" ->
  shouldShowField field ivData allIntro
  = match numeric_of allIntro (FieldShowIf.sourceField si) valRaw with
    | Null => Some false
    | Num n =>
        match match_ge_rule (FieldShowIf.rule si) with
        | Some digits => Some (ge n (parseFloat digits))
        | None => Some true
        end
    | Member =>
        match match_ge_rule (FieldShowIf.rule si) with
        | Some _ => Some false
        | None => Some true
        end
    end.
Proof.
  intros Hsi Hv Hne. unfold shouldShowField, JsObject.read, JsObject.found.
  rewrite Hsi, Hv.
  apply truthy_true in Hne. rewrite Hne, (truthy_trim _ Hne). reflexivity.
Qed.

(** A value that is missing or blank hides the field. *)
Lemma shouldShowField_blank (field : IntroField.t) (si : FieldShowIf.t) (ivData : IvData)
    (allIntro : list IntroField.t) :
  IntroField.showIf field = Some si ->
  JsObject.read ivData (FieldShowIf.sourceField si) <> JsObject.Inherited ->
  trim (current_value ivData (FieldShowIf.sourceField si)) = "" ->
  shouldShowField field ivData allIntro = Some false.
Proof.
  intros Hsi Hread Hblank. unfold shouldShowField. rewrite Hsi.
  rewrite (read_not_inherited _ _ Hread). unfold current_value in Hblank.
  destruct (JsObject.get ivData (FieldShowIf.sourceField si)) as [v|]; [|reflexivity].
  cbn [default from_option id] in Hblank. apply truthy_false in Hblank.
  rewrite Hblank, orb_true_r. reflexivity.
Qed.

(** C3, as amended.  For an intro field whose showIf rule is of the form
    [>=N], and unless the name of the source field is one that objects
    inherit and nothing was typed under it, [shouldShowField] returns, and it
    returns true if and only if the source field has a value that is not
    blank (not empty after trimming) and that maps to a number, through the
    mapTo table of the source field or else by numeric parse, that is at
    least [N], as doubles compare.  A missing or blank value hides the
    field, and so does a value that is in no table and does not parse. *)
Theorem shouldShowField_ge_rule (field : IntroField.t) (si : FieldShowIf.t)
    (ivData : IvData) (allIntro : list IntroField.t) (n : N) :
  IntroField.showIf field = Some si ->
  is_ge_rule (FieldShowIf.rule si) n ->
  JsObject.read ivData (FieldShowIf.sourceField si) <> JsObject.Inherited ->
  exists shown,
    shouldShowField field ivData allIntro = Some shown
    /\ (shown = true
        <-> exists valRaw x,
             JsObject.get ivData (FieldShowIf.sourceField si) = Some valRaw
             /\ trim valRaw <> ""
             /\ maps_to_number allIntro (FieldShowIf.sourceField si) valRaw x
             /\ ge x (of_N n) = true)
    /\ (trim (current_value ivData (FieldShowIf.sourceField si)) = "" -> shown = false)
    /\ ((forall x, ~ maps_to_number allIntro (FieldShowIf.sourceField si)
                       (current_value ivData (FieldShowIf.sourceField si)) x)
        -> shown = false).
Proof.
  intros Hsi Hrule Hread.
  destruct (match_ge_rule_of_form _ _ Hrule) as (digits & Hm & Hp).
  destruct (JsObject.get ivData (FieldShowIf.sourceField si)) as [valRaw|] eqn:Hv.
  - destruct (String.eqb_spec (trim valRaw) "") as [Hblank|Hne].
    + exists false. split.
      { apply (shouldShowField_blank field si ivData allIntro Hsi Hread).
        unfold current_value. rewrite Hv. exact Hblank. }
      split; [|split; reflexivity].
      split; [discriminate|]. intros (v & x & [= <-] & Hne & _). contradiction.
    + pose proof (shouldShowField_run field si ivData allIntro valRaw Hsi Hv Hne) as Hrun.
      rewrite Hm, Hp in Hrun.
      pose proof (numeric_of_spec allIntro (FieldShowIf.sourceField si) valRaw) as Hnum.
      unfold current_value. rewrite Hv. cbn [default from_option id].
      destruct (numeric_of allIntro (FieldShowIf.sourceField si) valRaw) as [|y|] eqn:Hy.
      * exists false. split; [exact Hrun|]. split; [|split; reflexivity].
        split; [discriminate|].
        intros (v & x & [= <-] & _ & Hx & _). apply Hnum in Hx. discriminate.
      * exists (ge y (of_N n)). split; [exact Hrun|]. split; [|split].
        -- split.
           ++ intros Hge. exists valRaw, y. repeat split; try assumption.
              apply Hnum. reflexivity.
           ++ intros (v & x & [= <-] & _ & Hx & Hge). apply Hnum in Hx.
              injection Hx as ->. exact Hge.
        -- intros Hblank. contradiction.
        -- intros Hnone. exfalso. apply (Hnone y), Hnum. reflexivity.
      * exists false. split; [exact Hrun|]. split; [|split; reflexivity].
        split; [discriminate|].
        intros (v & x & [= <-] & _ & Hx & _). apply Hnum in Hx. discriminate.
  - exists false. split.
    { apply (shouldShowField_blank field si ivData allIntro Hsi Hread).
      unfold current_value. rewrite Hv. reflexivity. }
    split; [|split; reflexivity].
    split; [discriminate | intros (v & x & [=] & _)].
Qed.

(** A field shown when the answer "deux" maps to 2 and the rule is [>= 2]. *)
Lemma shouldShowField_ge_rule_witness :
  let src := {| IntroField.key := "iv_nb"; IntroField.label := "Nombre de circuits";
                IntroField.type := "select"; IntroField.options := Some ["un"; "deux"];
                IntroField.mapTo := Some {[ "un" := Fin 1 0; "deux" := Fin 2 0 ]};
                IntroField.showIf := None |} in
  let si := {| FieldShowIf.sourceField := "iv_nb"; FieldShowIf.rule := ">= 2" |} in
  let field := {| IntroField.key := "iv_c2"; IntroField.label := "Circuit 2";
                  IntroField.type := "text"; IntroField.options := None;
                  IntroField.mapTo := None; IntroField.showIf := Some si |} in
  shouldShowField field [("iv_nb", "deux")] [src; field] = Some true.
Proof.
  intros src si field.
  assert (Hrule : is_ge_rule (FieldShowIf.rule si) 2).
  { exists " ", "2". repeat split. discriminate. }
  destruct (shouldShowField_ge_rule field si [("iv_nb", "deux")] [src; field] 2
              eq_refl Hrule) as (shown & Hrun & Hiff & _); [discriminate|].
  rewrite Hrun. f_equal. apply Hiff. exists "deux", (Fin 2 0).
  split; [reflexivity|]. split; [discriminate|]. split; [|vm_compute; reflexivity].
  left. exists src, {[ "un" := Fin 1 0; "deux" := Fin 2 0 ]}. repeat split.
Defined.

(** C3, as stated, fails on a whitespace-only value that the table maps:
    the value " " is not empty and maps to 5, which is at least 2, and yet
    the field is hidden. *)
Lemma shouldShowField_blank_counterexample :
  let src := {| IntroField.key := "iv_nb"; IntroField.label := "Nombre de circuits";
                IntroField.type := "select"; IntroField.options := Some [" "];
                IntroField.mapTo := Some {[ " " := Fin 5 0 ]};
                IntroField.showIf := None |} in
  let si := {| FieldShowIf.sourceField := "iv_nb"; FieldShowIf.rule := ">=2" |} in
  let field := {| IntroField.key := "iv_c2"; IntroField.label := "Circuit 2";
                  IntroField.type := "text"; IntroField.options := None;
                  IntroField.mapTo := None; IntroField.showIf := Some si |} in
  let ivData : IvData := [("iv_nb", " ")] in
  is_ge_rule (FieldShowIf.rule si) 2
  /\ JsObject.get ivData "iv_nb" = Some " "
  /\ " " <> ""
  /\ maps_to_number [src; field] "iv_nb" " " (Fin 5 0)
  /\ ge (Fin 5 0) (of_N 2) = true
  /\ shouldShowField field ivData [src; field] = Some false.
Proof.
  intros src si field ivData.
  split; [exists "", "2"; repeat split; discriminate|].
  split; [reflexivity|]. split; [discriminate|].
  split; [left; exists src, {[ " " := Fin 5 0 ]}; repeat split|].
  split; [vm_compute; reflexivity | reflexivity].
Qed.

(** C10, as amended.  For an intro field whose showIf rule is not of the
    form [>=N], [shouldShowField] returns true whenever the source field has
    a value that is not blank (not empty after trimming) and that maps or
    parses to a number: a rule the code does not recognize shows the field. *)
Theorem shouldShowField_unrecognized_rule (field : IntroField.t) (si : FieldShowIf.t)
    (ivData : IvData) (allIntro : list IntroField.t) (valRaw : string) (x : number) :
  IntroField.showIf field = Some si ->
  (forall n, ~ is_ge_rule (FieldShowIf.rule si) n) ->
  JsObject.get ivData (FieldShowIf.sourceField si) = Some valRaw ->
  trim valRaw <> "" ->
  maps_to_number allIntro (FieldShowIf.sourceField si) valRaw x ->
  shouldShowField field ivData allIntro = Some true.
Proof.
  intros Hsi Hrule Hv Hne Hx.
  rewrite (shouldShowField_run field si ivData allIntro valRaw Hsi Hv Hne).
  apply numeric_of_spec in Hx. rewrite Hx.
  destruct (match_ge_rule (FieldShowIf.rule si)) as [digits|] eqn:Hm; [|reflexivity].
  exfalso. exact (Hrule _ (match_ge_rule_form _ _ Hm)).
Qed.

(** A rule that misses the pattern, [<=2], reads as "always": the answer 3
    shows the field. *)
Lemma shouldShowField_unrecognized_rule_witness :
  let si := {| FieldShowIf.sourceField := "iv_nb"; FieldShowIf.rule := "<=2" |} in
  let field := {| IntroField.key := "iv_c2"; IntroField.label := "Circuit 2";
                  IntroField.type := "text"; IntroField.options := None;
                  IntroField.mapTo := None; IntroField.showIf := Some si |} in
  shouldShowField field [("iv_nb", "3")] [field] = Some true.
Proof.
  intros si field.
  apply (shouldShowField_unrecognized_rule field si [("iv_nb", "3")] [field] "3" (Fin 3 0)).
  - reflexivity.
  - intros n (ws & digits & _ & _ & _ & Hrule & _). discriminate Hrule.
  - reflexivity.
  - discriminate.
  - right. split; [|split; reflexivity]. intros f table [=].
Defined.

(** C10, as stated, fails on a whitespace-only value that the table maps:
    the rule is not of the form [>=N], the value " " is not empty and maps
    to 5, and yet the field is hidden. *)
Lemma shouldShowField_unrecognized_blank_counterexample :
  let src := {| IntroField.key := "iv_nb"; IntroField.label := "Nombre de circuits";
                IntroField.type := "select"; IntroField.options := Some [" "];
                IntroField.mapTo := Some {[ " " := Fin 5 0 ]};
                IntroField.showIf := None |} in
  let si := {| FieldShowIf.sourceField := "iv_nb"; FieldShowIf.rule := "toujours" |} in
  let field := {| IntroField.key := "iv_c2"; IntroField.label := "Circuit 2";
                  IntroField.type := "text"; IntroField.options := None;
                  IntroField.mapTo := None; IntroField.showIf := Some si |} in
  let ivData : IvData := [("iv_nb", " ")] in
  (forall n, ~ is_ge_rule (FieldShowIf.rule si) n)
  /\ JsObject.get ivData "iv_nb" = Some " "
  /\ " " <> ""
  /\ maps_to_number [src; field] "iv_nb" " " (Fin 5 0)
  /\ shouldShowField field ivData [src; field] = Some false.
Proof.
  intros src si field ivData.
  split; [intros n (ws & digits & _ & _ & _ & Hrule & _); discriminate Hrule|].
  split; [reflexivity|]. split; [discriminate|].
  split; [left; exists src, {[ " " := Fin 5 0 ]}; repeat split|].
  reflexivity.
Qed.

End VisibilityFacts.

(** ** URL encoding read back *)

Module UrlFacts.

Import JsString Url JsStringFacts.












Lemma cut_at_app (sep : ascii) (a b : string) :
  all_chars (other_than sep) a = true -> cut_at sep (a +:+ String sep b) = (a, b).
Proof.
  induction a as [|c a IH]; intros H.
  - change (cut_at sep (String sep b) = ("", b)). simpl. rewrite Ascii.eqb_refl. reflexivity.
  - simpl in H. apply andb_true_iff in H as [Hc Ha]. unfold other_than in Hc.
    apply negb_true_iff in Hc.
    change (cut_at sep (String c (a +:+ String sep b)) = (String c a, b)).
    simpl. rewrite Hc, (IH Ha). reflexivity.
Qed.





End UrlFacts.

(** ** The WhatsApp link of the generator *)

Module LinkFacts.

Import JsString Url Generateur JsStringFacts.

Lemma usp_get_filter_ne (params : URLSearchParams) (name other : string) :
  name <> other ->
  usp_get (List.filter (fun nv => negb (String.eqb (fst nv) name)) params) other
  = usp_get params other.
Proof.
  intros Hne. unfold usp_get.
  induction params as [|[n v] params IH]; [reflexivity|].
  cbn [List.filter fst JsObject.get].
  destruct (String.eqb n name) eqn:E; cbn [negb JsObject.get].
  - apply String.eqb_eq in E. subst n.
    apply String.eqb_neq in Hne. rewrite Hne. exact IH.
  - rewrite IH. reflexivity.
Qed.

Lemma usp_get_set_eq (params : URLSearchParams) (name value : string) :
  usp_get (usp_set params name value) name = Some value.
Proof.
  unfold usp_get. induction params as [|[n v] params IH]; simpl.
  - rewrite String.eqb_refl. reflexivity.
  - destruct (String.eqb n name) eqn:E; simpl.
    + rewrite String.eqb_refl. reflexivity.
    + rewrite E. exact IH.
Qed.

Lemma usp_get_set_ne (params : URLSearchParams) (name value other : string) :
  name <> other ->
  usp_get (usp_set params name value) other = usp_get params other.
Proof.
  intros Hne. pose proof Hne as Hneb. apply String.eqb_neq in Hneb.
  induction params as [|[n v] params IH]; simpl.
  - unfold usp_get. simpl. rewrite Hneb. reflexivity.
  - destruct (String.eqb n name) eqn:E.
    + apply String.eqb_eq in E. subst n.
      change (usp_get ((name, value) :: List.filter (fun nv => negb (String.eqb (fst nv) name)) params) other
              = usp_get ((name, v) :: params) other).
      unfold usp_get at 1 2. cbn [JsObject.get]. rewrite Hneb.
      apply (usp_get_filter_ne params name other Hne).
    + unfold usp_get in *. cbn [JsObject.get].
      destruct (String.eqb n other); [reflexivity | exact IH].
Qed.

Lemma iv_fold_other (iv : IvData) (params : URLSearchParams) (k : string) :
  ~ In k (map fst iv) ->
  usp_get (fold_left iv_step iv params) k = usp_get params k.
Proof.
  revert params. induction iv as [|[k' v'] iv IH]; intros params Hk; simpl in *.
  - reflexivity.
  - rewrite IH by tauto. unfold iv_step. simpl.
    destruct (truthy v' && truthy (trim v')); [|reflexivity].
    apply usp_get_set_ne. tauto.
Qed.

Lemma iv_fold_in (iv : IvData) (params : URLSearchParams) (k v : string) :
  NoDup (map fst iv) -> In (k, v) iv ->
  usp_get (fold_left iv_step iv params) k
  = if truthy (trim v) then Some (trim v) else usp_get params k.
Proof.
  revert params. induction iv as [|[k' v'] iv IH]; intros params Hnd Hin; simpl in *.
  - contradiction.
  - apply NoDup_cons in Hnd as [Hk' Hnd].
    rewrite list_elem_of_In in Hk'.
    destruct Hin as [[= -> ->] | Hin].
    + rewrite iv_fold_other by assumption. unfold iv_step. simpl.
      destruct (truthy (trim v)) eqn:Ht.
      * rewrite (truthy_trim _ Ht). simpl. apply usp_get_set_eq.
      * rewrite andb_false_r. reflexivity.
    + rewrite (IH _ Hnd Hin).
      destruct (truthy (trim v)); [reflexivity|].
      unfold iv_step. simpl.
      destruct (truthy v' && truthy (trim v')); [|reflexivity].
      apply usp_get_set_ne. intros ->. apply Hk'.
      apply (in_map fst) in Hin. exact Hin.
Qed.


Section Engine.

Variable toLowerCase : string -> string.



End Engine.



End LinkFacts.

(** ** The aggregation of the photos of a chantier *)

Module AggregationFacts.

Import JsString SavDetail JsStringFacts.

Lemma suffixed_inj composite j k : suffixed composite j = suffixed composite k -> j = k.
Proof.
  unfold suffixed. intros H.
  apply (inj (String.app composite)) in H.
  apply (inj (String.app "__")) in H.
  apply (inj pretty) in H. exact H.
Qed.

Lemma suffixed_ne composite k : suffixed composite k <> composite.
Proof.
  unfold suffixed. intros H.
  assert (E : composite +:+ "__" +:+ pretty k = composite +:+ "").
  { rewrite H. clear H. induction composite as [|c s IH]; [reflexivity|].
    change (String c s = String c (s +:+ "")). f_equal. exact IH. }
  apply (inj (String.app composite)) in E. discriminate E.
Qed.

(** The collision loop ends within its fuel: the ids it finds taken are
    distinct keys of the map, all in the set [taken]. *)
Lemma collision_loop_fuel (idMap : gmap string Origin.t) (composite : string) :
  forall (fuel : nat) (finalId : string) (k : nat) (taken : gset string),
    size taken <= fuel ->
    (idMap !! finalId <> None -> finalId ∈ taken) ->
    (forall j, k <= j -> idMap !! suffixed composite j <> None -> suffixed composite j ∈ taken) ->
    (forall j, k <= j -> suffixed composite j <> finalId) ->
    exists r, collision_loop idMap composite finalId k fuel = Some r
              /\ idMap !! r = None
              /\ (r = finalId \/ exists j, k <= j /\ r = suffixed composite j).
Proof.
  induction fuel as [|fuel IH]; intros finalId k taken Hsize Hfinal Hrest Hfresh;
    simpl; destruct (idMap !! finalId) as [o|] eqn:Hlook;
    try (exists finalId; split; [reflexivity | split; [exact Hlook | left; reflexivity]]).
  - assert (Hin : finalId ∈ taken) by (apply Hfinal; discriminate).
    assert (Hempty : taken = ∅) by (apply leibniz_equiv, size_empty_iff; lia).
    rewrite Hempty in Hin. set_solver.
  - assert (Hin : finalId ∈ taken) by (apply Hfinal; discriminate).
    destruct (IH (suffixed composite k) (S k) (taken ∖ {[finalId]})) as (r & Hr & Hnone & Hshape).
    + assert (Hsz : size (taken ∖ {[finalId]}) = size taken - size ({[finalId]} : gset string)).
      { apply size_difference. set_solver. }
      rewrite size_singleton in Hsz. 
      assert (size taken <> 0).
      { intros H0. apply size_empty_iff in H0. set_solver. }
      lia.
    + intros Hk. apply elem_of_difference. split.
      * apply (Hrest k); [lia | exact Hk].
      * rewrite elem_of_singleton. apply Hfresh. lia.
    + intros j Hj Hk. apply elem_of_difference. split.
      * apply (Hrest j); [lia | exact Hk].
      * rewrite elem_of_singleton. apply Hfresh. lia.
    + intros j Hj E. apply suffixed_inj in E. lia.
    + exists r. split; [exact Hr|]. split; [exact Hnone|]. right.
      destruct Hshape as [-> | (j & Hj & ->)]; [exists k | exists j]; split; auto; lia.
Qed.

(** The search for a free id always succeeds, gives an id that is not in
    the map, of the expected shape, and gives the composite when it is free. *)
Lemma collision_loop_total (idMap : gmap string Origin.t) (composite : string) :
  exists r, collision_loop idMap composite composite 2 (size idMap) = Some r
            /\ idMap !! r = None
            /\ (r = composite \/ exists k, 2 <= k /\ r = suffixed composite k)
            /\ (idMap !! composite = None -> r = composite).
Proof.
  destruct (collision_loop_fuel idMap composite (size idMap) composite 2 (dom idMap))
    as (r & Hr & Hnone & Hshape).
  - rewrite size_dom. lia.
  - intros H. apply elem_of_dom. destruct (idMap !! composite); [eauto | congruence].
  - intros j _ H. apply elem_of_dom. destruct (idMap !! suffixed composite j); [eauto | congruence].
  - intros j _. apply suffixed_ne.
  - exists r. repeat split; try assumption.
    intros Hfree. destruct (size idMap); simpl in Hr; rewrite Hfree in Hr; congruence.
Qed.

Lemma invariant_empty :
  invariant {| Aggregated.photos := []; Aggregated.idMap := ∅ |} [].
Proof.
  split; simpl.
  - constructor.
  - constructor.
  - intros out [].
  - intros i H. rewrite lookup_empty in H. congruence.
  - reflexivity.
Qed.

Lemma add_photo_invariant (sid : string) (p : SessionPhoto.t) (acc : Aggregated.t)
    (os : list (string * SessionPhoto.t)) :
  sid <> "" -> SessionPhoto.id p <> "" -> invariant acc os ->
  exists acc', add_photo sid acc p = Some acc' /\ invariant acc' (os ++ [(sid, p)]).
Proof.
  intros Hsid Hpid [Hent Hnd Hback Hdom Hexact].
  unfold add_photo.
  apply truthy_true in Hsid, Hpid. rewrite Hsid, Hpid. simpl.
  destruct (collision_loop_total (Aggregated.idMap acc) (sid +:+ "__" +:+ SessionPhoto.id p))
    as (r & -> & Hnone & Hshape & Hfree).
  eexists. split; [reflexivity|].
  assert (Hnew : ~ In r (map SessionPhoto.id (Aggregated.photos acc))).
  { intros Hin. apply in_map_iff in Hin as (out & <- & Hout).
    destruct (Hback out Hout) as (o & Ho & _). congruence. }
  split; simpl.
  - apply Forall2_app; [exact Hent|]. constructor; [|constructor].
    unfold entry_of, composite_of. simpl. repeat split; try reflexivity. exact Hshape.
  - rewrite map_app. simpl. apply NoDup_app. split; [exact Hnd|]. split.
    + intros x Hx Hx'. apply list_elem_of_In in Hx. apply list_elem_of_singleton in Hx'.
      subst x. exact (Hnew Hx).
    + apply NoDup_singleton.
  - intros out Hout. apply in_app_or in Hout as [Hout | [<- | []]].
    + destruct (Hback out Hout) as (o & Ho & Hs & Hp). exists o.
      split; [|split; assumption].
      rewrite lookup_insert_ne; [exact Ho|].
      intros ->. congruence.
    + eexists. split; [simpl; apply lookup_insert_eq|]. split; reflexivity.
  - intros i Hi. rewrite map_app. apply in_or_app.
    destruct (decide (r = i)) as [<- | Hne].
    + right. left. reflexivity.
    + left. apply Hdom. rewrite lookup_insert_ne in Hi by assumption. exact Hi.
  - rewrite !map_app. simpl. intros Hnd'.
    apply NoDup_app in Hnd' as (Hnd1 & Hfresh & _).
    rewrite (Hexact Hnd1). f_equal. f_equal.
    apply Hfree.
    destruct (Aggregated.idMap acc !! (sid +:+ "__" +:+ SessionPhoto.id p)) eqn:Hl;
      [|reflexivity].
    exfalso. assert (Hin : In (sid +:+ "__" +:+ SessionPhoto.id p)
                              (map SessionPhoto.id (Aggregated.photos acc))).
    { apply Hdom. congruence. }
    rewrite (Hexact Hnd1) in Hin. apply list_elem_of_In in Hin.
    apply (Hfresh _ Hin). apply list_elem_of_singleton. reflexivity.
Qed.

Lemma add_photos_invariant (sid : string) (photos : list SessionPhoto.t) :
  sid <> "" -> (forall p, In p photos -> SessionPhoto.id p <> "") ->
  forall acc os, invariant acc os ->
  exists acc', add_photos sid photos acc = Some acc'
               /\ invariant acc' (os ++ map (fun p => (sid, p)) photos).
Proof.
  intros Hsid. induction photos as [|p photos IH]; intros Hpids acc os Hinv; simpl.
  - exists acc. rewrite app_nil_r. auto.
  - destruct (add_photo_invariant sid p acc os Hsid (Hpids p (or_introl eq_refl)) Hinv)
      as (acc1 & -> & Hinv1).
    destruct (IH (fun q Hq => Hpids q (or_intror Hq)) acc1 _ Hinv1) as (acc2 & Hrun & Hinv2).
    exists acc2. split; [exact Hrun|]. rewrite <- app_assoc in Hinv2. exact Hinv2.
Qed.

Lemma add_sessions_invariant (sessions : list SessionDetail.t) :
  (forall s, In s sessions ->
     SessionDetail.session_id s <> ""
     /\ forall p, In p (SessionDetail.photos s) -> SessionPhoto.id p <> "") ->
  forall acc os, invariant acc os ->
  exists acc', add_sessions sessions acc = Some acc' /\ invariant acc' (os ++ origins sessions).
Proof.
  induction sessions as [|s sessions IH]; intros Hok acc os Hinv; simpl.
  - exists acc. unfold origins. simpl. rewrite app_nil_r. auto.
  - destruct (Hok s (or_introl eq_refl)) as (Hsid & Hpids).
    destruct (add_photos_invariant _ _ Hsid Hpids acc os Hinv) as (acc1 & -> & Hinv1).
    destruct (IH (fun q Hq => Hok q (or_intror Hq)) acc1 _ Hinv1) as (acc2 & Hrun & Hinv2).
    exists acc2. split; [exact Hrun|].
    unfold origins in *. simpl. rewrite <- app_assoc in Hinv2. exact Hinv2.
Qed.

Lemma insert_sorted_Permutation {A} (cmp : A -> A -> Z) (x : A) (l : list A) :
  insert_sorted cmp x l ≡ₚ x :: l.
Proof.
  induction l as [|y l IH]; simpl; [reflexivity|].
  destruct (cmp x y <=? 0)%Z; [reflexivity|].
  rewrite IH. apply Permutation_swap.
Qed.

(** Sorting keeps every session, once. *)
Lemma sort_Permutation {A} (cmp : A -> A -> Z) (l : list A) : sort cmp l ≡ₚ l.
Proof.
  induction l as [|x l IH]; simpl; [reflexivity|].
  unfold sort in *. simpl. rewrite insert_sorted_Permutation, IH. reflexivity.
Qed.





End AggregationFacts.

(** ** Notes *)

Module NoteFacts.

Import JsString Http SavDetail JsStringFacts.

Lemma cleanedPhotos_single (pid : string) : pid <> "" -> cleanedPhotos [pid] = [pid].
Proof.
  intros H. apply truthy_true in H. unfold cleanedPhotos. simpl. rewrite H. reflexivity.
Qed.

Lemma truthy_id_None (x : option string) :
  truthy_id x = None <-> x = None \/ x = Some "".
Proof.
  destruct x as [[|c s]|]; simpl; split; try tauto; try discriminate; auto.
  intros [H | H]; discriminate H.
Qed.

Lemma existsb_id_In (a : string) (notes : list SavNote.t) :
  existsb (fun n => String.eqb (SavNote.id n) a) notes = true
  <-> In a (map SavNote.id notes).
Proof.
  induction notes as [|n notes IH]; simpl.
  - split; [discriminate | tauto].
  - rewrite orb_true_iff, IH, String.eqb_eq. tauto.
Qed.

Lemma existsb_string_In (x : string) (l : list string) :
  existsb (String.eqb x) l = true <-> In x l.
Proof.
  induction l as [|a l IH]; simpl; [split; [discriminate | tauto]|].
  rewrite orb_true_iff, IH, String.eqb_eq. intuition congruence.
Qed.

Lemma dedup_first_In (seen xs : list string) (x : string) :
  In x (dedup_first seen xs) <-> In x xs /\ ~ In x seen.
Proof.
  revert seen. induction xs as [|a xs IH]; intros seen; simpl; [tauto|].
  destruct (existsb (String.eqb a) seen) eqn:E.
  - apply existsb_string_In in E. rewrite IH. split; [tauto|].
    intros [[<- | H] Hn]; [contradiction | tauto].
  - assert (Ha : ~ In a seen) by (rewrite <- existsb_string_In; congruence).
    simpl. rewrite IH. simpl.
    destruct (String.eqb_spec a x) as [->|Hne]; [tauto|]. intuition congruence.
Qed.

Lemma dedup_first_NoDup (seen xs : list string) : NoDup (dedup_first seen xs).
Proof.
  revert seen. induction xs as [|a xs IH]; intros seen; simpl; [apply NoDup_nil_2|].
  destruct (existsb (String.eqb a) seen); [apply IH|].
  apply NoDup_cons_2; [|apply IH].
  rewrite list_elem_of_In, dedup_first_In. simpl. tauto.
Qed.

(** The linked photo ids of a saved note: those of the editor, in their
    order, without the empty ones and without repetition. *)
Lemma cleanedPhotos_spec (notePhotos : list string) :
  NoDup (cleanedPhotos notePhotos)
  /\ (forall x, In x (cleanedPhotos notePhotos) <-> In x notePhotos /\ x <> "").
Proof.
  unfold cleanedPhotos. split; [apply dedup_first_NoDup|].
  intros x. rewrite dedup_first_In, filter_In, truthy_true. simpl. tauto.
Qed.

Lemma NoDup_ids_cons (n : SavNote.t) (notes : list SavNote.t) :
  NoDup (map SavNote.id (n :: notes))
  <-> NoDup (map SavNote.id notes) /\ ~ In (SavNote.id n) (map SavNote.id notes).
Proof.
  cbn [map]. rewrite NoDup_cons, list_elem_of_In. tauto.
Qed.

(** C5, as amended.  (1) When the note text is empty or whitespace-only,
    [upsertNote] changes nothing but the toast, which signals the error: no
    note is created or modified.  When the text is not blank, the photo ids
    written are the linked ones without empty or repeated values (exactly
    [pid] for one linked photo), and: (2) if no note is being edited,
    exactly one entry is added, in front, with the id [uid] generates, the
    trimmed text and these photo ids; nothing checks that id against the
    list, and the ids of the notes are pairwise distinct afterwards exactly
    when they were before and the generated id was not in use; (3) if the
    note being edited is not in the list, exactly one entry is added, in
    front, under that id, which no other note has; (4) if the note being
    edited is in the list, no entry is added: the notes keep their number,
    order and ids, and the notes of that id take the text and the photo
    ids. *)
Theorem upsertNote_spec (clock : Clock.t) (st : Page.t) :
  let st' := upsertNote clock st in
  (trim (Page.noteText st) = "" ->
     Page.notes st' = Page.notes st
     /\ st' = Page.setToast st (Page.toast st')
     /\ exists msg, Page.toast st' = Some {| type := error; message := msg |})
  /\ (trim (Page.noteText st) <> "" ->
      (exists msg, Page.toast st' = Some {| type := success; message := msg |})
      /\ (NoDup (cleanedPhotos (Page.notePhotos st))
          /\ (forall x, In x (cleanedPhotos (Page.notePhotos st))
                        <-> In x (Page.notePhotos st) /\ x <> "")
          /\ (forall pid, pid <> "" -> Page.notePhotos st = [pid] ->
                cleanedPhotos (Page.notePhotos st) = [pid]))
      /\ (truthy_id (Page.activeNoteId st) = None ->
            exists n, Page.notes st' = n :: Page.notes st
                      /\ SavNote.id n = uid "note" clock
                      /\ written clock st n
                      /\ Page.activeNoteId st' = Some (uid "note" clock)
                      /\ (NoDup (map SavNote.id (Page.notes st'))
                          <-> NoDup (map SavNote.id (Page.notes st))
                              /\ ~ In (uid "note" clock) (map SavNote.id (Page.notes st))))
      /\ (forall a, truthy_id (Page.activeNoteId st) = Some a ->
            ~ In a (map SavNote.id (Page.notes st)) ->
            exists n, Page.notes st' = n :: Page.notes st
                      /\ SavNote.id n = a
                      /\ written clock st n
                      /\ forall m, In m (Page.notes st) -> SavNote.id m <> SavNote.id n)
      /\ (forall a, truthy_id (Page.activeNoteId st) = Some a ->
            In a (map SavNote.id (Page.notes st)) ->
            length (Page.notes st') = length (Page.notes st)
            /\ map SavNote.id (Page.notes st') = map SavNote.id (Page.notes st)
            /\ forall n, In n (Page.notes st') ->
                 (SavNote.id n = a -> written clock st n)
                 /\ (SavNote.id n <> a -> In n (Page.notes st)))).
Proof.
  intros st'. subst st'. unfold upsertNote. rewrite or_else_empty_r.
  assert (Hphotos : NoDup (cleanedPhotos (Page.notePhotos st))
          /\ (forall x, In x (cleanedPhotos (Page.notePhotos st))
                        <-> In x (Page.notePhotos st) /\ x <> "")
          /\ (forall pid, pid <> "" -> Page.notePhotos st = [pid] ->
                cleanedPhotos (Page.notePhotos st) = [pid])).
  { split; [apply cleanedPhotos_spec|]. split; [apply cleanedPhotos_spec|].
    intros pid Hpid ->. apply cleanedPhotos_single, Hpid. }
  split.
  - intros Hblank. rewrite Hblank. simpl. repeat split. eauto.
  - intros Htext. apply truthy_true in Htext. rewrite Htext. simpl.
    destruct (truthy_id (Page.activeNoteId st)) as [a|] eqn:Hact.
    + destruct (existsb (fun n => String.eqb (SavNote.id n) a) (Page.notes st)) eqn:Hex;
        simpl.
      * (* the note exists: update in place *)
        apply existsb_id_In in Hex.
        split; [eauto|]. split; [exact Hphotos|].
        split; [discriminate|]. split.
        { intros a' [= <-] Hnot. contradiction. }
        intros a' [= <-] _. split; [apply length_map|]. split.
        { rewrite map_map. apply map_ext. intros n. destruct (String.eqb _ _); reflexivity. }
        intros n Hn. apply in_map_iff in Hn as (m & <- & Hm).
        destruct (String.eqb (SavNote.id m) a) eqn:E; simpl.
        -- split; [intros _; repeat split | intros Hne].
           apply String.eqb_eq in E. congruence.
        -- split; [intros Heq | intros _; exact Hm].
           apply String.eqb_neq in E. congruence.
      * (* the note is not in the list: create it under that id *)
        assert (Hnot : ~ In a (map SavNote.id (Page.notes st))).
        { intros Hin. apply existsb_id_In in Hin. congruence. }
        split; [eauto|]. split; [exact Hphotos|].
        split; [discriminate|]. split.
        { intros a' [= <-] _. eexists. split; [reflexivity|].
          split; [reflexivity|]. split; [repeat split|].
          intros m Hm E. apply Hnot. simpl in E. rewrite <- E.
          apply in_map, Hm. }
        intros a' [= <-] Hin. contradiction.
    + (* no note is being edited: create one under a generated id *)
      split; [eauto|]. split; [exact Hphotos|].
      split.
      { intros _. eexists. split; [reflexivity|].
        split; [reflexivity|]. split; [repeat split|]. split; [reflexivity|].
        apply NoDup_ids_cons. }
      split; intros a [=].
Qed.

(** A first note with one linked photo: one entry, with the generated id,
    the trimmed text and that photo id, and the ids are distinct. *)
Lemma upsertNote_spec_witness :
  let nbsp := String (ascii_of_nat 194) (String (ascii_of_nat 160) "") in
  let clock := {| Clock.now_ms := 1700000000123; Clock.uid_random_hex := "8f3a2c";
                  Clock.uid_now_ms := 1700000000124 |} in
  let st := {| Page.key := "s1"; Page.loadedSessionId := "s1"; Page.detail := None;
               Page.chantier := None;
               Page.chantierMeta := {| ChantierMeta.kind := None;
                                       ChantierMeta.chantier_id := None;
                                       ChantierMeta.session_count := 0;
                                       ChantierMeta.session_ids := [] |};
               Page.includeMap := ∅; Page.author := "Xavier PERGE";
               Page.publishing := false; Page.toast := None; Page.notes := [];
               Page.activeNoteId := None;
               Page.noteText := "  Purger le circuit" +:+ nbsp;
               Page.notePhotos := ["s1__p1"]; Page.selectedAssetId := None |} in
  exists n, Page.notes (upsertNote clock st) = [n]
            /\ SavNote.id n = "note_8f3a2c_18bcfe5687c"
            /\ SavNote.text n = "Purger le circuit"
            /\ SavNote.photo_ids n = ["s1__p1"]
            /\ NoDup (map SavNote.id (Page.notes (upsertNote clock st))).
Proof.
  intros nbsp clock st.
  destruct (upsertNote_spec clock st) as (_ & Hsave).
  destruct Hsave as (_ & (_ & _ & Hphotos) & Hnew & _); [discriminate|].
  destruct (Hnew eq_refl) as (n & Hnotes & Hid & (Htext & Hpids & _) & _ & Hnd).
  exists n. split; [exact Hnotes|]. split; [exact Hid|]. split; [exact Htext|].
  split; [rewrite Hpids; apply (Hphotos "s1__p1"); [discriminate | reflexivity]|].
  apply Hnd. split; [apply NoDup_nil_2 | intros []].
Defined.

(** C5, as stated, fails when the generated id is already in use: no note
    is being edited, the text is not empty, one photo id is linked, one
    entry is added, and its id is the id of the note that was there. *)
Lemma upsertNote_collision_counterexample :
  let clock := {| Clock.now_ms := 1700000000123; Clock.uid_random_hex := "8f3a2c";
                  Clock.uid_now_ms := 1700000000124 |} in
  let old := {| SavNote.id := "note_8f3a2c_18bcfe5687c"; SavNote.title := None;
                SavNote.text := "Ancien texte";
                SavNote.photo_ids := []; SavNote.assets := Some [];
                SavNote.updated_at := Some 1700000000%N;
                SavNote.created_at := Some 1700000000%N |} in
  let st := {| Page.key := "s1"; Page.loadedSessionId := "s1"; Page.detail := None;
               Page.chantier := None;
               Page.chantierMeta := {| ChantierMeta.kind := None;
                                       ChantierMeta.chantier_id := None;
                                       ChantierMeta.session_count := 0;
                                       ChantierMeta.session_ids := [] |};
               Page.includeMap := ∅; Page.author := "Xavier PERGE";
               Page.publishing := false; Page.toast := None; Page.notes := [old];
               Page.activeNoteId := None; Page.noteText := "Purger le circuit";
               Page.notePhotos := ["s1__p1"]; Page.selectedAssetId := None |} in
  trim (Page.noteText st) <> ""
  /\ Page.notePhotos st = ["s1__p1"]
  /\ Page.activeNoteId st = None
  /\ (exists n, Page.notes (upsertNote clock st) = [n; old]
                /\ SavNote.id n = SavNote.id old
                /\ SavNote.text n = "Purger le circuit"
                /\ SavNote.photo_ids n = ["s1__p1"])
  /\ ~ NoDup (map SavNote.id (Page.notes (upsertNote clock st))).
Proof.
  intros clock old st.
  split; [discriminate|]. split; [reflexivity|]. split; [reflexivity|].
  split; [eexists; repeat split|].
  intros H. change (NoDup ["note_8f3a2c_18bcfe5687c"; "note_8f3a2c_18bcfe5687c"]) in H.
  apply NoDup_cons in H as [H _]. apply H. left.
Qed.

End NoteFacts.

(** ** Publishing and the best-effort notification *)

Module PublishFacts.

Import JsString Json Http.

Lemma chantier_notify_log_only_logs n : only_logs (SavDetail.chantier_notify_log n).
Proof.
  unfold only_logs, SavDetail.chantier_notify_log.
  destruct n as [r|m]; [destruct (negb (ok r)); [destruct (text r)|]|];
    repeat constructor; eauto.
Qed.

Lemma session_notify_log_only_logs n : only_logs (SavDetail.session_notify_log n).
Proof.
  unfold only_logs, SavDetail.session_notify_log.
  destruct n; repeat constructor; eauto.
Qed.

(** C6.  Once the publish request has succeeded (the response is ok and its
    body parses), the outcome of the notification webhook, whatever it is
    (a rejected fetch, a status that is not ok, a body that cannot be
    read), changes nothing of the result: the success toast is shown, the
    publishing flag is released, the local state holds what the server
    answered, and after the notification request nothing is sent, only
    logged.  This holds for the chantier publish and the session publish of
    the detail page, and for the publish of the first session page. *)
Theorem publish_survives_notification_failure :
  (* the chantier publish of the detail page *)
  (forall (st : SavDetail.Page.t) (d : SavDetail.SessionDetail.t) (cid : string)
          (res : response value) (data : value)
          (sp : outcome (response SavDetail.SessionDetail.t))
          (notify : outcome (response unit)),
      SavDetail.Page.detail st = Some d ->
      SavDetail.isChantierMode st = true ->
      SavDetail.ChantierMeta.chantier_id (SavDetail.Page.chantierMeta st) = Some cid ->
      ok res = true -> json res = Resolved data ->
      let env := {| SavDetail.PublishEnv.chantier_publish := Resolved res;
                    SavDetail.PublishEnv.session_publish := sp;
                    SavDetail.PublishEnv.notify := notify |} in
      let st' := fst (SavDetail.handlePublish env st) in
      let evs := snd (SavDetail.handlePublish env st) in
      SavDetail.Page.toast st'
        = Some {| type := success; message := "Rapport chantier publié." |}
      /\ SavDetail.Page.publishing st' = false
      /\ SavDetail.Page.chantier st'
         = Some (SavDetail.published_chantier (SavDetail.Page.chantier st) data)
      /\ SavDetail.Page.detail st' = Some (SavDetail.mark_published d)
      /\ exists publish notification logs,
           evs = Fetch publish :: Fetch notification :: logs
           /\ to publish = Api /\ to notification = Webhook /\ only_logs logs)
  (* the session publish of the detail page *)
  /\ (forall (st : SavDetail.Page.t) (d updated : SavDetail.SessionDetail.t)
             (res : response SavDetail.SessionDetail.t)
             (cp : outcome (response value)) (notify : outcome (response unit)),
      SavDetail.Page.detail st = Some d ->
      SavDetail.isChantierMode st = false ->
      SavDetail.isMultiSessionChantier st = false ->
      SavDetail.effectiveSessionId st <> "" ->
      SavDetail.included_photos st d <> [] ->
      ok res = true -> json res = Resolved updated ->
      let env := {| SavDetail.PublishEnv.chantier_publish := cp;
                    SavDetail.PublishEnv.session_publish := Resolved res;
                    SavDetail.PublishEnv.notify := notify |} in
      let st' := fst (SavDetail.handlePublish env st) in
      let evs := snd (SavDetail.handlePublish env st) in
      SavDetail.Page.toast st' = Some {| type := success; message := "Rapport publié." |}
      /\ SavDetail.Page.publishing st' = false
      /\ SavDetail.Page.detail st' = Some updated
      /\ exists publish notification logs,
           evs = Fetch publish :: Fetch notification :: logs
           /\ to publish = Api /\ to notification = Webhook /\ only_logs logs)
  (* the publish of the first session page *)
  /\ (forall (st : SavSession.Page.t) (d updated : SavSession.SessionDetail.t)
             (res : response SavSession.SessionDetail.t) (notify : outcome (response unit)),
      SavSession.Page.detail st = Some d ->
      SavSession.Page.sessionId st <> "" ->
      SavSession.SessionDetail.photos d <> [] ->
      ok res = true -> json res = Resolved updated ->
      let env := {| SavSession.PublishEnv.publish := Resolved res;
                    SavSession.PublishEnv.notify := notify |} in
      let st' := fst (SavSession.handlePublish env st) in
      let evs := snd (SavSession.handlePublish env st) in
      SavSession.Page.toast st'
        = Some {| type := success;
                  message := "Diagnostic publié et envoyé à l’installateur." |}
      /\ SavSession.Page.publishing st' = false
      /\ SavSession.Page.detail st' = Some updated
      /\ exists publish notification logs,
           evs = Fetch publish :: Fetch notification :: logs
           /\ to publish = Api /\ to notification = Webhook /\ only_logs logs).
Proof.
  split; [|split].
  - intros st d cid res data sp notify Hd Hmode Hcid Hok Hjson env st' evs.
    subst st' evs env. unfold SavDetail.handlePublish. rewrite Hd, Hmode, Hcid. simpl.
    assert (Ht : truthy cid = true).
    { unfold SavDetail.isChantierMode in Hmode. rewrite Hcid in Hmode.
      destruct (SavDetail.ChantierMeta.kind _) as [[]|]; congruence. }
    rewrite Ht, Hok, Hjson. simpl. rewrite Hd. simpl.
    repeat split.
    eexists _, _, _. split; [reflexivity|]. repeat split.
    apply chantier_notify_log_only_logs.
  - intros st d updated res cp notify Hd Hmode Hmulti Hsid Hincl Hok Hjson env st' evs.
    subst st' evs env. unfold SavDetail.handlePublish. rewrite Hd, Hmode, Hmulti.
    apply JsStringFacts.truthy_true in Hsid. rewrite Hsid. simpl.
    destruct (SavDetail.included_photos st d) as [|p ps] eqn:Hi; [congruence|].
    simpl. rewrite Hok, Hjson. simpl.
    repeat split.
    eexists _, _, _. split; [reflexivity|]. repeat split.
    apply session_notify_log_only_logs.
  - intros st d updated res notify Hd Hsid Hphotos Hok Hjson env st' evs.
    subst st' evs env. unfold SavSession.handlePublish. rewrite Hd.
    apply JsStringFacts.truthy_true in Hsid. rewrite Hsid. simpl.
    destruct (SavSession.SessionDetail.photos d) as [|p ps] eqn:Hp; [congruence|].
    simpl. rewrite Hok, Hjson. simpl.
    repeat split.
    eexists _, _, _. split; [reflexivity|]. repeat split.
    destruct notify; repeat constructor; eauto.
Qed.

(** A chantier publish whose notification cannot even be sent: the report
    is published all the same and the local chantier has the public URL. *)
Lemma publish_survives_notification_failure_witness :
  let d := {| SavDetail.SessionDetail.session_id := "s1";
              SavDetail.SessionDetail.status := None;
              SavDetail.SessionDetail.created_at := None;
              SavDetail.SessionDetail.updated_at := None;
              SavDetail.SessionDetail.photos := [] |} in
  let st := {| SavDetail.Page.key := "CH1"; SavDetail.Page.loadedSessionId := "s1";
               SavDetail.Page.detail := Some d;
               SavDetail.Page.chantier := Some {[ "chantier_id" := VStr "CH1" ]};
               SavDetail.Page.chantierMeta :=
                 {| SavDetail.ChantierMeta.kind := Some SavDetail.ChantierMeta.chantier;
                    SavDetail.ChantierMeta.chantier_id := Some "CH1";
                    SavDetail.ChantierMeta.session_count := 2;
                    SavDetail.ChantierMeta.session_ids := ["s1"; "s2"] |};
               SavDetail.Page.includeMap := ∅; SavDetail.Page.author := "";
               SavDetail.Page.publishing := false; SavDetail.Page.toast := None;
               SavDetail.Page.notes := []; SavDetail.Page.activeNoteId := None;
               SavDetail.Page.noteText := ""; SavDetail.Page.notePhotos := [];
               SavDetail.Page.selectedAssetId := None |} in
  let data := VObj {[ "public_slug" := VStr "abc"; "public_url" := VStr "https://x/r/abc" ]} in
  let env := {| SavDetail.PublishEnv.chantier_publish :=
                  Resolved {| ok := true; status := 200; text := Resolved "";
                              json := Resolved data |};
                SavDetail.PublishEnv.session_publish := Rejected "unused";
                SavDetail.PublishEnv.notify := Rejected "Failed to fetch" |} in
  let st' := fst (SavDetail.handlePublish env st) in
  SavDetail.Page.toast st' = Some {| type := success; message := "Rapport chantier publié." |}
  /\ SavDetail.Page.publishing st' = false
  /\ option_map (fun c => get_in (get c "publication") "report_public_url")
                (SavDetail.Page.chantier st')
     = Some (VStr "https://x/r/abc").
Proof.
  intros d st data env st'.
  destruct publish_survives_notification_failure as (Hchantier & _ & _).
  destruct (Hchantier st d "CH1"
              {| ok := true; status := 200; text := Resolved ""; json := Resolved data |}
              data (Rejected "unused") (Rejected "Failed to fetch")
              eq_refl eq_refl eq_refl eq_refl eq_refl)
    as (Htoast & Hpub & Hch & _).
  split; [exact Htoast|]. split; [exact Hpub|].
  fold env st' in Hch. rewrite Hch. reflexivity.
Defined.

End PublishFacts.

(** ** Deleting *)

Module DeleteFacts.

Import JsString Http SavList JsStringFacts.

Lemma no_request_nil : no_request [].
Proof. constructor. Qed.

Lemma no_request_confirm msg : no_request [Confirm msg].
Proof. repeat constructor. intros r H. discriminate H. Qed.

(** C7, as amended.  For the deletion of sessions and of a chantier from
    the list page: (1) when the confirmation is not given, no request is
    issued and the page state is unchanged but for the delete error message
    (cleared at the start, or set when the row names no session or no
    chantier); (2) whenever a DELETE request is issued, the confirmation
    dialog was shown first and was accepted. *)
Theorem handleDeleteRow_requires_confirmation (env : DeleteEnv.t)
    (row : ChantierAggItem.t) (isUnattached : bool) (st : Page.t) :
  let st' := fst (handleDeleteRow env row isUnattached st) in
  let evs := snd (handleDeleteRow env row isUnattached st) in
  (DeleteEnv.confirm env = false ->
     no_request evs /\ st' = Page.setDeleteError st (Page.deleteError st'))
  /\ (forall e, In e evs -> is_delete e = true ->
        DeleteEnv.confirm env = true /\ exists msg rest, evs = Confirm msg :: rest).
Proof.
  unfold handleDeleteRow.
  destruct (truthy_opt (Page.deletingKey (Page.setDeleteError st None))) eqn:Hbusy.
  { simpl. split; [intros _; split; [apply no_request_nil | reflexivity] | intros e []]. }
  destruct isUnattached.
  - destruct (length (default [] (ChantierAggItem.session_ids row)) =? 0) eqn:Hcount.
    { simpl. split; [intros _; split; [apply no_request_nil | reflexivity] | intros e []]. }
    destruct (DeleteEnv.confirm env) eqn:Hconfirm; simpl.
    + split; [discriminate|]. intros e _ _. split; [reflexivity|].
      destruct (delete_sessions env _) as [evs err].
      destruct (after_delete env _ err) as [st2 evs']. simpl. eauto.
    + split.
      * intros _. split; [apply no_request_confirm | reflexivity].
      * intros e [<- | []] He. discriminate He.
  - destruct (truthy (trim (default "" (ChantierAggItem.chantier_id row)))) eqn:Hid; simpl.
    2: { split; [intros _; split; [apply no_request_nil | reflexivity] | intros e []]. }
    destruct (DeleteEnv.confirm env) eqn:Hconfirm; simpl.
    + split; [discriminate|]. intros e _ _. split; [reflexivity|].
      destruct (after_delete env _ _) as [st2 evs']. simpl. eauto.
    + split.
      * intros _. split; [apply no_request_confirm | reflexivity].
      * intros e [<- | []] He. discriminate He.
Qed.

(** A declined deletion of an unattached session: the dialog is the only
    event and the page is as it was.  The same deletion accepted: the
    dialog comes first, then the DELETE request, then the refresh. *)
Lemma handleDeleteRow_requires_confirmation_witness :
  let row := {| ChantierAggItem.group_key := "g1"; ChantierAggItem.chantier_id := None;
                ChantierAggItem.session_ids := Some ["s1"] |} in
  let st := {| Page.unattached := [row]; Page.chantiers := []; Page.loading := false;
               Page.error := None; Page.hasLoadedOnce := true; Page.isRefreshing := false;
               Page.deletingKey := None; Page.deleteError := None |} in
  let done : response unit :=
    {| ok := true; status := 200; text := Resolved ""; json := Resolved tt |} in
  let env (answer : bool) :=
    {| DeleteEnv.confirm := answer;
       DeleteEnv.delete_session := fun _ => Resolved done;
       DeleteEnv.delete_chantier := Resolved done;
       DeleteEnv.overview :=
         Resolved {| ok := true; status := 200; text := Resolved "";
                     json := Resolved ([], []) |} |} in
  (no_request (snd (handleDeleteRow (env false) row true st))
   /\ snd (handleDeleteRow (env false) row true st)
      = [Confirm "Supprimer cette session ? Cette action est irréversible."]
   /\ fst (handleDeleteRow (env false) row true st) = st)
  /\ (DeleteEnv.confirm (env true) = true
      /\ snd (handleDeleteRow (env true) row true st)
         = [Confirm "Supprimer cette session ? Cette action est irréversible.";
            Fetch {| meth := DELETE; to := Api; path := "/sessions/s1"; body := None |};
            Fetch {| meth := GET; to := Api; path := "/sav/overview"; body := None |}]).
Proof.
  intros row st done env.
  destruct (handleDeleteRow_requires_confirmation (env false) row true st) as (Hdeclined & _).
  destruct (handleDeleteRow_requires_confirmation (env true) row true st) as (_ & Hasked).
  destruct (Hdeclined eq_refl) as (Hnone & Hst).
  split.
  - split; [exact Hnone|]. split; [reflexivity|]. rewrite Hst. reflexivity.
  - split; [|reflexivity].
    apply (Hasked (Fetch {| meth := DELETE; to := Api; path := "/sessions/s1";
                            body := None |})); [right; left|]; reflexivity.
Defined.

(** The deletion of a note visual asks for nothing: with a session loaded,
    the DELETE request is the first event, and no dialog is among them. *)
Lemma deleteNoteAsset_asks_nothing (res : outcome (response unit)) (noteId assetId : string)
    (st : SavDetail.Page.t) :
  SavDetail.effectiveSessionId st <> "" ->
  let evs := snd (SavDetail.deleteNoteAsset res noteId assetId st) in
  (exists r rest, evs = Fetch r :: rest /\ meth r = DELETE)
  /\ Forall (fun e => is_confirm e = false) evs.
Proof.
  intros Hsid. apply truthy_true in Hsid. unfold SavDetail.deleteNoteAsset.
  rewrite Hsid. simpl.
  destruct res as [r|m]; [destruct (negb (ok r)); [destruct (text r)|]|]; simpl;
    (split; [eexists _, _; split; reflexivity | repeat constructor]).
Qed.

(** C7, as stated, fails.  A declined deletion does change the state: the
    delete error message on display is cleared.  And the deletion of a note
    visual sends its DELETE request with no confirmation at all. *)
Lemma delete_confirmation_counterexample :
  let row := {| ChantierAggItem.group_key := "g1"; ChantierAggItem.chantier_id := None;
                ChantierAggItem.session_ids := Some ["s1"] |} in
  let st := {| Page.unattached := [row]; Page.chantiers := []; Page.loading := false;
               Page.error := None; Page.hasLoadedOnce := true; Page.isRefreshing := false;
               Page.deletingKey := None;
               Page.deleteError := Some "Suppression impossible." |} in
  let env := {| DeleteEnv.confirm := false;
                DeleteEnv.delete_session := fun _ => Rejected "unused";
                DeleteEnv.delete_chantier := Rejected "unused";
                DeleteEnv.overview := Rejected "unused" |} in
  let page := {| SavDetail.Page.key := "s1"; SavDetail.Page.loadedSessionId := "s1";
                 SavDetail.Page.detail := None; SavDetail.Page.chantier := None;
                 SavDetail.Page.chantierMeta :=
                   {| SavDetail.ChantierMeta.kind := None;
                      SavDetail.ChantierMeta.chantier_id := None;
                      SavDetail.ChantierMeta.session_count := 0;
                      SavDetail.ChantierMeta.session_ids := [] |};
                 SavDetail.Page.includeMap := ∅; SavDetail.Page.author := "";
                 SavDetail.Page.publishing := false; SavDetail.Page.toast := None;
                 SavDetail.Page.notes := []; SavDetail.Page.activeNoteId := Some "n1";
                 SavDetail.Page.noteText := ""; SavDetail.Page.notePhotos := [];
                 SavDetail.Page.selectedAssetId := None |} in
  (Page.deleteError (fst (handleDeleteRow env row true st)) = None
   /\ fst (handleDeleteRow env row true st) <> st)
  /\ snd (SavDetail.deleteNoteAsset
            (Resolved {| ok := true; status := 200; text := Resolved ""; json := Resolved tt |})
            "n1" "a1" page)
     = [Fetch {| meth := DELETE; to := Api; path := "/sessions/s1/notes/n1/assets/a1";
                 body := None |}].
Proof.
  repeat split. discriminate.
Qed.

End DeleteFacts.

(** ** The public report pages *)

Module PublicReportFacts.

Import JsString Json Http PublicReport JsStringFacts.

Lemma no_mutation_get (p : string) (logs : list event) :
  only_logs logs ->
  no_mutation (Fetch {| meth := GET; to := Api; path := p; body := None |} :: logs).
Proof.
  intros H. constructor; [reflexivity|].
  induction H as [|e logs (l & ->) _ IH]; constructor; [reflexivity | exact IH].
Qed.

(** C8, as amended.  On both public pages: (1) with a slug, when the fetch
    fails or answers a status that is not ok, the page renders its "not
    found" state, with no exception and no dialog; (2) with no slug, the
    page sends nothing, keeps its state and renders the loading state;
    (3) in every case the only request a page sends is a GET: it performs no
    mutation. *)
Theorem public_pages_not_found :
  (forall (res : outcome (response value)) (slug : string) (st : Chantier.t),
      slug <> "" -> fetch_failed res ->
      exists msg, Chantier.render slug (fst (Chantier.load res false slug st))
                  = NotFound "Rapport introuvable" (Some msg))
  /\ (forall (res : outcome (response value)) (slug : string) (st : Session.t),
      slug <> "" -> fetch_failed res ->
      Session.render slug (fst (Session.load res slug st))
      = NotFound "Session introuvable" None)
  /\ (forall (res : outcome (response value)) (cancelled : bool) (st : Chantier.t),
      Chantier.load res cancelled "" st = (st, []) /\ Chantier.render "" st = Loading)
  /\ (forall (res : outcome (response value)) (st : Session.t),
      Session.load res "" st = (st, []) /\ Session.render "" st = Loading)
  /\ (forall (res : outcome (response value)) (cancelled : bool) (slug : string)
             (st : Chantier.t),
      no_mutation (snd (Chantier.load res cancelled slug st)))
  /\ (forall (res : outcome (response value)) (slug : string) (st : Session.t),
      no_mutation (snd (Session.load res slug st))).
Proof.
  repeat split.
  - intros res slug st Hslug Hfail. apply truthy_true in Hslug.
    unfold Chantier.load, Chantier.render. rewrite Hslug. simpl.
    destruct res as [r|m]; simpl in *; [rewrite Hfail; simpl|]; rewrite ?Hslug; simpl; eauto.
  - intros res slug st Hslug Hfail. apply truthy_true in Hslug.
    unfold Session.load, Session.render. rewrite Hslug. simpl.
    destruct res as [r|m]; simpl in *; [rewrite Hfail; simpl|]; rewrite ?Hslug; reflexivity.
  - unfold Chantier.render. simpl. rewrite orb_true_r. reflexivity.
  - unfold Session.render. simpl. rewrite orb_true_r. reflexivity.
  - intros res cancelled slug st. unfold Chantier.load.
    destruct (negb (truthy slug)); [constructor|].
    destruct res as [r|m]; [destruct (negb (ok r)); [|destruct (json r)]|];
      apply no_mutation_get; constructor.
  - intros res slug st. unfold Session.load.
    destruct (negb (truthy slug)); [constructor|].
    destruct res as [r|m]; [destruct (ok r); [destruct (json r)|]|];
      apply no_mutation_get; repeat constructor; eauto.
Qed.

(** An unknown slug, answered 404: the chantier page says "Rapport
    introuvable" with the text of the answer, and sent one GET. *)
Lemma public_pages_not_found_witness :
  let res : outcome (response value) :=
    Resolved {| ok := false; status := 404; text := Resolved "Not Found";
                json := Rejected "Unexpected token" |} in
  Chantier.render "abc" (fst (Chantier.load res false "abc" Chantier.initial))
  = NotFound "Rapport introuvable" (Some "Not Found")
  /\ no_mutation (snd (Chantier.load res false "abc" Chantier.initial)).
Proof.
  intros res.
  destruct public_pages_not_found as (Hchantier & _ & _ & _ & Hget & _).
  destruct (Hchantier res "abc" Chantier.initial) as (msg & Hmsg);
    [discriminate | reflexivity |].
  pose proof Hmsg as Hrun. vm_compute in Hrun. injection Hrun as <-.
  split; [exact Hmsg | apply Hget].
Defined.

(** C8, as stated, fails for a missing slug: both pages then render their
    loading state, not the "not found" state, whatever happens. *)
Lemma public_pages_missing_slug_counterexample :
  let res : outcome (response value) := Rejected "Failed to fetch" in
  Chantier.render "" (fst (Chantier.load res false "" Chantier.initial)) = Loading
  /\ Session.render "" (fst (Session.load res "" Session.initial)) = Loading.
Proof.
  split; reflexivity.
Qed.

End PublicReportFacts.

(** ** Arrays of strings *)

Module JsArrayFacts.

Import JsArray.

Lemma includes_In (arr : list string) (k : string) : includes arr k = true <-> In k arr.
Proof.
  unfold includes. rewrite existsb_exists. split.
  - intros (x & Hx & E). apply String.eqb_eq in E. subst. exact Hx.
  - intros H. exists k. split; [exact H | apply String.eqb_refl].
Qed.

Lemma includes_not_In (arr : list string) (k : string) : includes arr k = false <-> ~ In k arr.
Proof. rewrite <- includes_In. destruct (includes arr k); split; congruence. Qed.

Lemma filter_NoDup_strings {A} (p : A -> bool) (l : list A) :
  NoDup l -> NoDup (List.filter p l).
Proof.
  induction l as [|a l IH]; intros H; simpl; [exact H|].
  apply NoDup_cons in H as [Ha H].
  destruct (p a); [|apply IH, H].
  apply NoDup_cons_2; [|apply IH, H].
  rewrite list_elem_of_In, filter_In. rewrite list_elem_of_In in Ha. tauto.
Qed.

End JsArrayFacts.

(** ** The requests of a handler *)

Module TraceFacts.

Import Http Trace.

Lemma requests_logs (evs : list event) : only_logs evs -> requests evs = [].
Proof.
  unfold requests. induction 1 as [|e evs [l ->] _ IH]; [reflexivity|]. exact IH.
Qed.

Lemma requests_fetch (r : request) (evs : list event) :
  requests (Fetch r :: evs) = r :: requests evs.
Proof. reflexivity. Qed.

End TraceFacts.

(** ** The link generator page: steps, categories, intro values and resets *)

Module GenerateurStepsFacts.

Import JsString JsNumber JsArray Json Url Http Generateur GenerateurSteps.
Import JsStringFacts JsArrayFacts.

Lemma push_missing_spec (all next : list string) :
  exists added,
    push_missing next all = next ++ added
    /\ (forall k, In k added <-> In k all /\ ~ In k next)
    /\ NoDup added.
Proof.
  unfold push_missing. revert next.
  induction all as [|a all IH]; intros next; simpl.
  - exists []. rewrite app_nil_r. split; [reflexivity|]. split; [|apply NoDup_nil_2].
    intros k. simpl. tauto.
  - destruct (includes next a) eqn:E.
    + apply includes_In in E.
      destruct (IH next) as (added & -> & Hin & Hnd).
      exists added. split; [reflexivity|]. split; [|assumption].
      intros k. rewrite Hin. split; [tauto|].
      intros [[<- | Hk] Hn]; [contradiction | tauto].
    + apply includes_not_In in E.
      destruct (IH (next ++ [a])) as (added & -> & Hin & Hnd).
      exists (a :: added). rewrite <- app_assoc. split; [reflexivity|]. split.
      * intros k. simpl. rewrite Hin, in_app_iff. simpl.
        destruct (String.eqb_spec a k) as [->|Hne]; tauto.
      * apply NoDup_cons_2; [|assumption].
        rewrite list_elem_of_In, Hin, in_app_iff. simpl. tauto.
Qed.

Lemma forallb_includes (sel keys : list string) :
  forallb (includes sel) keys = true <-> (forall k, In k keys -> In k sel).
Proof.
  rewrite forallb_forall. split; intros H k Hk.
  - apply includes_In. apply H. exact Hk.
  - apply includes_In. apply H. exact Hk.
Qed.

Lemma isGroupChecked_true (g : StepGroup.t) (sel : list string) :
  isGroupChecked g sel = true
  <-> StepGroup.keys g <> [] /\ (forall k, In k (StepGroup.keys g) -> In k sel).
Proof.
  unfold isGroupChecked. destruct (StepGroup.keys g) as [|a keys] eqn:E.
  - simpl. split; [discriminate | intros [H _]; congruence].
  - cbn [length Nat.eqb]. rewrite forallb_includes. split; [intros H; split; [discriminate | exact H] | tauto].
Qed.

Lemma filter_out_In (keys sel : list string) (k : string) :
  In k (List.filter (fun k => negb (includes keys k)) sel) <-> In k sel /\ ~ In k keys.
Proof. rewrite filter_In, negb_true_iff, includes_not_In. tauto. Qed.

Lemma filter_out_none (keys sel : list string) :
  (forall k, In k keys -> ~ In k sel) ->
  List.filter (fun k => negb (includes keys k)) sel = sel.
Proof.
  intros H. induction sel as [|a sel IH]; [reflexivity|]. simpl.
  assert (Ha : includes keys a = false).
  { apply includes_not_In. intros Hin. apply (H a Hin). left. reflexivity. }
  rewrite Ha. simpl. f_equal. apply IH. intros k Hk Hs. apply (H k Hk). right. exact Hs.
Qed.

Lemma filter_out_app (keys a b : list string) :
  List.filter (fun k => negb (includes keys k)) (a ++ b)
  = List.filter (fun k => negb (includes keys k)) a
    ++ List.filter (fun k => negb (includes keys k)) b.
Proof. apply List.filter_app. Qed.

Lemma filter_out_all (keys sel : list string) :
  (forall k, In k sel -> In k keys) ->
  List.filter (fun k => negb (includes keys k)) sel = [].
Proof.
  intros H. induction sel as [|a sel IH]; [reflexivity|]. simpl.
  assert (Ha : includes keys a = true) by (apply includes_In, H; left; reflexivity).
  rewrite Ha. simpl. apply IH. intros k Hk. apply H. right. exact Hk.
Qed.

Lemma toggleGroup_some_missing (group : StepGroup.t) (prev : list string) :
  (exists k, In k (StepGroup.keys group) /\ ~ In k prev) ->
  toggleGroup group prev = push_missing prev (StepGroup.keys group).
Proof.
  intros (k0 & Hk0 & Hn0). unfold toggleGroup.
  destruct (forallb (includes prev) (StepGroup.keys group)) eqn:E; [|reflexivity].
  rewrite forallb_includes in E. exfalso. apply Hn0, E, Hk0.
Qed.

Lemma toggleGroup_all_inside (group : StepGroup.t) (prev : list string) :
  (forall k, In k (StepGroup.keys group) -> In k prev) ->
  toggleGroup group prev
  = List.filter (fun k => negb (includes (StepGroup.keys group) k)) prev.
Proof.
  intros H. unfold toggleGroup.
  assert (E : forallb (includes prev) (StepGroup.keys group) = true)
    by (apply forallb_includes; exact H).
  rewrite E. reflexivity.
Qed.

(** X1.  Clicking a group of which some step is not selected selects it:
    the steps already selected stay where they are, the missing steps of
    the group are appended, each once, and the box of the group is then
    shown checked. *)
Theorem toggleGroup_selects (group : StepGroup.t) (prev : list string) :
  (exists k, In k (StepGroup.keys group) /\ ~ In k prev) ->
  exists added,
    toggleGroup group prev = prev ++ added
    /\ (forall k, In k added <-> In k (StepGroup.keys group) /\ ~ In k prev)
    /\ NoDup added
    /\ isGroupChecked group (toggleGroup group prev) = true.
Proof.
  intros Hmiss. rewrite (toggleGroup_some_missing group prev Hmiss).
  destruct Hmiss as (k0 & Hk0 & Hn0).
  destruct (push_missing_spec (StepGroup.keys group) prev) as (added & Heq & Hin & Hnd).
  exists added. rewrite Heq. split; [reflexivity|].
  split; [assumption|]. split; [assumption|].
  apply isGroupChecked_true. split.
  - intros Hnil. rewrite Hnil in Hk0. exact Hk0.
  - intros k Hk. rewrite in_app_iff, Hin.
    destruct (in_dec string_dec k prev); tauto.
Qed.

Lemma toggleGroup_selects_witness :
  let group := {| StepGroup.label := "Pompe"; StepGroup.category := "Hydraulique";
                  StepGroup.keys := ["a"; "b"]; StepGroup.showIf := None |} in
  toggleGroup group ["b"; "z"] = ["b"; "z"; "a"]
  /\ isGroupChecked group ["b"; "z"; "a"] = true.
Proof.
  intros group.
  destruct (toggleGroup_selects group ["b"; "z"]) as (added & Heq & _ & _ & Hc).
  - exists "a". split; [left; reflexivity|]. simpl. intros [H|[H|[]]]; discriminate.
  - split; [reflexivity | exact Hc].
Defined.

(** X2.  Clicking a group whose steps are all selected removes exactly its
    steps: the other selected steps stay, in their order, and for a group
    with at least one step the box is then shown unchecked. *)
Theorem toggleGroup_unselects (group : StepGroup.t) (prev : list string) :
  (forall k, In k (StepGroup.keys group) -> In k prev) ->
  toggleGroup group prev
  = List.filter (fun k => negb (includes (StepGroup.keys group) k)) prev
  /\ (forall k, In k (toggleGroup group prev) <-> In k prev /\ ~ In k (StepGroup.keys group))
  /\ isGroupChecked group (toggleGroup group prev) = false.
Proof.
  intros H. rewrite (toggleGroup_all_inside group prev H).
  split; [reflexivity|]. split; [apply filter_out_In|].
  destruct (isGroupChecked group _) eqn:C; [|reflexivity].
  apply isGroupChecked_true in C as [Hne Hall].
  destruct (StepGroup.keys group) as [|a keys] eqn:Ek; [congruence|].
  specialize (Hall a (or_introl eq_refl)).
  apply filter_out_In in Hall. exfalso. apply (proj2 Hall). left. reflexivity.
Qed.

Lemma toggleGroup_unselects_witness :
  let group := {| StepGroup.label := "Pompe"; StepGroup.category := "Hydraulique";
                  StepGroup.keys := ["a"; "b"]; StepGroup.showIf := None |} in
  toggleGroup group ["b"; "z"; "a"] = ["z"]
  /\ isGroupChecked group ["z"] = false.
Proof.
  intros group.
  destruct (toggleGroup_unselects group ["b"; "z"; "a"]) as (Heq & _ & Hc).
  - simpl. intros k [<-|[<-|[]]]; tauto.
  - split; [reflexivity | exact Hc].
Defined.

(** X3.  When no step of a group is selected, clicking the group twice
    gives the selection back as it was. *)
Theorem toggleGroup_twice (group : StepGroup.t) (prev : list string) :
  (forall k, In k (StepGroup.keys group) -> ~ In k prev) ->
  toggleGroup group (toggleGroup group prev) = prev.
Proof.
  intros Hdis.
  assert (Hcase : StepGroup.keys group = [] \/ exists a, In a (StepGroup.keys group)).
  { destruct (StepGroup.keys group) as [|a keys]; [left; reflexivity|].
    right. exists a. left. reflexivity. }
  destruct Hcase as [Ek | (a & Ha)].
  - unfold toggleGroup. rewrite Ek. cbn [forallb].
    rewrite !(filter_out_none []); [reflexivity | intros k [] | intros k []].
  - rewrite (toggleGroup_some_missing group prev)
      by (exists a; split; [exact Ha | apply Hdis, Ha]).
    destruct (push_missing_spec (StepGroup.keys group) prev) as (added & Heq & Hin & _).
    rewrite Heq. rewrite toggleGroup_all_inside.
    + rewrite filter_out_app, filter_out_none by exact Hdis.
      rewrite filter_out_all; [apply app_nil_r|].
      intros k Hk. apply Hin in Hk. tauto.
    + intros k Hk. rewrite in_app_iff, Hin. right. split; [exact Hk | apply Hdis, Hk].
Qed.

Lemma toggleGroup_twice_witness :
  let group := {| StepGroup.label := "Pompe"; StepGroup.category := "Hydraulique";
                  StepGroup.keys := ["a"; "b"; "a"]; StepGroup.showIf := None |} in
  toggleGroup group ["z"] = ["z"; "a"; "b"]
  /\ toggleGroup group ["z"; "a"; "b"] = ["z"].
Proof.
  intros group. split; [reflexivity|].
  change ["z"; "a"; "b"] with (toggleGroup group ["z"]).
  apply (toggleGroup_twice group ["z"]).
  simpl. intros k [<-|[<-|[<-|[]]]] [H|[]]; discriminate.
Defined.

Lemma bucket_bucket_push (out : Buckets) (c cat : string) (g : StepGroup.t) :
  bucket (bucket_push out c g) cat
  = bucket out cat ++ (if String.eqb c cat then [g] else []).
Proof.
  unfold bucket. induction out as [|[c' gs] out IH]; simpl.
  - destruct (String.eqb c cat); reflexivity.
  - destruct (String.eqb c' c) eqn:E; simpl.
    + apply String.eqb_eq in E. subst c'.
      destruct (String.eqb c cat); simpl; [reflexivity | rewrite app_nil_r; reflexivity].
    + destruct (String.eqb c' cat) eqn:E'; simpl; [|exact IH].
      apply String.eqb_eq in E'. subst c'. rewrite String.eqb_sym, E, app_nil_r. reflexivity.
Qed.

Lemma bucket_fold (vis : list StepGroup.t) (out : Buckets) (cat : string) :
  bucket (fold_left (fun out g => bucket_push out (category_of g) g) vis out) cat
  = bucket out cat ++ List.filter (fun g => String.eqb (category_of g) cat) vis.
Proof.
  revert out. induction vis as [|g vis IH]; intros out; simpl.
  - rewrite app_nil_r. reflexivity.
  - rewrite IH, bucket_bucket_push, <- app_assoc.
    destruct (String.eqb (category_of g) cat); reflexivity.
Qed.

Lemma bucket_push_keys (out : Buckets) (c : string) (g : StepGroup.t) :
  map fst (bucket_push out c g)
  = if includes (map fst out) c then map fst out else map fst out ++ [c].
Proof.
  induction out as [|[c' gs] out IH]; [reflexivity|]. simpl.
  unfold includes in *. simpl. rewrite (String.eqb_sym c c').
  destruct (String.eqb c' c) eqn:E; simpl; [reflexivity|].
  rewrite IH. destruct (existsb (String.eqb c) (map fst out)); reflexivity.
Qed.

Lemma bucket_push_NoDup (out : Buckets) (c : string) (g : StepGroup.t) :
  NoDup (map fst out) -> NoDup (map fst (bucket_push out c g)).
Proof.
  intros H. rewrite bucket_push_keys.
  destruct (includes (map fst out) c) eqn:E; [exact H|].
  apply includes_not_In in E.
  apply (proj2 (NoDup_app _ _)). split; [exact H|]. split.
  - intros x Hx Hin. apply list_elem_of_In in Hx. apply list_elem_of_In in Hin.
    destruct Hin as [<-|[]]. contradiction.
  - apply NoDup_singleton.
Qed.

Lemma bucket_push_nonempty (out : Buckets) (c : string) (g : StepGroup.t) :
  Forall (fun e => snd e <> []) out ->
  Forall (fun e => snd e <> []) (bucket_push out c g).
Proof.
  intros H. induction out as [|[c' gs] out IH]; simpl.
  - constructor; [discriminate | constructor].
  - apply Forall_cons in H as [Hne H]. simpl in Hne.
    destruct (String.eqb c' c).
    + constructor; [|exact H]. simpl. destruct gs; discriminate.
    + constructor; [exact Hne | apply IH, H].
Qed.

Lemma bucket_push_Permutation (out : Buckets) (c : string) (g : StepGroup.t) :
  concat (map snd (bucket_push out c g)) ≡ₚ concat (map snd out) ++ [g].
Proof.
  induction out as [|[c' gs] out IH]; simpl; [reflexivity|].
  destruct (String.eqb c' c); simpl.
  - rewrite <- !app_assoc. apply Permutation_app_head. apply Permutation_app_comm.
  - rewrite IH. rewrite app_assoc. reflexivity.
Qed.

Lemma get_In_NoDup {A} (o : list (string * A)) (k : string) (v : A) :
  NoDup (map fst o) -> In (k, v) o -> JsObject.get o k = Some v.
Proof.
  induction o as [|[k' v'] o IH]; intros Hnd Hin; [contradiction|].
  simpl in *. apply NoDup_cons in Hnd as [Hk' Hnd']. rewrite list_elem_of_In in Hk'.
  destruct Hin as [[= -> ->] | Hin].
  - rewrite String.eqb_refl. reflexivity.
  - destruct (String.eqb_spec k' k) as [->|Hne]; [|apply IH; assumption].
    exfalso. apply Hk'. apply (in_map fst) in Hin. exact Hin.
Qed.

Lemma groups_fold_invariant (visible : list StepGroup.t) (out : Buckets) :
  NoDup (map fst out) ->
  Forall (fun e => snd e <> []) out ->
  let r := fold_left (fun out g => bucket_push out (category_of g) g) visible out in
  NoDup (map fst r)
  /\ Forall (fun e => snd e <> []) r
  /\ concat (map snd r) ≡ₚ concat (map snd out) ++ visible.
Proof.
  revert out. induction visible as [|g vis IH]; intros out Hnd Hsh; simpl.
  - rewrite app_nil_r. auto.
  - destruct (IH (bucket_push out (category_of g) g)) as (H1 & H2 & H3).
    + apply bucket_push_NoDup, Hnd.
    + apply bucket_push_nonempty, Hsh.
    + split; [exact H1|]. split; [exact H2|].
      rewrite H3, bucket_push_Permutation, <- app_assoc. reflexivity.
Qed.

(** X4.  The sections of the step list partition the visible groups: the
    section of a category holds the visible groups of that category
    (trimmed, "Autres" when blank) in their order, no category has two
    sections, no section is empty, and every visible group is shown in
    exactly one section. *)
Theorem groupsByCategory_partition (visible : list StepGroup.t) :
  (forall cat,
      bucket (groupsByCategory visible) cat
      = List.filter (fun g => String.eqb (category_of g) cat) visible)
  /\ NoDup (map fst (groupsByCategory visible))
  /\ (forall cat gs, In (cat, gs) (groupsByCategory visible) ->
        gs <> [] /\ gs = List.filter (fun g => String.eqb (category_of g) cat) visible)
  /\ concat (map snd (groupsByCategory visible)) ≡ₚ visible.
Proof.
  assert (Hb : forall cat,
             bucket (groupsByCategory visible) cat
             = List.filter (fun g => String.eqb (category_of g) cat) visible).
  { intros cat. unfold groupsByCategory. rewrite bucket_fold. reflexivity. }
  destruct (groups_fold_invariant visible []) as (Hnd & Hsh & Hperm);
    [apply NoDup_nil_2 | constructor |].
  split; [exact Hb|]. split; [exact Hnd|]. split; [|exact Hperm].
  intros cat gs Hin.
  rewrite Forall_forall in Hsh. split.
  - apply (Hsh (cat, gs)). apply list_elem_of_In. exact Hin.
  - rewrite <- Hb. unfold bucket, groupsByCategory in *.
    rewrite (get_In_NoDup _ _ _ Hnd Hin). reflexivity.
Qed.

Lemma flat_keys_In (gs : list StepGroup.t) (k : string) :
  In k (flat_map StepGroup.keys gs) <-> exists g, In g gs /\ In k (StepGroup.keys g).
Proof. apply in_flat_map. Qed.

(** X5.  "Tout" on a section selects every step of its groups: the steps
    already selected stay where they are, the missing steps are appended,
    each once, and every group of the section that has a step is then
    shown checked. *)
Theorem selectAllInCategory_checks (groups : Buckets) (cat : string) (prev : list string) :
  exists added,
    selectAllInCategory groups cat prev = prev ++ added
    /\ NoDup added
    /\ (forall k, In k added
                  <-> (exists g, In g (bucket groups cat) /\ In k (StepGroup.keys g))
                      /\ ~ In k prev)
    /\ (forall g, In g (bucket groups cat) -> StepGroup.keys g <> [] ->
                  isGroupChecked g (selectAllInCategory groups cat prev) = true).
Proof.
  unfold selectAllInCategory.
  destruct (push_missing_spec (flat_map StepGroup.keys (bucket groups cat)) prev)
    as (added & Heq & Hin & Hnd).
  exists added. rewrite Heq. split; [reflexivity|]. split; [exact Hnd|]. split.
  - intros k. rewrite Hin, flat_keys_In. reflexivity.
  - intros g Hg Hne. apply isGroupChecked_true. split; [exact Hne|].
    intros k Hk. rewrite in_app_iff, Hin, flat_keys_In.
    destruct (in_dec string_dec k prev); [tauto|]. right. split; [|assumption].
    exists g. tauto.
Qed.

(** X6.  "Aucun" on a section removes exactly the steps of its groups and
    keeps the others in their order, so that no group of the section that
    has a step stays checked; when no step of the section was selected,
    "Tout" followed by "Aucun" gives the selection back as it was. *)
Theorem clearAllInCategory_unchecks (groups : Buckets) (cat : string) (prev : list string) :
  (forall k, In k (clearAllInCategory groups cat prev)
             <-> In k prev
                 /\ ~ (exists g, In g (bucket groups cat) /\ In k (StepGroup.keys g)))
  /\ (forall g, In g (bucket groups cat) -> StepGroup.keys g <> [] ->
                isGroupChecked g (clearAllInCategory groups cat prev) = false)
  /\ ((forall g k, In g (bucket groups cat) -> In k (StepGroup.keys g) -> ~ In k prev) ->
      clearAllInCategory groups cat (selectAllInCategory groups cat prev) = prev).
Proof.
  unfold clearAllInCategory. split; [|split].
  - intros k. rewrite filter_out_In, flat_keys_In. reflexivity.
  - intros g Hg Hne.
    destruct (isGroupChecked g _) eqn:C; [|reflexivity].
    apply isGroupChecked_true in C as [_ Hall].
    destruct (StepGroup.keys g) as [|a keys] eqn:Ek; [congruence|].
    specialize (Hall a (or_introl eq_refl)).
    apply filter_out_In in Hall. exfalso. apply (proj2 Hall).
    apply flat_keys_In. exists g. rewrite Ek. split; [exact Hg | left; reflexivity].
  - intros Hdis. unfold selectAllInCategory.
    destruct (push_missing_spec (flat_map StepGroup.keys (bucket groups cat)) prev)
      as (added & Heq & Hin & _).
    rewrite Heq, filter_out_app, filter_out_none, filter_out_all.
    + apply app_nil_r.
    + intros k Hk. apply Hin in Hk. tauto.
    + intros k Hk. apply flat_keys_In in Hk as (g & Hg & Hk). apply (Hdis g k Hg Hk).
Qed.

Lemma count_fold (sel : list string) (vis : list StepGroup.t) (n : nat) :
  fold_left
    (fun count g =>
       if negb (length (StepGroup.keys g) =? 0)%nat
          && forallb (includes sel) (StepGroup.keys g)
       then S count else count) vis n
  = n + length (List.filter (fun g => isGroupChecked g sel) vis).
Proof.
  revert n. induction vis as [|g vis IH]; intros n; simpl; [lia|].
  rewrite IH. unfold isGroupChecked at 2.
  destruct (length (StepGroup.keys g) =? 0)%nat; simpl; [lia|].
  destruct (forallb (includes sel) (StepGroup.keys g)); simpl; lia.
Qed.

Lemma visibleGroups_filter (toLowerCase : string -> string) (available : list StepGroup.t)
    (ivData : IvData) (visible : list StepGroup.t) :
  visibleGroups toLowerCase available ivData = Some visible ->
  visible
  = List.filter (fun g => bool_decide (shouldShowGroup toLowerCase g ivData = Some true))
                available.
Proof.
  unfold visibleGroups. revert visible.
  induction available as [|g av IH]; intros visible; cbn [filter_throwing List.filter].
  - intros [= <-]. reflexivity.
  - destruct (shouldShowGroup toLowerCase g ivData) as [keep|]; [|discriminate].
    destruct (filter_throwing _ av) as [kept|]; [|discriminate].
    intros [= <-]. rewrite <- (IH kept eq_refl).
    destruct keep; reflexivity.
Qed.

(** X7.  When the visible groups can be computed (no visibility rule
    throws), they are the available groups whose rule shows them, and the
    counter of selected photos is the number of visible groups whose box is
    shown checked; it never exceeds the number of visible groups, and the
    steps of a hidden group do not count. *)
Theorem selectedPhotoCount_counts_checked (toLowerCase : string -> string)
    (available : list StepGroup.t) (ivData : IvData) (selectedSteps : list string)
    (visible : list StepGroup.t) :
  visibleGroups toLowerCase available ivData = Some visible ->
  visible
  = List.filter (fun g => bool_decide (shouldShowGroup toLowerCase g ivData = Some true))
                available
  /\ selectedPhotoCount visible selectedSteps
     = length (List.filter
                 (fun g => isGroupChecked g selectedSteps
                           && bool_decide (shouldShowGroup toLowerCase g ivData = Some true))
                 available)
  /\ selectedPhotoCount visible selectedSteps <= length visible.
Proof.
  intros Hvis. apply visibleGroups_filter in Hvis.
  assert (E : selectedPhotoCount visible selectedSteps
              = length (List.filter (fun g => isGroupChecked g selectedSteps) visible)).
  { unfold selectedPhotoCount. destruct visible as [|g vis]; [reflexivity|].
    cbn [length Nat.eqb]. rewrite count_fold. reflexivity. }
  split; [exact Hvis|]. split.
  - rewrite E, Hvis. f_equal. clear.
    induction available as [|g av IH]; [reflexivity|]. cbn [List.filter].
    destruct (bool_decide (shouldShowGroup toLowerCase g ivData = Some true));
      cbn [List.filter].
    + rewrite andb_true_r. destruct (isGroupChecked g selectedSteps); [f_equal|]; exact IH.
    + rewrite andb_false_r. exact IH.
  - rewrite E. apply List.filter_length_le.
Qed.

(** Two groups are checked, one of them is hidden by its rule: the counter
    is 1. *)
Lemma selectedPhotoCount_counts_checked_witness :
  let shown := {| StepGroup.label := "Vue d'ensemble"; StepGroup.category := "";
                  StepGroup.keys := ["k1"]; StepGroup.showIf := None |} in
  let hidden := {| StepGroup.label := "Ballon ECS"; StepGroup.category := "Hydraulique";
                   StepGroup.keys := ["k2"];
                   StepGroup.showIf :=
                     Some {| GroupShowIf.sourceField := "iv_ballon";
                             GroupShowIf.allowedValues := ["oui"] |} |} in
  selectedPhotoCount [shown] ["k1"; "k2"] = 1
  /\ isGroupChecked hidden ["k1"; "k2"] = true.
Proof.
  intros shown hidden.
  destruct (selectedPhotoCount_counts_checked JsString.toLowerCase [shown; hidden]
              [("iv_ballon", "non")] ["k1"; "k2"] [shown] eq_refl) as (_ & Hcount & _).
  split; [exact Hcount | reflexivity].
Defined.

(** *** Intro values *)

Lemma goes_before_asym (a b : string) : goes_before a b = true -> goes_before b a = false.
Proof.
  unfold goes_before.
  destruct (array_index a) as [n|], (array_index b) as [m|]; try congruence.
  rewrite !N.ltb_lt, N.ltb_ge. lia.
Qed.

Lemma goes_before_trans (a b c : string) :
  goes_before a b = true -> goes_before b c = true -> goes_before a c = true.
Proof.
  unfold goes_before.
  destruct (array_index a) as [n|], (array_index b) as [m|], (array_index c) as [k|];
    try congruence.
  rewrite !N.ltb_lt. lia.
Qed.

Lemma goes_before_irrefl (a : string) : goes_before a a = false.
Proof.
  unfold goes_before. destruct (array_index a); [apply N.ltb_irrefl | reflexivity].
Qed.

Lemma get_with_property {A} (prev : list (string * A)) (key : string) (value : A) (k : string) :
  JsObject.get (with_property prev key value) k
  = if String.eqb key k then Some value else JsObject.get prev k.
Proof.
  induction prev as [|[k' v'] prev IH]; simpl; [reflexivity|].
  destruct (String.eqb k' key) eqn:E; simpl.
  - apply String.eqb_eq in E. subst k'. destruct (String.eqb key k); reflexivity.
  - destruct (goes_before key k'); simpl.
    + destruct (String.eqb key k); reflexivity.
    + rewrite IH. destruct (String.eqb k' k) eqn:E'; [|reflexivity].
      apply String.eqb_eq in E'. subst k'. rewrite String.eqb_sym, E. reflexivity.
Qed.

Lemma with_property_names {A} (prev : list (string * A)) (key : string) (value : A) (k : string) :
  In k (map fst (with_property prev key value)) <-> k = key \/ In k (map fst prev).
Proof.
  induction prev as [|[k' v'] prev IH]; simpl; [intuition congruence|].
  destruct (String.eqb_spec k' key) as [->|Hne]; simpl; [intuition congruence|].
  destruct (goes_before key k'); simpl; [intuition congruence|].
  rewrite IH. intuition congruence.
Qed.

Lemma with_property_In {A} (prev : list (string * A)) (key : string) (value : A) :
  In (key, value) (with_property prev key value).
Proof.
  induction prev as [|[k' v'] prev IH]; simpl; [left; reflexivity|].
  destruct (String.eqb k' key); [left; reflexivity|].
  destruct (goes_before key k'); [left; reflexivity | right; exact IH].
Qed.

Lemma with_property_order {A} (prev : list (string * A)) (key : string) (value : A) :
  property_order (map fst prev) -> property_order (map fst (with_property prev key value)).
Proof.
  induction prev as [|[k v] prev IH]; intros H; simpl.
  - constructor; constructor.
  - simpl in H. inversion H as [|? ? Hall Hrest]; subst.
    destruct (String.eqb_spec k key) as [->|Hne]; simpl; [constructor; assumption|].
    destruct (goes_before key k) eqn:G; simpl.
    + constructor; [|exact H]. constructor.
      * split; [exact Hne | apply goes_before_asym, G].
      * rewrite Forall_forall in Hall |- *. intros k' Hk'.
        destruct (Hall k' Hk') as [Hd Hb]. split.
        -- intros ->. congruence.
        -- destruct (goes_before k' key) eqn:G'; [|reflexivity].
           rewrite (goes_before_trans _ _ _ G' G) in Hb. discriminate.
    + constructor; [|apply IH, Hrest].
      rewrite Forall_forall in Hall |- *. intros k' Hk'.
      apply list_elem_of_In, with_property_names in Hk' as [-> | Hk'].
      * split; [congruence | exact G].
      * apply Hall, list_elem_of_In, Hk'.
Qed.

Lemma property_order_NoDup (names : list string) : property_order names -> NoDup names.
Proof.
  induction 1 as [|k rest Hall _ IH]; [apply NoDup_nil_2|].
  apply NoDup_cons_2; [|exact IH].
  intros Hk. rewrite Forall_forall in Hall. destruct (Hall k Hk) as [Hne _]. congruence.
Qed.

Section Engine.

Variable toLowerCase : string -> string.

Lemma base_params_reserved (f : Form.t) (k : string) :
  ~ In k reserved ->
  usp_get
    (set_if_truthy
       (set_if_truthy
          (set_if_truthy
             (if (0 <? length (Form.selectedSteps f))%nat
              then usp_set
                     (set_if_truthy
                        (if truthy (Form.p f)
                         then usp_set (set_if_truthy [] "c" (Form.c f)) "p" (legacyP toLowerCase f)
                         else set_if_truthy [] "c" (Form.c f)) "s" (Form.s f))
                     "steps" (join "," (Form.selectedSteps f))
              else set_if_truthy
                     (if truthy (Form.p f)
                      then usp_set (set_if_truthy [] "c" (Form.c f)) "p" (legacyP toLowerCase f)
                      else set_if_truthy [] "c" (Form.c f)) "s" (Form.s f))
             "np" (Form.np f)) "ns" (Form.ns f)) "em" (Form.em f)) k = None.
Proof.
  intros Hk. unfold reserved in Hk. simpl in Hk.
  assert (Hset : forall params name value,
             name <> k -> usp_get params k = None ->
             usp_get (set_if_truthy params name value) k = None).
  { intros params name value Hne Hp. unfold set_if_truthy.
    destruct (truthy value); [|exact Hp].
    rewrite LinkFacts.usp_get_set_ne by exact Hne. exact Hp. }
  assert (Hset' : forall params name value,
             name <> k -> usp_get params k = None ->
             usp_get (usp_set params name value) k = None).
  { intros params name value Hne Hp.
    rewrite LinkFacts.usp_get_set_ne by exact Hne. exact Hp. }
  repeat first [ apply Hset; [intros <-; tauto|]
               | apply Hset'; [intros <-; tauto|]
               | match goal with |- context [if ?b then _ else _] => destruct b end
               | reflexivity ].
Qed.

(** X8.  Typing a value in an intro field stores it under the name of the
    field and leaves the other intro values alone, the names of the intro
    values stay distinct and in the order of the properties of an object, and
    the link then carries the value trimmed under that name, or no
    parameter of that name when the value is blank, for every name that the
    link does not reserve. *)
Theorem handleIvChange_in_link (f : Form.t) (key value : string) :
  property_order (map fst (Form.ivData f)) ->
  ~ In key reserved ->
  let f' := setIvData f (handleIvChange key value (Form.ivData f)) in
  (forall k, JsObject.get (Form.ivData f') k
             = if String.eqb key k then Some value else JsObject.get (Form.ivData f) k)
  /\ property_order (map fst (Form.ivData f'))
  /\ usp_get (generatedParams toLowerCase f') key
     = (if truthy (trim value) then Some (trim value) else None).
Proof.
  intros Hord Hres f'. unfold f', handleIvChange. cbn [Form.ivData setIvData].
  split; [apply get_with_property|].
  split; [apply with_property_order, Hord|].
  unfold generatedParams. cbn [Form.ivData Form.c Form.p Form.s Form.np Form.ns Form.em
                                 Form.selectedSteps setIvData].
  rewrite (LinkFacts.iv_fold_in _ _ key value).
  - destruct (truthy (trim value)); [reflexivity|].
    apply (base_params_reserved (setIvData f (with_property (Form.ivData f) key value)) key Hres).
  - apply property_order_NoDup, with_property_order, Hord.
  - apply with_property_In.
Qed.

End Engine.

Lemma handleIvChange_in_link_witness :
  let f := {| Form.c := "CH-1"; Form.p := "pac"; Form.s := "Mise en service";
              Form.np := "Ada"; Form.ns := "Perge"; Form.em := "ada@example.org";
              Form.selectedSteps := ["a"]; Form.ivData := [("2", "x"); ("zone", "nord")];
              Form.products := [] |} in
  Form.ivData (setIvData f (handleIvChange "10" " 3 " (Form.ivData f)))
  = [("2", "x"); ("10", " 3 "); ("zone", "nord")]
  /\ usp_get (generatedParams JsString.toLowerCase (setIvData f (handleIvChange "10" " 3 " (Form.ivData f)))) "10"
     = Some "3".
Proof.
  intros f. split; [reflexivity|].
  refine (proj2 (proj2 (handleIvChange_in_link JsString.toLowerCase f "10" " 3 " _ _))).
  - repeat (constructor; [repeat (constructor; [split; [discriminate | reflexivity]|]); constructor|]).
    constructor.
  - unfold reserved. simpl. intuition discriminate.
Defined.

(** *** The form as a whole *)

Lemma push_missing_NoDup (all next : list string) :
  NoDup next -> NoDup (push_missing next all).
Proof.
  intros H. destruct (push_missing_spec all next) as (added & -> & Hin & Hnd).
  apply (proj2 (NoDup_app _ _)). split; [exact H|]. split; [|exact Hnd].
  intros k Hk Hk'. apply list_elem_of_In, Hin in Hk'. apply list_elem_of_In in Hk. tauto.
Qed.

Lemma toggleGroup_NoDup (group : StepGroup.t) (prev : list string) :
  NoDup prev -> NoDup (toggleGroup group prev).
Proof.
  intros H. unfold toggleGroup.
  destruct (forallb (includes prev) (StepGroup.keys group));
    [apply filter_NoDup_strings | apply push_missing_NoDup]; exact H.
Qed.

(** X9.  In every state that the form reaches from the one the page mounts
    with, by any sequence of its writers, no step is selected twice (the
    [steps] parameter of the link names each step once) and the intro
    values have distinct names, in the order of the properties of an
    object. *)
Theorem form_invariant (actions : list action) :
  let f := fold_left step actions initial in
  NoDup (Form.selectedSteps f) /\ property_order (map fst (Form.ivData f)).
Proof.
  cbv zeta.
  assert (H : forall f,
             NoDup (Form.selectedSteps f) /\ property_order (map fst (Form.ivData f)) ->
             NoDup (Form.selectedSteps (fold_left step actions f))
             /\ property_order (map fst (Form.ivData (fold_left step actions f)))).
  { induction actions as [|a actions IH]; intros f Hf; [exact Hf|].
    simpl. apply IH. destruct Hf as [Hs Hi].
    destruct a; simpl; try (split; assumption);
      try (split; [apply NoDup_nil_2 | constructor]).
    - split; [exact Hs | apply with_property_order, Hi].
    - split; [apply toggleGroup_NoDup, Hs | exact Hi].
    - split; [apply push_missing_NoDup, Hs | exact Hi].
    - split; [apply filter_NoDup_strings, Hs | exact Hi].
    - split; [apply NoDup_nil_2 | exact Hi]. }
  apply H. split; [apply NoDup_nil_2 | constructor].
Qed.

(** X10.  A change of product, a change of sheet and a reset all leave the
    form without selected step and without intro value, so that the copy
    and open controls are disabled and the link has no [steps] parameter;
    the changes of product and of sheet keep the contact and the chantier
    reference, and after a reset the link is [/plan?]. *)
Theorem resets_disable_the_link (toLowerCase : string -> string) (f : Form.t) (v : string) :
  (controls_disabled toLowerCase (handleProductChange v f) = true
   /\ usp_get (generatedParams toLowerCase (handleProductChange v f)) "steps" = None
   /\ usp_get (generatedParams toLowerCase (handleProductChange v f)) "s" = None
   /\ Form.p (handleProductChange v f) = v
   /\ (Form.c (handleProductChange v f), Form.np (handleProductChange v f),
       Form.ns (handleProductChange v f), Form.em (handleProductChange v f))
      = (Form.c f, Form.np f, Form.ns f, Form.em f))
  /\ (controls_disabled toLowerCase (handleSheetChange v f) = true
      /\ usp_get (generatedParams toLowerCase (handleSheetChange v f)) "steps" = None
      /\ Form.s (handleSheetChange v f) = v
      /\ (Form.c (handleSheetChange v f), Form.p (handleSheetChange v f),
          Form.np (handleSheetChange v f), Form.ns (handleSheetChange v f),
          Form.em (handleSheetChange v f))
         = (Form.c f, Form.p f, Form.np f, Form.ns f, Form.em f))
  /\ (controls_disabled toLowerCase (handleResetAll f) = true
      /\ generatedUrl toLowerCase (handleResetAll f) = "/plan?").
Proof.
  assert (Hdis : forall g, Form.selectedSteps g = [] -> controls_disabled toLowerCase g = true).
  { intros g Hg. unfold controls_disabled, isReady. rewrite Hg. simpl.
    rewrite !andb_false_r. reflexivity. }
  assert (Hno : forall params name value other,
             name <> other -> usp_get params other = None ->
             usp_get (set_if_truthy params name value) other = None).
  { intros params name value other Hne Hp. unfold set_if_truthy.
    destruct (truthy value); [|exact Hp].
    rewrite LinkFacts.usp_get_set_ne by exact Hne. exact Hp. }
  split; [|split].
  - split; [apply Hdis; reflexivity|].
    split; [|split; [|split; reflexivity]];
      unfold generatedParams; cbn [handleProductChange Form.c Form.p Form.s Form.np Form.ns
                                   Form.em Form.selectedSteps Form.ivData length Nat.ltb
                                   Nat.leb fold_left];
      repeat first [ reflexivity
                   | progress change (set_if_truthy ?params ?name "") with params
                   | apply Hno; [discriminate|]
                   | rewrite LinkFacts.usp_get_set_ne by discriminate
                   | match goal with |- context [if ?b then _ else _] => destruct b end ].
  - split; [apply Hdis; reflexivity|].
    split; [|split; reflexivity].
    unfold generatedParams; cbn [handleSheetChange Form.c Form.p Form.s Form.np Form.ns
                                 Form.em Form.selectedSteps Form.ivData length Nat.ltb
                                 Nat.leb fold_left];
      repeat first [ reflexivity
                   | progress change (set_if_truthy ?params ?name "") with params
                   | apply Hno; [discriminate|]
                   | rewrite LinkFacts.usp_get_set_ne by discriminate
                   | match goal with |- context [if ?b then _ else _] => destruct b end ].
  - split; [apply Hdis; reflexivity | reflexivity].
Qed.

(** *** Shuffling and the example photo *)

Lemma floor_scaled_below (r : Draw.t) (n : nat) : 0 < n -> floor_scaled r n < n.
Proof.
  intros Hn. unfold floor_scaled.
  assert (H : (Draw.num r * N.of_nat n / (Draw.num r + Draw.gap r + 1) < N.of_nat n)%N).
  { apply N.Div0.div_lt_upper_bound. nia. }
  lia.
Qed.

Lemma insert_Permutation {A} (l : list A) (i : nat) (x y : A) :
  l !! i = Some x -> <[i := y]> l ≡ₚ y :: delete i l.
Proof.
  revert i. induction l as [|a l IH]; intros [|i] H; simpl in *; try discriminate.
  - reflexivity.
  - rewrite (IH i H). apply perm_swap.
Qed.

Lemma swap_Permutation {A} (arr : list A) (i j : nat) : swap arr i j ≡ₚ arr.
Proof.
  unfold swap.
  destruct (arr !! i) as [x|] eqn:Hi; [|reflexivity].
  destruct (arr !! j) as [y|] eqn:Hj; [|reflexivity].
  destruct (decide (i = j)) as [->|Hne].
  - assert (x = y) by congruence. subst y.
    rewrite (list_insert_id arr j x Hi). rewrite (list_insert_id arr j x Hi). reflexivity.
  - assert (Hj' : <[i := y]> arr !! j = Some y).
    { apply list_lookup_insert_Some. right. split; assumption. }
    etransitivity; [apply (insert_Permutation _ j y x Hj')|].
    etransitivity; [|symmetry; apply (delete_Permutation arr i x Hi)].
    apply Permutation_skip.
    apply (Permutation_cons_inv (a := y)).
    etransitivity; [symmetry; apply (delete_Permutation _ j y Hj')|].
    apply (insert_Permutation arr i x y Hi).
Qed.

Lemma shuffle_loop_Permutation {A} (random : nat -> Draw.t) (call i : nat) (arr : list A) :
  shuffle_loop random call i arr ≡ₚ arr.
Proof.
  revert call arr. induction i as [|i IH]; intros call arr; simpl; [reflexivity|].
  rewrite IH. apply swap_Permutation.
Qed.

(** X11.  Whatever [Math.random] returns, [shuffleInPlace] gives back the
    elements it was given, each as many times as before, in an array of the
    same length; and each turn of its loop exchanges two elements of the
    array: the index it draws is never beyond the one it fills. *)
Theorem shuffleInPlace_Permutation {A} (random : nat -> Draw.t) (arr : list A) :
  shuffleInPlace random arr ≡ₚ arr
  /\ length (shuffleInPlace random arr) = length arr
  /\ (forall call i, floor_scaled (random call) (i + 1) <= i).
Proof.
  assert (H : shuffleInPlace random arr ≡ₚ arr) by apply shuffle_loop_Permutation.
  split; [exact H|]. split; [apply Permutation_length, H|].
  intros call i. pose proof (floor_scaled_below (random call) (i + 1)). lia.
Qed.

(** What one request for an example leaves: the request, the preview
    out of the loading state, an url exactly when the answer gives one. *)
Lemma fetchExamplePhotoForGroup_spec (res : outcome (response value)) (p s : string)
    (g : StepGroup.t) :
  exists st',
    fetchExamplePhotoForGroup res p s (StepGroup.label g)
    = (st', [example_request p s g], has_example res)
    /\ Preview.previewLoading st' = false
    /\ truthy_value (Preview.previewUrl st') = has_example res
    /\ (has_example res = true -> Preview.previewError st' = VNull).
Proof.
  unfold fetchExamplePhotoForGroup, has_example, example_request.
  destruct res as [r|m]; [|eexists; repeat split; discriminate].
  destruct (json r) as [data|m]; [|eexists; repeat split; discriminate].
  destruct (ok r && truthy_value (get_in data "ok")) eqn:E1; cbn [andb].
  - destruct (truthy_value (get_in data "url")) eqn:E2.
    + eexists. split; [reflexivity|]. cbn [Preview.previewLoading Preview.previewUrl
                                             Preview.previewError]. auto.
    + eexists. split; [reflexivity|]. repeat split. discriminate.
  - eexists. split; [reflexivity|]. repeat split. discriminate.
Qed.

Lemma try_candidates_spec (answers : nat -> outcome (response value)) (sent : nat)
    (p s : string) (candidates : list StepGroup.t) (st : Preview.t) :
  exists tried rest,
    candidates = tried ++ rest
    /\ snd (try_candidates answers sent p s candidates st) = map (example_request p s) tried
    /\ (forall i, S i < length tried -> has_example (answers (sent + i)) = false)
    /\ (rest <> [] ->
        exists i, length tried = S i /\ has_example (answers (sent + i)) = true)
    /\ (forall i, length tried = S i ->
          truthy_value (Preview.previewUrl (fst (try_candidates answers sent p s candidates st)))
          = has_example (answers (sent + i)))
    /\ (candidates <> [] ->
        tried <> []
        /\ Preview.previewLoading (fst (try_candidates answers sent p s candidates st)) = false).
Proof.
  revert sent st. induction candidates as [|g cands IH]; intros sent st.
  - exists [], []. simpl. repeat split; try congruence; intros; try lia; discriminate.
  - cbn [try_candidates].
    destruct (fetchExamplePhotoForGroup_spec (answers sent) p s g)
      as (st' & -> & Hload & Hurl & _).
    destruct (has_example (answers sent)) eqn:Hfound.
    + exists [g], cands. cbn [fst snd map length app].
      split; [reflexivity|]. split; [reflexivity|].
      split; [intros i Hi; lia|].
      split; [intros _; exists 0; rewrite Nat.add_0_r; split; [reflexivity | exact Hfound]|].
      split; [intros i [= <-]; rewrite Nat.add_0_r, Hurl; symmetry; exact Hfound|].
      intros _. split; [discriminate | exact Hload].
    + destruct (IH (S sent) st') as (tried & rest & Hc & Hev & Hmiss & Hhit & Hlast & Hne).
      destruct (try_candidates answers (S sent) p s cands st') as [st'' evs'] eqn:E'.
      cbn [fst snd] in *. exists (g :: tried), rest. rewrite Hc. cbn [map app length].
      rewrite Hev.
      split; [reflexivity|]. split; [reflexivity|].
      split.
      { intros [|i] Hi; [rewrite Nat.add_0_r; exact Hfound|].
        replace (sent + S i) with (S sent + i) by lia. apply Hmiss. lia. }
      split.
      { intros Hrest. destruct (Hhit Hrest) as (i & Hlen & Hi).
        exists (S i). split; [congruence|].
        replace (sent + S i) with (S sent + i) by lia. exact Hi. }
      split.
      { intros i [= Hlen]. destruct tried as [|g' tried'].
        - destruct cands as [|g2 cands2]; [|destruct (Hne ltac:(discriminate)); congruence].
          cbn [try_candidates] in E'. injection E' as <- <-.
          cbn [length] in Hlen. subst i. rewrite Nat.add_0_r, Hurl. symmetry. exact Hfound.
        - cbn [length] in Hlen. subst i.
          replace (sent + S (length tried')) with (S sent + length tried') by lia.
          apply Hlast. reflexivity. }
      intros _. split; [discriminate|].
      destruct cands as [|g' cands'].
      * cbn [try_candidates] in E'. injection E' as <- <-. exact Hload.
      * apply Hne. discriminate.
Qed.

(** X12.  The example photo of a section: the page asks for the example of
    groups of that section only, each group at most once (the requests are
    those of the first groups of a rearrangement of the section), and it
    stops at the first example it finds: every request but the last got an
    answer without example, and when the product and the sheet are chosen
    and groups are left unasked the last answer had one.  The preview then
    shows an url exactly when the last answer gave an example.  The page
    sends nothing when the section is empty or the product or the sheet is
    not chosen, and once it has sent a request the preview is never left in
    the loading state. *)
Theorem pickRandomPreview_requests (random : nat -> Draw.t)
    (answers : nat -> outcome (response value)) (groups : Buckets) (cat p s : string)
    (st : Preview.t) :
  let result := pickRandomPreviewFromCategory random answers groups cat p s st in
  (exists tried rest,
      tried ++ rest ≡ₚ bucket groups cat
      /\ snd result = map (example_request p s) tried
      /\ (forall i, S i < length tried -> has_example (answers i) = false)
      /\ (p <> "" -> s <> "" -> rest <> [] ->
          exists i, length tried = S i /\ has_example (answers i) = true)
      /\ (forall i, length tried = S i ->
            truthy_value (Preview.previewUrl (fst result)) = has_example (answers i)))
  /\ (bucket groups cat = [] \/ p = "" \/ s = "" -> snd result = [])
  /\ (snd result <> [] -> Preview.previewLoading (fst result) = false).
Proof.
  cbv zeta. unfold pickRandomPreviewFromCategory.
  destruct ((length (bucket groups cat) =? 0)%nat || negb (truthy p) || negb (truthy s)) eqn:G.
  - cbn [fst snd]. split; [|split; [reflexivity | congruence]].
    exists [], (bucket groups cat). cbn [length map app].
    split; [reflexivity|]. split; [reflexivity|].
    split; [intros i Hi; lia|].
    split; [|intros i [=]].
    intros Hp Hs Hrest. exfalso.
    apply orb_true_iff in G as [G | G].
    + apply orb_true_iff in G as [G | G].
      * apply Nat.eqb_eq in G. destruct (bucket groups cat); [congruence | discriminate].
      * apply negb_true_iff in G. destruct p; [congruence | discriminate].
    + apply negb_true_iff in G. destruct s; [congruence | discriminate].
  - apply orb_false_iff in G as [G Hs]. apply orb_false_iff in G as [Hb Hp].
    apply negb_false_iff, truthy_true in Hs. apply negb_false_iff, truthy_true in Hp.
    apply Nat.eqb_neq in Hb.
    destruct (try_candidates_spec answers 0 p s (shuffleInPlace random (bucket groups cat)) st)
      as (tried & rest & Hc & Hev & Hmiss & Hhit & Hlast & Hne).
    split; [|split].
    + exists tried, rest. split; [rewrite <- Hc; apply shuffle_loop_Permutation|].
      split; [exact Hev|]. split; [exact Hmiss|]. split; [intros _ _; exact Hhit | exact Hlast].
    + intros [Hnil | [-> | ->]]; [rewrite Hnil in Hb; simpl in Hb; lia | congruence | congruence].
    + intros _. apply Hne. intros Hnil.
      apply (f_equal (@length _)) in Hnil. unfold shuffleInPlace in Hnil.
      rewrite (Permutation_length (shuffle_loop_Permutation random 0 _ (bucket groups cat))) in Hnil.
      simpl in Hnil. lia.
Qed.

End GenerateurStepsFacts.

(** ** The session and chantier detail page: selection, notes and context *)

Module SavDetailEditFacts.

Import JsString JsArray Trace Json Http Url SavDetail SavDetailEdit.
Import JsStringFacts JsArrayFacts TraceFacts NoteFacts.

(** *** The pilot session *)

Lemma compare_recent_le (x y : SessionDetail.t) :
  (compare_recent x y <=? 0)%Z = true <-> at_most_as_recent y x.
Proof.
  unfold compare_recent, at_most_as_recent, less_recent. rewrite Z.leb_le.
  destruct (number_or_0 (SessionDetail.updated_at y)
            =? number_or_0 (SessionDetail.updated_at x))%Z eqn:E; simpl.
  - apply Z.eqb_eq in E. lia.
  - apply Z.eqb_neq in E. lia.
Qed.

Lemma compare_recent_gt (x y : SessionDetail.t) :
  (compare_recent x y <=? 0)%Z = false <-> less_recent x y.
Proof.
  unfold compare_recent, less_recent. rewrite Z.leb_gt.
  destruct (number_or_0 (SessionDetail.updated_at y)
            =? number_or_0 (SessionDetail.updated_at x))%Z eqn:E; simpl.
  - apply Z.eqb_eq in E. lia.
  - apply Z.eqb_neq in E. lia.
Qed.

Lemma less_recent_trans_r (a b c : SessionDetail.t) :
  at_most_as_recent a b -> at_most_as_recent b c -> at_most_as_recent a c.
Proof. unfold at_most_as_recent, less_recent. lia. Qed.

Lemma less_recent_trans_l (a b c : SessionDetail.t) :
  less_recent a b -> less_recent b c -> less_recent a c.
Proof. unfold less_recent. lia. Qed.

Lemma less_recent_weaken (a b : SessionDetail.t) : less_recent a b -> at_most_as_recent a b.
Proof. unfold at_most_as_recent. tauto. Qed.

Lemma head_insert_sorted {A} (cmp : A -> A -> Z) (x : A) (l : list A) :
  head (insert_sorted cmp x l)
  = match head l with
    | None => Some x
    | Some y => if (cmp x y <=? 0)%Z then Some x else Some y
    end.
Proof.
  destruct l as [|y l]; simpl; [reflexivity|].
  destruct (cmp x y <=? 0)%Z; reflexivity.
Qed.

Lemma head_sort_recent (sessions : list SessionDetail.t) :
  match head (sort compare_recent sessions) with
  | None => sessions = []
  | Some s =>
      exists before after,
        sessions = before ++ s :: after
        /\ Forall (fun s' => less_recent s' s) before
        /\ Forall (fun s' => at_most_as_recent s' s) after
  end.
Proof.
  induction sessions as [|x l IH]; [reflexivity|].
  unfold sort in *. simpl. rewrite head_insert_sorted.
  destruct (head (foldr (insert_sorted compare_recent) [] l)) as [y|].
  - destruct IH as (before & after & -> & Hb & Ha).
    destruct (compare_recent x y <=? 0)%Z eqn:E.
    + apply compare_recent_le in E.
      exists [], (before ++ y :: after). split; [reflexivity|]. split; [constructor|].
      apply Forall_app. split; [|constructor].
      * eapply Forall_impl; [exact Hb|]. intros s' Hs'.
        apply (less_recent_trans_r _ y); [apply less_recent_weaken, Hs' | exact E].
      * exact E.
      * eapply Forall_impl; [exact Ha|]. intros s' Hs'.
        apply (less_recent_trans_r _ y); assumption.
    + apply compare_recent_gt in E.
      exists (x :: before), after. split; [reflexivity|]. split; [|exact Ha].
      constructor; assumption.
  - subst l. exists [], []. split; [reflexivity|]. split; constructor.
Qed.

(** X13.  The pilot session: [pickMostRecentSession] returns nothing for an
    empty list only, and otherwise a session of the list that none is more
    recent than (by update time, then creation time, a missing time
    counting as 0); among the sessions as recent as it, it is the first of
    the list. *)
Theorem pickMostRecentSession_most_recent (sessions : list SessionDetail.t) :
  match pickMostRecentSession sessions with
  | None => sessions = []
  | Some s =>
      exists before after,
        sessions = before ++ s :: after
        /\ Forall (fun s' => less_recent s' s) before
        /\ Forall (fun s' => at_most_as_recent s' s) after
  end.
Proof.
  unfold pickMostRecentSession.
  destruct sessions as [|x l]; [reflexivity|].
  cbn [length Nat.eqb]. apply (head_sort_recent (x :: l)).
Qed.

(** *** Notes and photos *)

Lemma dedup_first_id (seen xs : list string) :
  NoDup xs -> (forall x, In x xs -> ~ In x seen) -> dedup_first seen xs = xs.
Proof.
  revert seen. induction xs as [|a xs IH]; intros seen Hnd Hdis; simpl; [reflexivity|].
  apply NoDup_cons in Hnd as [Ha Hnd]. rewrite list_elem_of_In in Ha.
  assert (E : existsb (String.eqb a) seen = false).
  { destruct (existsb (String.eqb a) seen) eqn:E; [|reflexivity].
    apply existsb_string_In in E. exfalso. apply (Hdis a); [left; reflexivity | exact E]. }
  rewrite E. f_equal. apply IH; [exact Hnd|].
  intros x Hx [<- | Hs]; [contradiction|]. apply (Hdis x); [right; exact Hx | exact Hs].
Qed.

Lemma filter_ne_In (pid : string) (l : list string) (x : string) :
  In x (List.filter (fun x => negb (String.eqb x pid)) l) <-> In x l /\ x <> pid.
Proof.
  rewrite filter_In, negb_true_iff. destruct (String.eqb_spec x pid); intuition congruence.
Qed.

Lemma filter_ne_id (pid : string) (l : list string) :
  ~ In pid l -> List.filter (fun x => negb (String.eqb x pid)) l = l.
Proof.
  induction l as [|a l IH]; intros H; simpl; [reflexivity|].
  destruct (String.eqb_spec a pid) as [->|Hne]; simpl.
  - exfalso. apply H. left. reflexivity.
  - f_equal. apply IH. intros Hin. apply H. right. exact Hin.
Qed.

(** X14.  Clicking a photo in the note editor links it when it was not
    linked, at the end of the list, and unlinks it when it was; the other
    photos keep their link, and the list never holds a photo twice.  For a
    list without repetition, linking a photo and unlinking it again gives
    the list back. *)
Theorem toggleNotePhoto_flips (pid : string) (prev : list string) :
  NoDup (toggleNotePhoto pid prev)
  /\ (In pid (toggleNotePhoto pid prev) <-> ~ In pid prev)
  /\ (forall x, x <> pid -> In x (toggleNotePhoto pid prev) <-> In x prev)
  /\ (NoDup prev -> ~ In pid prev ->
      toggleNotePhoto pid prev = prev ++ [pid]
      /\ toggleNotePhoto pid (toggleNotePhoto pid prev) = prev).
Proof.
  unfold toggleNotePhoto at 1 2 3.
  destruct (includes (dedup_first [] prev) pid) eqn:E.
  - apply includes_In, dedup_first_In in E as [Hin _].
    split; [apply filter_NoDup_strings, dedup_first_NoDup|].
    split; [rewrite filter_ne_In; tauto|].
    split; [|tauto].
    intros x Hx. rewrite filter_ne_In, dedup_first_In. simpl. tauto.
  - apply includes_not_In in E. rewrite dedup_first_In in E.
    assert (Hn : ~ In pid prev) by (simpl in E; tauto).
    split.
    { apply (proj2 (NoDup_app _ _)). split; [apply dedup_first_NoDup|].
      split; [|apply NoDup_singleton].
      intros x Hx Hx'. apply list_elem_of_In in Hx'. destruct Hx' as [<-|[]].
      apply list_elem_of_In, dedup_first_In in Hx. tauto. }
    split; [rewrite in_app_iff; simpl; tauto|].
    split.
    { intros x Hx. rewrite in_app_iff, dedup_first_In. simpl. intuition congruence. }
    intros Hnd _. unfold toggleNotePhoto.
    rewrite (dedup_first_id [] prev Hnd) by (intros x _ []).
    assert (E1 : includes prev pid = false) by (apply includes_not_In; exact Hn).
    rewrite E1. split; [reflexivity|].
    assert (Hnd' : NoDup (prev ++ [pid])).
    { apply (proj2 (NoDup_app _ _)). split; [exact Hnd|]. split; [|apply NoDup_singleton].
      intros x Hx Hx'. apply list_elem_of_In in Hx'. destruct Hx' as [<-|[]].
      apply list_elem_of_In in Hx. contradiction. }
    rewrite (dedup_first_id [] _ Hnd') by (intros x _ []).
    assert (E2 : includes (prev ++ [pid]) pid = true).
    { apply includes_In. rewrite in_app_iff. right. left. reflexivity. }
    rewrite E2, List.filter_app, filter_ne_id by exact Hn.
    simpl. rewrite String.eqb_refl. simpl. apply app_nil_r.
Qed.

Lemma is_included_insert (m : gmap string bool) (k : string) (v : bool) (id : string) :
  is_included (<[k := v]> m) id = if String.eqb k id then v else is_included m id.
Proof.
  unfold is_included. destruct (String.eqb_spec k id) as [->|Hne].
  - rewrite lookup_insert_eq. destruct v; reflexivity.
  - rewrite lookup_insert_ne by exact Hne. reflexivity.
Qed.

Lemma toggled_value (m : gmap string bool) (k : string) :
  (if bool_decide (m !! k = Some false) then true else false) = negb (is_included m k).
Proof. unfold is_included. destruct (bool_decide (m !! k = Some false)); reflexivity. Qed.

(** X15.  The "include in the report" box of a photo: a click inverts the
    inclusion of that photo and of no other, two clicks give the list of
    included photos back, and each click sends one draft with the new
    inclusion, unless the page has no session id, in which case nothing is
    sent. *)
Theorem toggleInclude_flips (res res' : outcome (response unit))
    (chantierPhotoIdMap : gmap string Origin.t) (photoId : string) (st : Page.t) :
  let st' := fst (toggleInclude res chantierPhotoIdMap photoId st) in
  let evs := snd (toggleInclude res chantierPhotoIdMap photoId st) in
  (forall id, is_included (Page.includeMap st') id
              = if String.eqb photoId id then negb (is_included (Page.includeMap st) id)
                else is_included (Page.includeMap st) id)
  /\ includedPhotoIds (fst (toggleInclude res' chantierPhotoIdMap photoId st'))
     = includedPhotoIds st
  /\ (effectiveSessionId st = "" -> evs = [])
  /\ (effectiveSessionId st <> "" ->
      exists r, evs = Fetch r :: match res with
                                 | Rejected _ => [Console LogWarn]
                                 | Resolved _ => []
                                 end
                /\ meth r = POST
                /\ body r = Some (VObj {[ "include_in_report" :=
                                            VBool (negb (is_included (Page.includeMap st)
                                                                     photoId)) ]})).
Proof.
  cbv zeta. unfold toggleInclude. cbn [fst snd setIncludeMap Page.includeMap].
  assert (H1 : forall id,
             is_included
               (<[photoId := if bool_decide (Page.includeMap st !! photoId = Some false)
                             then true else false]> (Page.includeMap st)) id
             = if String.eqb photoId id then negb (is_included (Page.includeMap st) id)
               else is_included (Page.includeMap st) id).
  { intros id. rewrite is_included_insert, toggled_value.
    destruct (String.eqb_spec photoId id) as [->|]; reflexivity. }
  split; [exact H1|]. split; [|split].
  - unfold includedPhotoIds, photos. cbn [Page.includeMap Page.detail setIncludeMap].
    apply List.filter_ext. intros id.
    rewrite is_included_insert, toggled_value.
    destruct (String.eqb_spec photoId id) as [->|Hne]; rewrite H1.
    + rewrite String.eqb_refl. apply negb_involutive.
    + apply String.eqb_neq in Hne. rewrite Hne. reflexivity.
  - intros Hsid. unfold saveIncludeDraft. rewrite Hsid. reflexivity.
  - intros Hsid. unfold saveIncludeDraft.
    apply truthy_true in Hsid. rewrite Hsid. cbn [negb].
    eexists. split; [reflexivity|]. split; [reflexivity|]. cbn [body].
    rewrite H1, String.eqb_refl. reflexivity.
Qed.

(** X16.  On a chantier with several sessions, the draft of a photo goes to
    the session and the photo it comes from: for every photo that
    [buildChantierAggregatedPhotos] lists, a click on its box posts the
    draft to [/sessions/<origin session>/photos/<origin photo>/draft]. *)
Theorem toggleInclude_targets_origin (sessions : list SessionDetail.t) (agg : Aggregated.t)
    (res : outcome (response unit)) (out : SessionPhoto.t) (st : Page.t) :
  (forall s, In s sessions ->
     SessionDetail.session_id s <> ""
     /\ forall p, In p (SessionDetail.photos s) -> SessionPhoto.id p <> "") ->
  buildChantierAggregatedPhotos sessions = Some agg ->
  In out (Aggregated.photos agg) ->
  effectiveSessionId st <> "" ->
  exists sid pid,
    SessionPhoto.__session_id out = Some sid
    /\ SessionPhoto.__photo_id out = Some pid
    /\ snd (toggleInclude res (Aggregated.idMap agg) (SessionPhoto.id out) st)
       = Fetch {| meth := POST; to := Api;
                  path := "/sessions/" +:+ encodeURIComponent sid +:+ "/photos/"
                          +:+ encodeURIComponent pid +:+ "/draft";
                  body := Some (VObj {[ "include_in_report" :=
                                          VBool (negb (is_included (Page.includeMap st)
                                                                   (SessionPhoto.id out))) ]}) |}
         :: match res with
            | Rejected _ => [Console LogWarn]
            | Resolved _ => []
            end.
Proof.
  intros Hok Hrun Hin Hsid.
  pose proof (AggregationFacts.sort_Permutation compare_sessions sessions) as Hperm.
  destruct (AggregationFacts.add_sessions_invariant (sort compare_sessions sessions)) with
    (acc := {| Aggregated.photos := []; Aggregated.idMap := ∅ |})
    (os := @nil (string * SessionPhoto.t))
    as (agg' & Hrun' & [Hent _ Hback _ _]).
  { intros s Hs. apply Hok. apply list_elem_of_In. rewrite <- Hperm.
    apply list_elem_of_In. exact Hs. }
  { apply AggregationFacts.invariant_empty. }
  unfold buildChantierAggregatedPhotos in Hrun. rewrite Hrun in Hrun'.
  injection Hrun' as <-. simpl in Hent.
  destruct (Hback out Hin) as (o & Hmap & Hs & Hp).
  assert (Hne : Origin.session_id o <> "" /\ Origin.photo_id o <> "").
  { apply list_elem_of_In, list_elem_of_lookup_1 in Hin as [i Hi].
    destruct (Forall2_lookup_l _ _ _ _ _ Hent Hi) as (orig & Horig & Hentry).
    apply list_elem_of_lookup_2, list_elem_of_In in Horig.
    unfold origins in Horig. apply in_flat_map in Horig as (s0 & Hs0 & Horig).
    apply in_map_iff in Horig as (p0 & <- & Hp0).
    destruct (Hok s0) as [Hsid0 Hpid0].
    { apply list_elem_of_In. rewrite <- Hperm. apply list_elem_of_In. exact Hs0. }
    destruct Hentry as (Es & Ep & _). simpl in Es, Ep.
    rewrite Hs in Es. rewrite Hp in Ep. injection Es as ->. injection Ep as ->.
    split; [exact Hsid0 | apply Hpid0, Hp0]. }
  exists (Origin.session_id o), (Origin.photo_id o).
  split; [exact Hs|]. split; [exact Hp|].
  unfold toggleInclude, saveIncludeDraft. cbn [snd].
  apply truthy_true in Hsid. rewrite Hsid. cbn [negb]. rewrite Hmap.
  destruct Hne as [Hns Hnp]. apply truthy_true in Hns, Hnp.
  unfold or_else. rewrite Hns, Hnp.
  rewrite is_included_insert, String.eqb_refl, toggled_value. reflexivity.
Qed.

Lemma toggleInclude_targets_origin_witness :
  let photo := {| SessionPhoto.id := "p1"; SessionPhoto.url := "https://img/p1.jpg";
                  SessionPhoto.timestamp := None; SessionPhoto.__session_id := None;
                  SessionPhoto.__photo_id := None |} in
  let session (sid : string) :=
    {| SessionDetail.session_id := sid; SessionDetail.status := None;
       SessionDetail.created_at := None; SessionDetail.updated_at := None;
       SessionDetail.photos := [photo] |} in
  let st := {| Page.key := "CH-7"; Page.loadedSessionId := "s2"; Page.detail := None;
               Page.chantier := None;
               Page.chantierMeta := {| ChantierMeta.kind := Some ChantierMeta.chantier;
                                       ChantierMeta.chantier_id := Some "CH-7";
                                       ChantierMeta.session_count := 2;
                                       ChantierMeta.session_ids := ["s1"; "s2"] |};
               Page.includeMap := ∅; Page.author := "Xavier PERGE";
               Page.publishing := false; Page.toast := None; Page.notes := [];
               Page.activeNoteId := None; Page.noteText := "";
               Page.notePhotos := []; Page.selectedAssetId := None |} in
  exists agg,
    buildChantierAggregatedPhotos [session "s1"; session "s2"] = Some agg
    /\ map path
         (omap (fun e => match e with Fetch r => Some r | _ => None end)
               (snd (toggleInclude (Rejected "offline") (Aggregated.idMap agg) "s1__p1" st)))
       = ["/sessions/s1/photos/p1/draft"].
Proof.
  intros photo session st.
  destruct (buildChantierAggregatedPhotos [session "s1"; session "s2"]) as [agg|] eqn:Hrun;
    [|vm_compute in Hrun; discriminate].
  exists agg. split; [reflexivity|].
  destruct (toggleInclude_targets_origin [session "s1"; session "s2"] agg (Rejected "offline")
              {| SessionPhoto.id := "s1__p1"; SessionPhoto.url := "https://img/p1.jpg";
                 SessionPhoto.timestamp := None; SessionPhoto.__session_id := Some "s1";
                 SessionPhoto.__photo_id := Some "p1" |} st)
    as (sid & pid & Hs & Hp & Hev).
  - intros s [<- | [<- | []]]; (split; [discriminate|]);
      intros p [<- | []]; discriminate.
  - exact Hrun.
  - vm_compute in Hrun. injection Hrun as <-. left. reflexivity.
  - discriminate.
  - cbn [SessionPhoto.id SessionPhoto.__session_id SessionPhoto.__photo_id] in Hs, Hp, Hev.
    injection Hs as <-. injection Hp as <-. rewrite Hev. reflexivity.
Defined.

Lemma filter_keeps_others (id : string) (notes : list SavNote.t) (n : SavNote.t) :
  In n (List.filter (fun n => negb (String.eqb (SavNote.id n) id)) notes)
  <-> In n notes /\ SavNote.id n <> id.
Proof.
  rewrite filter_In, negb_true_iff.
  destruct (String.eqb_spec (SavNote.id n) id); intuition congruence.
Qed.

Lemma filter_other_ids (id : string) (notes : list SavNote.t) :
  ~ In id (map SavNote.id notes) ->
  List.filter (fun n => negb (String.eqb (SavNote.id n) id)) notes = notes.
Proof.
  induction notes as [|n notes IH]; intros H; simpl; [reflexivity|].
  destruct (String.eqb_spec (SavNote.id n) id) as [E|Hne]; simpl.
  - exfalso. apply H. left. exact E.
  - f_equal. apply IH. intros Hin. apply H. right. exact Hin.
Qed.

(** X17.  Deleting a note removes the notes of that id and keeps the
    others, in their order; the editor is emptied when it was on that note
    (no active note, no text, no selected visual, the first three included
    photos proposed) and left as it was otherwise; the photos, the
    inclusion map and the chantier are not touched, and the toast announces
    the deletion. *)
Theorem deleteNote_removes (id : string) (st : Page.t) :
  let st' := deleteNote id st in
  (forall n, In n (Page.notes st') <-> In n (Page.notes st) /\ SavNote.id n <> id)
  /\ Page.notes st'
     = List.filter (fun n => negb (String.eqb (SavNote.id n) id)) (Page.notes st)
  /\ (Page.activeNoteId st = Some id ->
      Page.activeNoteId st' = None /\ Page.noteText st' = ""
      /\ Page.selectedAssetId st' = None
      /\ Page.notePhotos st' = take 3 (includedPhotoIds st))
  /\ (Page.activeNoteId st <> Some id ->
      Page.activeNoteId st' = Page.activeNoteId st /\ Page.noteText st' = Page.noteText st
      /\ Page.selectedAssetId st' = Page.selectedAssetId st
      /\ Page.notePhotos st' = Page.notePhotos st)
  /\ Page.toast st' = Some {| type := success; message := "Note supprimée." |}
  /\ (Page.detail st', Page.includeMap st', Page.chantier st')
     = (Page.detail st, Page.includeMap st, Page.chantier st).
Proof.
  cbv zeta. unfold deleteNote.
  destruct (bool_decide (Page.activeNoteId st = Some id)) eqn:E.
  - apply bool_decide_eq_true in E.
    split; [intros n; apply filter_keeps_others|]. split; [reflexivity|].
    split; [|split; [congruence | split; reflexivity]].
    intros _. split; [reflexivity|]. split; [reflexivity|]. split; [reflexivity|].
    cbn. unfold includedPhotoIds, photos. cbn.
    destruct (List.filter _ _); reflexivity.
  - apply bool_decide_eq_false in E.
    split; [intros n; apply filter_keeps_others|]. split; [reflexivity|].
    split; [congruence|]. split; [|split; reflexivity].
    intros _. repeat split.
Qed.

(** X18.  A note that has just been created can be deleted without trace:
    when no note is being edited, the text is not blank and the generated
    id is not in use, [upsertNote] makes the new note the active one, and
    deleting it gives the list of notes back and empties the editor. *)
Theorem deleteNote_after_create (clock : Clock.t) (st : Page.t) :
  truthy_id (Page.activeNoteId st) = None ->
  trim (Page.noteText st) <> "" ->
  ~ In (uid "note" clock) (map SavNote.id (Page.notes st)) ->
  let created := upsertNote clock st in
  Page.activeNoteId created = Some (uid "note" clock)
  /\ length (Page.notes created) = S (length (Page.notes st))
  /\ Page.notes (deleteNote (uid "note" clock) created) = Page.notes st
  /\ Page.activeNoteId (deleteNote (uid "note" clock) created) = None
  /\ Page.noteText (deleteNote (uid "note" clock) created) = "".
Proof.
  intros Hact Htext Hfresh. cbv zeta.
  assert (Hup : upsertNote clock st
                = Page.setToast
                    (Page.setSelectedAssetId
                       (Page.setActiveNoteId
                          (Page.setNotes st
                             ({| SavNote.id := uid "note" clock; SavNote.title := None;
                                 SavNote.text := trim (or_else (Page.noteText st) "");
                                 SavNote.photo_ids := cleanedPhotos (Page.notePhotos st);
                                 SavNote.assets := Some [];
                                 SavNote.updated_at := Some (Clock.now_ms clock / 1000)%N;
                                 SavNote.created_at := Some (Clock.now_ms clock / 1000)%N |}
                              :: Page.notes st))
                          (Some (uid "note" clock))) None)
                    (toast_of success "Note SAV créée.")).
  { unfold upsertNote. rewrite or_else_empty_r.
    apply truthy_true in Htext. rewrite Htext. cbn [negb]. rewrite Hact. reflexivity. }
  rewrite Hup. cbn [Page.activeNoteId Page.notes Page.setToast Page.setSelectedAssetId
                    Page.setActiveNoteId Page.setNotes length].
  split; [reflexivity|]. split; [reflexivity|].
  unfold deleteNote.
  cbn [Page.activeNoteId Page.notes Page.setToast Page.setSelectedAssetId
       Page.setActiveNoteId Page.setNotes].
  rewrite bool_decide_eq_true_2 by reflexivity.
  cbn [List.filter SavNote.id]. rewrite String.eqb_refl. cbn [negb].
  split; [|split; reflexivity].
  cbn. apply filter_other_ids, Hfresh.
Qed.

Lemma deleteNote_after_create_witness :
  let clock := {| Clock.now_ms := 1700000000123; Clock.uid_random_hex := "8f3a2c";
                  Clock.uid_now_ms := 1700000000124 |} in
  let old := {| SavNote.id := "note_1"; SavNote.title := None; SavNote.text := "Ancien texte";
                SavNote.photo_ids := []; SavNote.assets := Some [];
                SavNote.updated_at := Some 1690000000%N;
                SavNote.created_at := Some 1690000000%N |} in
  let st := {| Page.key := "s1"; Page.loadedSessionId := "s1"; Page.detail := None;
               Page.chantier := None;
               Page.chantierMeta := {| ChantierMeta.kind := None;
                                       ChantierMeta.chantier_id := None;
                                       ChantierMeta.session_count := 0;
                                       ChantierMeta.session_ids := [] |};
               Page.includeMap := ∅; Page.author := "Xavier PERGE";
               Page.publishing := false; Page.toast := None; Page.notes := [old];
               Page.activeNoteId := None; Page.noteText := "Purger le circuit";
               Page.notePhotos := []; Page.selectedAssetId := None |} in
  map SavNote.id (Page.notes (upsertNote clock st)) = ["note_8f3a2c_18bcfe5687c"; "note_1"]
  /\ Page.notes (deleteNote "note_8f3a2c_18bcfe5687c" (upsertNote clock st)) = [old].
Proof.
  intros clock old st. split; [reflexivity|].
  change "note_8f3a2c_18bcfe5687c" with (uid "note" clock).
  refine (proj1 (proj2 (proj2 (deleteNote_after_create clock st _ _ _)))).
  - reflexivity.
  - discriminate.
  - simpl. intros [H|[]]. discriminate.
Defined.

(** The DELETE request of a note visual did not go through. *)
Lemma deleteNoteAsset_failed (res : outcome (response unit)) (noteId assetId : string)
    (st : Page.t) :
  effectiveSessionId st <> "" ->
  (forall r, res = Resolved r -> ok r = false) ->
  exists message,
    fst (deleteNoteAsset res noteId assetId st)
    = Page.setToast st (error_toast message "Erreur suppression visuel.").
Proof.
  intros Hsid Hbad. unfold deleteNoteAsset.
  apply truthy_true in Hsid. rewrite Hsid. cbn [negb].
  destruct res as [r|m]; [|eexists; reflexivity].
  rewrite (Hbad r eq_refl). cbn [negb].
  destruct (text r); eexists; reflexivity.
Qed.

(** X19.  Deleting a visual of a note.  When the server refuses or cannot
    be reached, the notes and the selected visual stay as they are and an
    error is shown.  When it accepts, the notes of that id lose the visual
    and nothing else, the other notes are untouched, and the selected
    visual is never left on the one that was deleted. *)
Theorem deleteNoteAsset_outcome (res : outcome (response unit)) (noteId assetId : string)
    (st : Page.t) :
  effectiveSessionId st <> "" ->
  let st' := fst (deleteNoteAsset res noteId assetId st) in
  ((forall r, res = Resolved r -> ok r = false) ->
   Page.notes st' = Page.notes st
   /\ Page.selectedAssetId st' = Page.selectedAssetId st
   /\ exists message, Page.toast st' = Some {| type := error; message := message |})
  /\ ((exists r, res = Resolved r /\ ok r = true) ->
      Forall2
        (fun n n' =>
           if String.eqb (SavNote.id n) noteId then
             SavNote.id n' = SavNote.id n /\ SavNote.text n' = SavNote.text n
             /\ SavNote.photo_ids n' = SavNote.photo_ids n
             /\ SavNote.assets n'
                = Some (List.filter
                          (fun a => negb (String.eqb (NoteAsset.asset_id a) assetId))
                          (default [] (SavNote.assets n)))
           else n' = n)
        (Page.notes st) (Page.notes st')
      /\ Page.selectedAssetId st' <> Some assetId
      /\ Page.toast st' = Some {| type := success; message := "Visuel supprimé." |}).
Proof.
  intros Hsid. cbv zeta. split.
  - intros Hbad.
    destruct (deleteNoteAsset_failed res noteId assetId st Hsid Hbad) as (m & ->).
    cbn. split; [reflexivity|]. split; [reflexivity|]. eexists. reflexivity.
  - intros (r & -> & Hok). unfold deleteNoteAsset.
    apply truthy_true in Hsid. rewrite Hsid, Hok. cbn [negb fst].
    cbn [Page.notes Page.selectedAssetId Page.toast Page.setToast Page.setSelectedAssetId
         Page.setNotes].
    split; [|split; [|reflexivity]].
    + induction (Page.notes st) as [|n notes IH]; [constructor|].
      cbn [map]. constructor; [|exact IH].
      destruct (String.eqb (SavNote.id n) noteId); cbn [negb]; [|reflexivity].
      repeat split.
    + destruct (bool_decide (Page.selectedAssetId st = Some assetId)) eqn:E; cbn [negb].
      * destruct (find _ (Page.notes st)) as [n|]; [|discriminate].
        destruct (List.filter _ _) as [|a rest] eqn:F; [discriminate|].
        assert (Ha : In a (List.filter
                             (fun a => negb (String.eqb (NoteAsset.asset_id a) assetId))
                             (default [] (SavNote.assets n)))).
        { rewrite F. left. reflexivity. }
        apply filter_In in Ha as [_ Ha]. apply negb_true_iff, String.eqb_neq in Ha.
        unfold truthy_id. destruct (truthy (NoteAsset.asset_id a)); congruence.
      * apply bool_decide_eq_false in E. exact E.
Qed.

Lemma deleteNoteAsset_outcome_witness :
  let visual (aid : string) :=
    {| NoteAsset.asset_id := aid; NoteAsset.filename := None; NoteAsset.asset_url := None |} in
  let note := {| SavNote.id := "note_1"; SavNote.title := None; SavNote.text := "Purger";
                 SavNote.photo_ids := []; SavNote.assets := Some [visual "a1"; visual "a2"];
                 SavNote.updated_at := None; SavNote.created_at := None |} in
  let st := {| Page.key := "s1"; Page.loadedSessionId := "s1"; Page.detail := None;
               Page.chantier := None;
               Page.chantierMeta := {| ChantierMeta.kind := None;
                                       ChantierMeta.chantier_id := None;
                                       ChantierMeta.session_count := 0;
                                       ChantierMeta.session_ids := [] |};
               Page.includeMap := ∅; Page.author := "Xavier PERGE";
               Page.publishing := false; Page.toast := None; Page.notes := [note];
               Page.activeNoteId := Some "note_1"; Page.noteText := "Purger";
               Page.notePhotos := []; Page.selectedAssetId := Some "a1" |} in
  let accepted :=
    Resolved {| ok := true; status := 200; text := Resolved ""; json := Resolved tt |} in
  Page.selectedAssetId (fst (deleteNoteAsset accepted "note_1" "a1" st)) = Some "a2"
  /\ Page.selectedAssetId (fst (deleteNoteAsset accepted "note_1" "a1" st)) <> Some "a1"
  /\ Page.notes (fst (deleteNoteAsset (Rejected "offline") "note_1" "a1" st)) = [note].
Proof.
  intros visual note st accepted.
  split; [reflexivity|]. split.
  - refine (proj1 (proj2 (proj2 (deleteNoteAsset_outcome accepted "note_1" "a1" st _) _))).
    + discriminate.
    + eexists. split; reflexivity.
  - refine (proj1 (proj1 (deleteNoteAsset_outcome (Rejected "offline") "note_1" "a1" st _) _)).
    + discriminate.
    + intros r [=].
Defined.

(** *** The context of the chantier *)

Lemma str_or_null_merged (bm : gmap string value) (k x : string) :
  merged bm k (str_or_null x) = str_or_null x.
Proof. unfold str_or_null, merged. destruct (truthy x); reflexivity. Qed.

Lemma context_patch_lookup (d : ContextDraft.t) :
  exists context : gmap string value,
    context_patch d = VObj {[ "context" := VObj context ]}
    /\ context !! "reference_chantier"
       = Some (str_or_null (ContextDraft.draftReferenceChantier d))
    /\ (forall k, k <> "installateur" -> k <> "reference_chantier" -> k <> "produit" ->
                  context !! k = None).
Proof.
  unfold context_patch. eexists. split; [reflexivity|]. split.
  - rewrite lookup_insert_ne by discriminate. rewrite lookup_insert_eq. reflexivity.
  - intros k H1 H2 H3. rewrite !lookup_insert_ne by congruence.
    apply lookup_singleton_ne. congruence.
Qed.

(** X20.  Saving the context of a chantier sends one PATCH with the patch
    of the form, then always closes the form and shows "Contexte
    enregistré.", also when the server refused or could not be reached; in
    that case the local chantier is unchanged.  When the server accepts,
    the patch is merged into the local chantier: the keys beside [context]
    stay, the chantier reference is the one of the form (null when empty),
    and the other entries of an existing context, such as the serial number
    and the description, are kept. *)
Theorem saveEditContext_outcome (res : outcome (response unit)) (d : ContextDraft.t)
    (st : Page.t) (cid : string) :
  ChantierMeta.kind (Page.chantierMeta st) = Some ChantierMeta.chantier ->
  ChantierMeta.chantier_id (Page.chantierMeta st) = Some cid ->
  cid <> "" ->
  let st' := fst (fst (saveEditContext res d st)) in
  let d' := snd (fst (saveEditContext res d st)) in
  let evs := snd (saveEditContext res d st) in
  Page.toast st' = Some {| type := success; message := "Contexte enregistré." |}
  /\ ContextDraft.isEditingContext d' = false
  /\ (exists rest,
        evs = Fetch {| meth := PATCH; to := Api;
                       path := "/chantiers/" +:+ encodeURIComponent cid;
                       body := Some (context_patch d) |} :: rest
        /\ only_logs rest)
  /\ ((forall r, res = Resolved r -> ok r = false) -> Page.chantier st' = Page.chantier st)
  /\ ((exists r, res = Resolved r /\ ok r = true) ->
      forall prev, Page.chantier st = Some prev ->
      exists next,
        Page.chantier st' = Some next
        /\ (forall k, k <> "context" -> next !! k = prev !! k)
        /\ get_in (get next "context") "reference_chantier"
           = str_or_null (ContextDraft.draftReferenceChantier d)
        /\ (forall ctx k,
              prev !! "context" = Some (VObj ctx) ->
              k <> "installateur" -> k <> "reference_chantier" -> k <> "produit" ->
              get_in (get next "context") k = get ctx k)).
Proof.
  intros Hkind Hcid Hne. cbv zeta.
  assert (Hmode : isChantierMode st = true).
  { unfold isChantierMode. rewrite Hkind, Hcid. apply truthy_true, Hne. }
  assert (Htid : truthy_id (ChantierMeta.chantier_id (Page.chantierMeta st)) = Some cid).
  { rewrite Hcid. unfold truthy_id. apply truthy_true in Hne. rewrite Hne. reflexivity. }
  unfold saveEditContext. rewrite Hmode, Hcid. cbn [negb truthy_opt orb].
  assert (Ht : truthy cid = true) by (apply truthy_true, Hne).
  rewrite Ht. cbn [negb]. unfold patchChantier. rewrite Htid.
  destruct res as [r|m].
  - destruct (ok r) eqn:Hok; cbn [negb].
    + cbn [fst snd Page.toast Page.setToast Page.chantier Page.setChantier
           ContextDraft.isEditingContext ContextDraft.setIsEditingContext].
      split; [reflexivity|]. split; [reflexivity|].
      split; [exists []; split; [reflexivity | constructor]|].
      split; [intros Hbad; specialize (Hbad r eq_refl); congruence|].
      intros _ prev Hprev. rewrite Hprev. cbn [option_map].
      destruct (context_patch_lookup d) as (context & Hpatch & Href & Hnone).
      rewrite Hpatch.
      exists (deepMerge prev (VObj {[ "context" := VObj context ]})).
      split; [reflexivity|]. split; [|split].
      * intros k Hk. rewrite DeepMergeFacts.deepMerge_object_lookup_gen.
        rewrite lookup_singleton_ne by congruence. reflexivity.
      * unfold get at 1. rewrite DeepMergeFacts.deepMerge_object_lookup by discriminate.
        rewrite lookup_singleton_eq. cbn [default from_option id]. unfold merged.
        destruct (prev !! "context") as [[| | | | | |bm]|]; cbn [get_in]; unfold get;
          rewrite ?DeepMergeFacts.deepMerge_object_lookup by discriminate;
          rewrite Href; cbn [default from_option id];
          first [reflexivity | apply str_or_null_merged].
      * intros ctx k Hctx H1 H2 H3.
        unfold get at 1. rewrite DeepMergeFacts.deepMerge_object_lookup by discriminate.
        rewrite lookup_singleton_eq. cbn [default from_option id]. unfold merged. rewrite Hctx.
        cbn [get_in]. unfold get.
        rewrite DeepMergeFacts.deepMerge_object_lookup_gen, (Hnone k H1 H2 H3). reflexivity.
    + destruct (text r) as [txt|m];
        cbn [fst snd Page.toast Page.setToast Page.chantier
             ContextDraft.isEditingContext ContextDraft.setIsEditingContext];
        (split; [reflexivity|]; split; [reflexivity|];
         split; [exists [Console LogError]; split; [reflexivity|];
                 constructor; [eexists; reflexivity | constructor]|];
         split; [reflexivity|]; intros (r' & [= <-] & Hok'); congruence).
  - cbn [fst snd Page.toast Page.setToast Page.chantier
         ContextDraft.isEditingContext ContextDraft.setIsEditingContext].
    split; [reflexivity|]. split; [reflexivity|].
    split; [exists [Console LogError]; split; [reflexivity|];
            constructor; [eexists; reflexivity | constructor]|].
    split; [reflexivity|]. intros (r' & [=] & _).
Qed.

Lemma saveEditContext_outcome_witness :
  let st := {| Page.key := "CH-7"; Page.loadedSessionId := "s2"; Page.detail := None;
               Page.chantier :=
                 Some {[ "status" := VStr "A_TRAITER";
                         "context" := VObj {[ "numero_serie" := VStr "SN-42";
                                              "reference_chantier" := VStr "Ancienne" ]} ]};
               Page.chantierMeta := {| ChantierMeta.kind := Some ChantierMeta.chantier;
                                       ChantierMeta.chantier_id := Some "CH-7";
                                       ChantierMeta.session_count := 2;
                                       ChantierMeta.session_ids := ["s1"; "s2"] |};
               Page.includeMap := ∅; Page.author := "Xavier PERGE";
               Page.publishing := false; Page.toast := None; Page.notes := [];
               Page.activeNoteId := None; Page.noteText := "";
               Page.notePhotos := []; Page.selectedAssetId := None |} in
  let d := {| ContextDraft.isEditingContext := true;
              ContextDraft.draftInstallerName := "Ada";
              ContextDraft.draftInstallerCompany := "";
              ContextDraft.draftInstallerPhone := "+33612345678";
              ContextDraft.draftReferenceChantier := "Villa Rose";
              ContextDraft.draftProductCode := ""; ContextDraft.products := [] |} in
  Page.toast (fst (fst (saveEditContext (Rejected "offline") d st)))
  = Some {| type := success; message := "Contexte enregistré." |}
  /\ Page.chantier (fst (fst (saveEditContext (Rejected "offline") d st))) = Page.chantier st.
Proof.
  intros st d.
  destruct (saveEditContext_outcome (Rejected "offline") d st "CH-7")
    as (Htoast & _ & _ & Hsame & _); [reflexivity | reflexivity | discriminate |].
  split; [exact Htoast | apply Hsame; intros r [=]].
Defined.

(** *** Generated ids *)

Lemma to_hex_inj (n m : N) : to_hex n = to_hex m -> n = m.
Proof.
  unfold to_hex. intros H.
  assert (Hnil : forall k, N.to_hex_uint k <> Hexadecimal.Nil).
  { intros [|p]; [discriminate | apply HexadecimalPos.Unsigned.to_uint_nonnil]. }
  apply (f_equal HexadecimalString.NilZero.uint_of_string) in H.
  rewrite !HexadecimalString.NilZero.usu in H by apply Hnil.
  injection H as H. apply HexadecimalN.Unsigned.to_uint_inj, H.
Qed.

Lemma is_hex_no_underscore (s : string) :
  all_chars is_hex s = true -> all_chars (other_than "_") s = true.
Proof.
  induction s as [|c s IH]; [reflexivity|]. simpl.
  intros H. apply andb_true_iff in H as [Hc Hs]. rewrite (IH Hs), andb_true_r.
  unfold other_than. destruct (Ascii.eqb_spec c "_") as [->|]; [|reflexivity].
  vm_compute in Hc. discriminate.
Qed.

(** X21.  The ids that [uid] generates tell their readings apart: with the
    same prefix, two ids are equal only if both the random digits and the
    time in milliseconds are the same.  (The random part is made of
    hexadecimal digits, as [Math.random().toString(16).slice(2)] is.) *)
Theorem uid_injective (prefix : string) (c1 c2 : Clock.t) :
  all_chars is_hex (Clock.uid_random_hex c1) = true ->
  all_chars is_hex (Clock.uid_random_hex c2) = true ->
  uid prefix c1 = uid prefix c2 ->
  Clock.uid_random_hex c1 = Clock.uid_random_hex c2
  /\ Clock.uid_now_ms c1 = Clock.uid_now_ms c2.
Proof.
  intros H1 H2 E. unfold uid in E.
  apply (inj (String.app prefix)) in E.
  apply (inj (String.app "_")) in E.
  apply (f_equal (cut_at "_")) in E.
  change (Clock.uid_random_hex c1 +:+ "_" +:+ to_hex (Clock.uid_now_ms c1))
    with (Clock.uid_random_hex c1 +:+ String "_" (to_hex (Clock.uid_now_ms c1))) in E.
  change (Clock.uid_random_hex c2 +:+ "_" +:+ to_hex (Clock.uid_now_ms c2))
    with (Clock.uid_random_hex c2 +:+ String "_" (to_hex (Clock.uid_now_ms c2))) in E.
  rewrite !UrlFacts.cut_at_app in E by (apply is_hex_no_underscore; assumption).
  injection E as Er Et. split; [exact Er | apply to_hex_inj, Et].
Qed.

Lemma uid_injective_witness :
  let c1 := {| Clock.now_ms := 1700000000123; Clock.uid_random_hex := "8f3a2c";
               Clock.uid_now_ms := 1700000000124 |} in
  let c2 := {| Clock.now_ms := 1700000000123; Clock.uid_random_hex := "8f3a2c";
               Clock.uid_now_ms := 1700000000125 |} in
  uid "note" c1 = "note_8f3a2c_18bcfe5687c" /\ uid "note" c1 <> uid "note" c2.
Proof.
  intros c1 c2. split; [reflexivity|].
  intros E. destruct (uid_injective "note" c1 c2) as [_ Ht]; [reflexivity | reflexivity | exact E |].
  discriminate Ht.
Defined.

(** *** Publishing *)

(** X22.  What [handlePublish] sends.  It sends nothing, or one POST to
    the API, or that POST followed by one notification to the webhook, and
    nothing else.  The notification is sent only when the publish request
    went through: when it is sent the toast announces the publication, and
    when the publish request was sent alone the toast is an error and the
    session detail and the chantier are left as they were.  The
    [publishing] flag is never left raised. *)
Theorem handlePublish_requests (env : PublishEnv.t) (st : Page.t) :
  let st' := fst (handlePublish env st) in
  let sent := requests (snd (handlePublish env st)) in
  (Page.publishing st = false -> Page.publishing st' = false)
  /\ (sent = []
      \/ (exists p m,
            sent = [p] /\ meth p = POST /\ to p = Api
            /\ Page.toast st' = Some {| type := error; message := m |}
            /\ Page.detail st' = Page.detail st /\ Page.chantier st' = Page.chantier st)
      \/ (exists p n m,
            sent = [p; n] /\ meth p = POST /\ to p = Api /\ meth n = POST /\ to n = Webhook
            /\ Page.toast st' = Some {| type := success; message := m |})).
Proof.
  cbv zeta. unfold handlePublish.
  destruct (Page.detail st) as [detail|] eqn:Hd; [|split; [tauto | left; reflexivity]].
  destruct (if isChantierMode st
            then truthy_id (ChantierMeta.chantier_id (Page.chantierMeta st)) else None)
    as [cid|].
  - destruct (PublishEnv.chantier_publish env) as [r|m].
    + destruct (ok r); cbn [negb].
      * destruct (json r) as [data|m].
        -- split; [reflexivity|]. right. right. cbn [fst snd].
           cbn [app]. rewrite !requests_fetch.
           rewrite (requests_logs _ (PublishFacts.chantier_notify_log_only_logs _)).
           do 3 eexists. repeat (split; [reflexivity|]). reflexivity.
        -- split; [reflexivity|]. right. left. do 2 eexists. cbn.
           repeat (split; [reflexivity|]). rewrite Hd. split; reflexivity.
      * destruct (text r); (split; [reflexivity|]); right; left; do 2 eexists; cbn;
          repeat (split; [reflexivity|]); rewrite Hd; split; reflexivity.
    + split; [reflexivity|]. right. left. do 2 eexists. cbn.
      repeat (split; [reflexivity|]). rewrite Hd. split; reflexivity.
  - destruct (isMultiSessionChantier st); [split; [cbn; tauto | left; reflexivity]|].
    destruct (truthy (effectiveSessionId st)); cbn [negb];
      [|split; [tauto | left; reflexivity]].
    destruct (length (included_photos st detail) =? 0)%nat;
      [split; [cbn; tauto | left; reflexivity]|].
    destruct (PublishEnv.session_publish env) as [r|m].
    + destruct (ok r); cbn [negb].
      * destruct (json r) as [updated|m].
        -- split; [reflexivity|]. right. right. cbn [fst snd].
           cbn [app]. rewrite !requests_fetch.
           rewrite (requests_logs _ (PublishFacts.session_notify_log_only_logs _)).
           do 3 eexists. repeat (split; [reflexivity|]). reflexivity.
        -- split; [reflexivity|]. right. left. do 2 eexists. cbn.
           repeat (split; [reflexivity|]). rewrite Hd. split; reflexivity.
      * destruct (text r); (split; [reflexivity|]); right; left; do 2 eexists; cbn;
          repeat (split; [reflexivity|]); rewrite Hd; split; reflexivity.
    + split; [reflexivity|]. right. left. do 2 eexists. cbn.
      repeat (split; [reflexivity|]). rewrite Hd. split; reflexivity.
Qed.

End SavDetailEditFacts.

(** ** More of JavaScript strings *)

Module JsStringOpsFacts.

Import JsString JsStringOps JsStringFacts.


Lemma lower_char_idem (c : ascii) : lower_char (lower_char c) = lower_char c.
Proof. by_char c. Qed.

Lemma toLowerCase_idem (s : string) : toLowerCase (toLowerCase s) = toLowerCase s.
Proof. induction s as [|c s IH]; simpl; [reflexivity|]. rewrite lower_char_idem, IH. reflexivity. Qed.

Lemma upper_char_idem (c : ascii) : upper_char (upper_char c) = upper_char c.
Proof. by_char c. Qed.

Lemma toUpperCase_idem (s : string) : toUpperCase (toUpperCase s) = toUpperCase s.
Proof. induction s as [|c s IH]; simpl; [reflexivity|]. rewrite upper_char_idem, IH. reflexivity. Qed.

Lemma nat_of_upper_char c :
  nat_of_ascii (upper_char c)
  = if (97 <=? nat_of_ascii c)%nat && (nat_of_ascii c <=? 122)%nat
    then nat_of_ascii c - 32 else nat_of_ascii c.
Proof. by_char c. Qed.

Lemma byte_in_upper lo hi c : 123 <= lo -> byte_in lo hi (upper_char c) = byte_in lo hi c.
Proof.
  intros Hlo. unfold byte_in. rewrite nat_of_upper_char.
  destruct ((97 <=? nat_of_ascii c)%nat && (nat_of_ascii c <=? 122)%nat) eqn:E; [|reflexivity].
  apply andb_true_iff in E as [_ E]. apply Nat.leb_le in E.
  rewrite !(proj2 (Nat.leb_gt lo _)) by lia. reflexivity.
Qed.

Lemma is_ws_upper_char c : is_ws (upper_char c) = is_ws c.
Proof. by_char c. Qed.

Lemma skip_ws_toUpperCase s : skip_ws (toUpperCase s) = option_map toUpperCase (skip_ws s).
Proof.
  destruct s as [|a [|b [|c r]]]; cbn [toUpperCase skip_ws]; unfold is_ws2, is_ws3, is_byte;
    rewrite ?is_ws_upper_char, ?byte_in_upper by lia;
    repeat match goal with |- context [if ?x then _ else _] => destruct x end; reflexivity.
Qed.

Lemma is_empty_toUpperCase s : is_empty (toUpperCase s) = is_empty s.
Proof. destruct s; reflexivity. Qed.

Lemma trimStart_toUpperCase s : trimStart (toUpperCase s) = toUpperCase (trimStart s).
Proof.
  induction s as [s E | s r E IH] using ws_ind;
    rewrite trimStart_skip, skip_ws_toUpperCase, (trimStart_skip s), E; [reflexivity | exact IH].
Qed.

Lemma trimEnd_toUpperCase s : trimEnd (toUpperCase s) = toUpperCase (trimEnd s).
Proof.
  induction s as [|c s IH]; [reflexivity|].
  cbn [toUpperCase trimEnd].
  change (String (upper_char c) (toUpperCase s)) with (toUpperCase (String c s)).
  unfold blank. rewrite trimStart_toUpperCase, is_empty_toUpperCase.
  destruct (is_empty (trimStart (String c s))); [reflexivity|].
  cbn [toUpperCase]. rewrite IH. reflexivity.
Qed.

Lemma trim_toUpperCase s : trim (toUpperCase s) = toUpperCase (trim s).
Proof. unfold trim. rewrite trimStart_toUpperCase. apply trimEnd_toUpperCase. Qed.

Lemma startsWith_app (n x : string) : startsWith (n +:+ x) n = true.
Proof. unfold startsWith. rewrite strip_prefix_app. reflexivity. Qed.

Lemma includes_app_r (a b n : string) : includes b n = true -> includes (a +:+ b) n = true.
Proof.
  intros H. induction a as [|c a IH]; [exact H|].
  change (includes (String c (a +:+ b)) n = true). simpl. rewrite IH. apply orb_true_r.
Qed.



Lemma includes_start (n x : string) : includes (n +:+ x) n = true.
Proof.
  pose proof (startsWith_app n x) as H.
  destruct (n +:+ x); simpl; rewrite H; reflexivity.
Qed.

Lemma includes_trim (s : string) : includes s (trim s) = true.
Proof.
  destruct (trim_split s) as (a & b & Hs). rewrite Hs at 1.
  apply includes_app_r, includes_start.
Qed.

Lemma remove_chars_clean (p : ascii -> bool) (s : string) :
  all_chars (fun c => negb (p c)) (remove_chars p s) = true.
Proof.
  induction s as [|c s IH]; [reflexivity|]. simpl.
  destruct (p c) eqn:E; [exact IH|]. simpl. rewrite E, IH. reflexivity.
Qed.

End JsStringOpsFacts.

(** ** The inbox and list page: numbers, filters and order *)

Module SavListViewFacts.

Import JsString JsStringOps Trace Json Http Url SavDetail SavListView.
Import JsStringFacts JsStringOpsFacts TraceFacts.

(** *** The WhatsApp template *)

(** X23.  The three spellings of a French mobile number give the same
    number: whatever blanks, dots, dashes and parentheses are typed, when
    what remains is 0 followed by nine digits of which the first is 6 or 7,
    or 33 followed by these nine digits, or +33 followed by them,
    [toE164FR] returns +33 followed by the nine digits. *)
Theorem toE164FR_spellings (raw nine : string) :
  String.length nine = 9 ->
  all_chars is_digit nine = true ->
  (startsWith nine "6" = true \/ startsWith nine "7" = true) ->
  (remove_chars is_separator (trim raw) = "0" +:+ nine
   \/ remove_chars is_separator (trim raw) = "33" +:+ nine
   \/ remove_chars is_separator (trim raw) = "+33" +:+ nine) ->
  toE164FR raw = "+33" +:+ nine.
Proof.
  intros Hlen Hdig Hfirst Hclean. unfold toE164FR. rewrite or_else_empty_r.
  destruct (truthy (trim raw)) eqn:Hv.
  - cbn [negb].
    destruct nine as [|c rest]; [discriminate|].
    simpl in Hlen, Hdig. apply andb_true_iff in Hdig as [Hc Hrest].
    assert (Hl8 : String.length rest = 8) by lia.
    assert (Hc67 : (Ascii.eqb c "6" || Ascii.eqb c "7")%bool = true).
    { unfold startsWith in Hfirst. cbn [strip_prefix] in Hfirst. rewrite !(Ascii.eqb_sym c).
      destruct Hfirst as [H|H]; [destruct (Ascii.eqb "6" c) | destruct (Ascii.eqb "7" c)];
        try discriminate; [reflexivity | apply orb_true_r]. }
    destruct Hclean as [-> | [-> | ->]].
    + change ("0" +:+ String c rest) with (String "0" (String c rest)).
      cbn [startsWith strip_prefix Ascii.eqb Bool.eqb is_national_mobile slice1].
      rewrite Hc67, Hl8, Hrest. reflexivity.
    + change ("33" +:+ String c rest) with (String "3" (String "3" (String c rest))).
      cbn [startsWith strip_prefix Ascii.eqb Bool.eqb is_national_mobile].
      unfold is_33_number. cbn [strip_prefix Ascii.eqb Bool.eqb String.length].
      rewrite Hl8. cbn [Nat.eqb all_chars andb]. rewrite Hc, Hrest. reflexivity.
    + reflexivity.
  - apply truthy_false in Hv. rewrite Hv in Hclean. simpl in Hclean.
    destruct Hclean as [H | [H | H]]; discriminate.
Qed.

Lemma toE164FR_spellings_witness :
  toE164FR " 06 12.34-56 78 " = "+33612345678"
  /\ toE164FR "(33) 6 12 34 56 78" = "+33612345678"
  /\ toE164FR "+33 6 12 34 56 78" = "+33612345678".
Proof.
  split; [|split].
  - apply (toE164FR_spellings " 06 12.34-56 78 " "612345678");
      [reflexivity | reflexivity | left; reflexivity | left; reflexivity].
  - apply (toE164FR_spellings "(33) 6 12 34 56 78" "612345678");
      [reflexivity | reflexivity | left; reflexivity | right; left; reflexivity].
  - apply (toE164FR_spellings "+33 6 12 34 56 78" "612345678");
      [reflexivity | reflexivity | left; reflexivity | right; right; reflexivity].
Defined.

Lemma toE164FR_clean (raw : string) :
  all_chars (fun c => negb (is_separator c)) (toE164FR raw) = true.
Proof.
  unfold toE164FR. destruct (truthy (trim (or_else raw ""))); [|reflexivity]. cbn [negb].
  pose proof (remove_chars_clean is_separator (trim (or_else raw ""))) as H.
  destruct (startsWith _ "+"); [exact H|].
  destruct (is_national_mobile _).
  - destruct (remove_chars is_separator (trim (or_else raw ""))) as [|c r]; [reflexivity|].
    simpl in H. apply andb_true_iff in H as [_ H]. exact H.
  - destruct (is_33_number _); exact H.
Qed.

(** X24.  Sending the WhatsApp template: the page sends at most one
    request, a POST whose number is the one [toE164FR] makes of the field,
    and only when that number starts with [+]; it then holds no blank, dot,
    dash or parenthesis.  Whatever happens a message is shown, the field
    keeps its text, and once a request has been sent the page is no longer
    marked as sending. *)
Theorem sendWhatsAppTemplate_requests (res : outcome (response unit)) (st : Wa.t) :
  let st' := fst (sendWhatsAppTemplate res st) in
  let sent := requests (snd (sendWhatsAppTemplate res st)) in
  (sent = []
   \/ (sent = [ {| meth := POST; to := Api; path := "/actions/whatsapp/request-photos";
                   body := Some (VObj {[ "to_number" := VStr (toE164FR (Wa.waPhone st)) ]}) |} ]
       /\ startsWith (toE164FR (Wa.waPhone st)) "+" = true
       /\ all_chars (fun c => negb (is_separator c)) (toE164FR (Wa.waPhone st)) = true
       /\ Wa.waSending st' = false))
  /\ Wa.waMsg st' <> None
  /\ Wa.waPhone st' = Wa.waPhone st.
Proof.
  cbv zeta. unfold sendWhatsAppTemplate.
  destruct (truthy (toE164FR (Wa.waPhone st))); cbn [negb];
    [|split; [left; reflexivity | split; [discriminate | reflexivity]]].
  destruct (startsWith (toE164FR (Wa.waPhone st)) "+") eqn:Hplus; cbn [negb];
    [|split; [left; reflexivity | split; [discriminate | reflexivity]]].
  pose proof (toE164FR_clean (Wa.waPhone st)) as Hclean.
  destruct res as [r|m]; [destruct (ok r); cbn [negb]|];
    (split; [right; split; [reflexivity|]; split; [reflexivity|]; split; [exact Hclean | reflexivity]
            | split; [discriminate | reflexivity]]).
Qed.

(** *** Filters *)

Lemma default_truthy_id (x : string) : default "" (truthy_id (Some x)) = x.
Proof. unfold truthy_id. destruct x; reflexivity. Qed.







Lemma normalizeStatusForFilter_shape (st : option string) :
  normalizeStatusForFilter st = "RESOLU"
  \/ (normalizeStatusForFilter st = toUpperCase (trim (default "" (truthy_id st)))
      /\ normalizeStatusForFilter st <> "PUBLIE").
Proof.
  unfold normalizeStatusForFilter.
  destruct (String.eqb_spec (toUpperCase (trim (default "" (truthy_id st)))) "PUBLIE");
    [left; reflexivity | right; split; [reflexivity | assumption]].
Qed.

(** X26.  The status filter reads the legacy status PUBLIE as RESOLU.  The
    normalised status of a row is never PUBLIE, and normalising it again
    changes nothing.  So a filter on PUBLIE shows no row at all, while a
    filter on RESOLU, with no search, shows every row whose status
    normalises to RESOLU, which includes the rows whose status is PUBLIE in
    any case and with any blanks around it; and with no filter and no
    search every row is shown. *)
Theorem status_filter_legacy (rows : list Row.t) (search : string) :
  (forall st, normalizeStatusForFilter st <> "PUBLIE")
  /\ (forall st, normalizeStatusForFilter (Some (normalizeStatusForFilter st))
                 = normalizeStatusForFilter st)
  /\ (forall statusFilter,
        toUpperCase (trim statusFilter) = "PUBLIE" -> filtered rows search statusFilter = [])
  /\ (forall c, In c (filtered rows "" "RESOLU")
                <-> In c rows /\ normalizeStatusForFilter (Row.status c) = "RESOLU")
  /\ (forall c st, Row.status c = Some st -> toUpperCase (trim st) = "PUBLIE" ->
                   normalizeStatusForFilter (Row.status c) = "RESOLU")
  /\ filtered rows "" "" = rows.
Proof.
  assert (Hnever : forall st, normalizeStatusForFilter st <> "PUBLIE").
  { intros st. destruct (normalizeStatusForFilter_shape st) as [-> | [_ H]];
      [discriminate | exact H]. }
  split; [exact Hnever|]. split; [|split; [|split; [|split]]].
  - intros st. destruct (normalizeStatusForFilter_shape st) as [-> | [E Hne]]; [reflexivity|].
    assert (H : toUpperCase (trim (normalizeStatusForFilter st))
                = normalizeStatusForFilter st).
    { rewrite E. rewrite trim_toUpperCase, trim_idem, toUpperCase_idem. reflexivity. }
    unfold normalizeStatusForFilter at 1. rewrite default_truthy_id, H.
    apply String.eqb_neq in Hne. rewrite Hne. reflexivity.
  - intros statusFilter Hf. unfold filtered. rewrite or_else_empty_r, Hf.
    induction rows as [|c rows IH]; [reflexivity|]. cbn [List.filter].
    cbn [truthy is_empty negb andb].
    pose proof (Hnever (Row.status c)) as Hc. apply String.eqb_neq in Hc.
    rewrite Hc. exact IH.
  - intros c. unfold filtered. rewrite filter_In.
    change (toUpperCase (trim (or_else "RESOLU" ""))) with "RESOLU".
    change (normalizeStr (trim "")) with "". cbn [truthy is_empty negb andb].
    destruct (String.eqb_spec (normalizeStatusForFilter (Row.status c)) "RESOLU");
      cbn [negb andb]; intuition congruence.
  - intros c st Hst Hup. rewrite Hst. unfold normalizeStatusForFilter.
    assert (Hne : st <> "") by (intros ->; discriminate Hup).
    unfold truthy_id. apply truthy_true in Hne. rewrite Hne. cbn [default from_option id].
    rewrite Hup. reflexivity.
  - unfold filtered.
    change (toUpperCase (trim (or_else "" ""))) with "".
    change (normalizeStr (trim "")) with "". cbn [truthy is_empty negb andb].
    induction rows as [|c rows IH]; [reflexivity|].
    cbn [List.filter]. rewrite IH. reflexivity.
Qed.

(** *** The order of the rows *)

Lemma insert_sorted_activity (x : Row.t) (l : list Row.t) :
  Sorted.StronglySorted (fun a b => (activity b <= activity a)%Z) l ->
  Sorted.StronglySorted (fun a b => (activity b <= activity a)%Z) (insert_sorted compare_activity x l).
Proof.
  induction 1 as [|y l Hl IH Hy]; simpl.
  - constructor; constructor.
  - unfold compare_activity at 1. destruct (activity y - activity x <=? 0)%Z eqn:E.
    + apply Z.leb_le in E. constructor; [constructor; assumption|].
      constructor; [lia|]. eapply Forall_impl; [exact Hy|]. simpl. intros z Hz. lia.
    + apply Z.leb_gt in E. constructor; [exact IH|].
      assert (Hperm := AggregationFacts.insert_sorted_Permutation compare_activity x l).
      rewrite Hperm. constructor; [lia | exact Hy].
Qed.

(** X27.  The tables of the inbox show the rows that the server sent, each
    once, the latest activity first: a row never stands before a row of
    later activity, where the activity of a row is its update time, or its
    creation time when that is missing or 0, or 0. *)
Theorem by_activity_sorted (rows : list Row.t) :
  by_activity rows ≡ₚ rows
  /\ Sorted.StronglySorted (fun a b => (activity b <= activity a)%Z) (by_activity rows).
Proof.
  split; [apply AggregationFacts.sort_Permutation|].
  unfold by_activity, sort. induction rows as [|x rows IH]; [constructor|].
  simpl. apply insert_sorted_activity, IH.
Qed.

End SavListViewFacts.

(** ** The first session detail page: photo drafts *)

Module SavSessionDraftsFacts.

Import JsString Json Http Url SavSession SavSessionDrafts.
Import JsStringFacts.

(** X28.  The status and the comment of a photo are edited independently:
    a change of status keeps the comment and the annotated visual of the
    photo, a change of comment keeps its status and its annotated visual
    (a photo without draft counts as "à revoir", without comment), neither
    touches the draft of another photo, and the two changes give the same
    drafts in either order.  When the page has a session id, each change
    schedules the save of exactly the draft it has stored. *)
Theorem draft_changes_independent (photoId value : string) (status : PhotoDraft.status_t)
    (st : Page.t) :
  let after_status := fst (handleStatusChange photoId status st) in
  let after_comment := fst (handleCommentChange photoId value st) in
  let before :=
    default {| PhotoDraft.status := PhotoDraft.a_revoir; PhotoDraft.commentaire := "";
               PhotoDraft.annotatedPath := None; PhotoDraft.annotatedUrl := None |}
            (Page.drafts st !! photoId) in
  Page.drafts after_status !! photoId
  = Some {| PhotoDraft.status := status;
            PhotoDraft.commentaire := PhotoDraft.commentaire before;
            PhotoDraft.annotatedPath := PhotoDraft.annotatedPath before;
            PhotoDraft.annotatedUrl := PhotoDraft.annotatedUrl before |}
  /\ Page.drafts after_comment !! photoId
     = Some {| PhotoDraft.status := PhotoDraft.status before;
               PhotoDraft.commentaire := value;
               PhotoDraft.annotatedPath := PhotoDraft.annotatedPath before;
               PhotoDraft.annotatedUrl := PhotoDraft.annotatedUrl before |}
  /\ (forall other, other <> photoId ->
        Page.drafts after_status !! other = Page.drafts st !! other
        /\ Page.drafts after_comment !! other = Page.drafts st !! other)
  /\ Page.drafts (fst (handleCommentChange photoId value after_status))
     = Page.drafts (fst (handleStatusChange photoId status after_comment))
  /\ snd (handleStatusChange photoId status st)
     = (if truthy (Page.sessionId st)
        then option_map (fun d => {| Scheduled.sessionId := Page.sessionId st;
                                     Scheduled.photoId := photoId; Scheduled.draft := d |})
                        (Page.drafts after_status !! photoId)
        else None)
  /\ snd (handleCommentChange photoId value st)
     = (if truthy (Page.sessionId st)
        then option_map (fun d => {| Scheduled.sessionId := Page.sessionId st;
                                     Scheduled.photoId := photoId; Scheduled.draft := d |})
                        (Page.drafts after_comment !! photoId)
        else None).
Proof.
  cbv zeta.
  assert (Hd : forall d (s : Page.t), Page.drafts (fst (store photoId d s))
                                      = <[photoId := d]> (Page.drafts s)).
  { intros d s. unfold store. destruct (truthy (Page.sessionId s)); reflexivity. }
  assert (Hs : forall d (s : Page.t),
             snd (store photoId d s)
             = if truthy (Page.sessionId s)
               then option_map (fun d' => {| Scheduled.sessionId := Page.sessionId s;
                                             Scheduled.photoId := photoId;
                                             Scheduled.draft := d' |})
                               (<[photoId := d]> (Page.drafts s) !! photoId)
               else None).
  { intros d s. unfold store. destruct (truthy (Page.sessionId s)); reflexivity. }
  assert (Hsid : forall d (s : Page.t), Page.sessionId (fst (store photoId d s))
                                        = Page.sessionId s).
  { intros d s. unfold store. destruct (truthy (Page.sessionId s)); reflexivity. }
  unfold handleStatusChange, handleCommentChange. rewrite !Hd, !Hs, ?Hd.
  rewrite !lookup_insert_eq.
  split; [|split; [|split; [|split; [|split; reflexivity]]]].
  - f_equal. unfold with_status.
    destruct (Page.drafts st !! photoId) as [d|]; cbn [default from_option id];
      rewrite ?or_else_empty_r; reflexivity.
  - f_equal. unfold with_comment.
    destruct (Page.drafts st !! photoId) as [d|]; reflexivity.
  - intros other Hne. rewrite !lookup_insert_ne by congruence. split; reflexivity.
  - rewrite !insert_insert_eq. f_equal.
    unfold with_comment, with_status. rewrite !lookup_insert_eq.
    cbn [PhotoDraft.status PhotoDraft.commentaire PhotoDraft.annotatedPath
         PhotoDraft.annotatedUrl].
    rewrite or_else_empty_r. reflexivity.
Qed.

Lemma payload_item_fields (drafts : gmap string PhotoDraft.t) (p : SessionPhoto.t) :
  get_in (payload_item drafts p) "photo_id" = VStr (SessionPhoto.id p)
  /\ get_in (payload_item drafts p) "status" = VUndef
  /\ forall d, drafts !! SessionPhoto.id p = Some d ->
               get_in (payload_item drafts p) "commentaire"
               = VStr (or_else (PhotoDraft.commentaire d) "").
Proof.
  unfold payload_item, get_in, get. split; [|split].
  - rewrite !lookup_insert_ne by discriminate. rewrite lookup_singleton_eq. reflexivity.
  - rewrite !lookup_insert_ne by discriminate. rewrite lookup_singleton_ne by discriminate.
    reflexivity.
  - intros d Hd. rewrite Hd. rewrite !lookup_insert_ne by discriminate.
    rewrite lookup_insert_eq. reflexivity.
Qed.

(** X29.  What is typed as the comment of a photo is what the next publish
    sends for it: after a change of comment, when the page has a session id
    and a session with photos, [handlePublish] starts with a POST to the
    publish address of the session whose items are those of the photos, in
    their order; each item carries the id of its photo, the items of the
    photo that was edited carry the comment as typed, and no item carries a
    status. *)
Theorem comment_reaches_publish (env : PublishEnv.t) (st : Page.t) (photoId value : string)
    (detail : SessionDetail.t) :
  Page.detail st = Some detail ->
  Page.sessionId st <> "" ->
  SessionDetail.photos detail <> [] ->
  let edited := fst (handleCommentChange photoId value st) in
  exists author items rest,
    snd (handlePublish env edited)
    = Fetch {| meth := POST; to := Api;
               path := "/sessions/" +:+ encodeURIComponent (Page.sessionId st) +:+ "/publish";
               body := Some (VObj (<["items" := VArr items]> {[ "author" := author ]})) |}
      :: rest
    /\ Forall2
         (fun p item =>
            get_in item "photo_id" = VStr (SessionPhoto.id p)
            /\ get_in item "status" = VUndef
            /\ (SessionPhoto.id p = photoId -> get_in item "commentaire" = VStr value))
         (SessionDetail.photos detail) items.
Proof.
  intros Hdet Hsid Hphotos. cbv zeta.
  assert (He : fst (handleCommentChange photoId value st)
               = setDrafts st (<[photoId := with_comment (Page.drafts st) photoId value]>
                                 (Page.drafts st))).
  { unfold handleCommentChange, store. destruct (truthy (Page.sessionId st)); reflexivity. }
  rewrite He. unfold handlePublish.
  cbn [Page.detail Page.sessionId Page.drafts Page.author setDrafts]. rewrite Hdet.
  apply truthy_true in Hsid. rewrite Hsid. cbn [negb].
  destruct (SessionDetail.photos detail) as [|p0 photos] eqn:Ep; [congruence|].
  cbn [map length Nat.eqb]. rewrite <- Ep.
  set (drafts' := <[photoId := with_comment (Page.drafts st) photoId value]> (Page.drafts st)).
  assert (Hitems : Forall2
            (fun p item =>
               get_in item "photo_id" = VStr (SessionPhoto.id p)
               /\ get_in item "status" = VUndef
               /\ (SessionPhoto.id p = photoId -> get_in item "commentaire" = VStr value))
            (SessionDetail.photos detail)
            (map (payload_item drafts') (SessionDetail.photos detail))).
  { clear Ep. induction (SessionDetail.photos detail) as [|p ps IH]; [constructor|].
    cbn [map]. constructor; [|exact IH].
    destruct (payload_item_fields drafts' p) as (H1 & H2 & H3).
    split; [exact H1|]. split; [exact H2|].
    intros Hp. rewrite (H3 (with_comment (Page.drafts st) photoId value)).
    - cbn [PhotoDraft.commentaire with_comment]. rewrite or_else_empty_r. reflexivity.
    - rewrite Hp. unfold drafts'. apply lookup_insert_eq. }
  rewrite Ep in Hitems at 2. cbn [map] in Hitems.
  destruct (PublishEnv.publish env) as [r|m].
  - destruct (Http.ok r); cbn [negb].
    + destruct (json r); do 3 eexists; (split; [cbn [snd app]; reflexivity | exact Hitems]).
    + destruct (text r); do 3 eexists; (split; [cbn [snd]; reflexivity | exact Hitems]).
  - do 3 eexists. split; [cbn [snd]; reflexivity | exact Hitems].
Qed.

Lemma comment_reaches_publish_witness :
  let photo := {| SessionPhoto.id := "p1"; SessionPhoto.url := "https://img/p1.jpg";
                  SessionPhoto.section := None |} in
  let st := {| Page.sessionId := "s1";
               Page.detail := Some {| SessionDetail.session_id := "s1";
                                      SessionDetail.status := None;
                                      SessionDetail.photos := [photo] |};
               Page.drafts := ∅; Page.author := "Xavier PERGE"; Page.publishing := false;
               Page.toast := None |} in
  let env := {| PublishEnv.publish := Rejected "offline";
                PublishEnv.notify := Rejected "offline" |} in
  exists author items rest,
    snd (handlePublish env (fst (handleCommentChange "p1" "Vanne à changer" st)))
    = Fetch {| meth := POST; to := Api; path := "/sessions/s1/publish";
               body := Some (VObj (<["items" := VArr items]> {[ "author" := author ]})) |}
      :: rest
    /\ Forall2
         (fun p item =>
            get_in item "photo_id" = VStr (SessionPhoto.id p)
            /\ get_in item "status" = VUndef
            /\ (SessionPhoto.id p = "p1" -> get_in item "commentaire" = VStr "Vanne à changer"))
         [photo] items.
Proof.
  intros photo st env.
  apply (comment_reaches_publish env st "p1" "Vanne à changer"
           {| SessionDetail.session_id := "s1"; SessionDetail.status := None;
              SessionDetail.photos := [photo] |});
    [reflexivity | discriminate | discriminate].
Defined.

End SavSessionDraftsFacts.

(** ** The public session report: the photo viewer *)

Module PublicSessionViewerFacts.

Import JsString JsStringOps PublicSessionViewer.

(** What every click keeps: the index is one of the list, and the technical
    visual is chosen only on a photo that has one. *)
Lemma step_invariant (items : list PublishedItem.t) (st : Viewer.t) (c : click) :
  Viewer.currentIndex st < length items ->
  (Viewer.viewMode st = annotated ->
   exists item, current items st = Some item /\ hasAnnotated item = true) ->
  Viewer.currentIndex (step items st c) < length items
  /\ (Viewer.viewMode (step items st c) = annotated ->
      exists item, current items (step items st c) = Some item /\ hasAnnotated item = true).
Proof.
  intros Hidx Hmode. destruct c; simpl.
  - split; [|discriminate]. destruct (0 <? Viewer.currentIndex st)%nat; lia.
  - split; [|discriminate].
    destruct (Z.of_nat (Viewer.currentIndex st) <? Z.of_nat (length items) - 1)%Z eqn:E;
      [apply Z.ltb_lt in E; lia | exact Hidx].
  - unfold toggleView.
    case_eq (current items st); [intros item Ec | intros Ec]; cbv beta iota;
      [|split; assumption].
    case_eq (hasAnnotated item); intros Ha; cbv beta iota; [|split; assumption].
    split; [exact Hidx|]. intros _. exists item. split; [exact Ec | exact Ha].
  - split; assumption.
  - split; assumption.
Qed.

(** X30.  The viewer of a public session never leaves its photos: for a
    session that has at least one published photo, whatever the visitor
    clicks, the current index stays one of the list, so that an image is
    always shown; the arrows stop at both ends; an arrow always comes back
    to the original photo and closes the comment; and the technical visual
    is shown only for a photo that has one. *)
Theorem viewer_stays_in_range (items : list PublishedItem.t) (clicks : list click) :
  items <> [] ->
  let st := fold_left (step items) clicks initial in
  Viewer.currentIndex st < length items
  /\ (exists item,
        current items st = Some item
        /\ computeImageUrl items st
           = Some (match Viewer.viewMode st, PublishedItem.annotated_url item with
                   | annotated, Some raw =>
                       if startsWith raw "http://" || startsWith raw "https://"
                       then AsIs raw else OnApi raw
                   | _, _ => AsIs (PublishedItem.original_url item)
                   end)
        /\ (Viewer.viewMode st = annotated -> hasAnnotated item = true))
  /\ Viewer.currentIndex (handlePrev (Some items) st) = Viewer.currentIndex st - 1
  /\ Viewer.currentIndex (handleNext (Some items) st)
     = Nat.min (Viewer.currentIndex st + 1) (length items - 1)
  /\ (forall item, current items (handleNext (Some items) st) = Some item ->
        computeImageUrl items (handleNext (Some items) st)
        = Some (AsIs (PublishedItem.original_url item)))
  /\ (forall item, current items (handlePrev (Some items) st) = Some item ->
        computeImageUrl items (handlePrev (Some items) st)
        = Some (AsIs (PublishedItem.original_url item)))
  /\ Viewer.showComment (handlePrev (Some items) st) = false
  /\ Viewer.showComment (handleNext (Some items) st) = false.
Proof.
  intros Hne. cbv zeta.
  assert (Hinv : forall st0,
             Viewer.currentIndex st0 < length items ->
             (Viewer.viewMode st0 = annotated ->
              exists item, current items st0 = Some item /\ hasAnnotated item = true) ->
             let st := fold_left (step items) clicks st0 in
             Viewer.currentIndex st < length items
             /\ (Viewer.viewMode st = annotated ->
                 exists item, current items st = Some item /\ hasAnnotated item = true)).
  { induction clicks as [|c clicks IH]; intros st0 H1 H2; [split; assumption|].
    simpl. destruct (step_invariant items st0 c H1 H2) as [H1' H2']. apply IH; assumption. }
  destruct (Hinv initial) as [Hidx Hmode].
  { simpl. destruct items; [congruence | simpl; lia]. }
  { discriminate. }
  set (st := fold_left (step items) clicks initial) in *.
  split; [exact Hidx|]. split; [|split; [|split; [|split; [|split; [|split; reflexivity]]]]].
  - destruct (lookup_lt_is_Some_2 items _ Hidx) as [item Hitem].
    exists item. split; [exact Hitem|]. unfold computeImageUrl, current. rewrite Hitem.
    split.
    + destruct (Viewer.viewMode st) eqn:Em; [reflexivity|].
      destruct (Hmode eq_refl) as (item' & Hc & Ha).
      unfold current in Hc. rewrite Hitem in Hc. injection Hc as <-. rewrite Ha.
      unfold hasAnnotated, truthy_opt in Ha.
      destruct (PublishedItem.annotated_url item) as [raw|]; [|discriminate].
      cbn [default from_option id].
      destruct (startsWith raw "http://" || startsWith raw "https://"); reflexivity.
    + intros Em. destruct (Hmode Em) as (item' & Hc & Ha).
      unfold current in Hc. rewrite Hitem in Hc. injection Hc as <-. exact Ha.
  - simpl. destruct (0 <? Viewer.currentIndex st)%nat eqn:E; [reflexivity|].
    apply Nat.ltb_ge in E. lia.
  - simpl. destruct (Z.of_nat (Viewer.currentIndex st) <? Z.of_nat (length items) - 1)%Z eqn:E;
      [apply Z.ltb_lt in E | apply Z.ltb_ge in E]; lia.
  - intros item Hc. unfold computeImageUrl. rewrite Hc. reflexivity.
  - intros item Hc. unfold computeImageUrl. rewrite Hc. reflexivity.
Qed.

Lemma viewer_stays_in_range_witness :
  let item (pid : string) (visual : option string) :=
    {| PublishedItem.photo_id := pid; PublishedItem.original_url := "https://ik.io/" +:+ pid;
       PublishedItem.annotated_url := visual; PublishedItem.commentaire := None;
       PublishedItem.status := PublishedItem.ok |} in
  let items := [item "p1" None; item "p2" (Some "/sessions/s1/annotated/p2")] in
  Viewer.currentIndex (fold_left (step items) [Next; Next; Next; Switch] initial) = 1
  /\ computeImageUrl items (fold_left (step items) [Next; Next; Next; Switch] initial)
     = Some (OnApi "/sessions/s1/annotated/p2")
  /\ Viewer.currentIndex (fold_left (step items) [Next; Next; Next; Switch] initial) < 2.
Proof.
  intros item items. split; [reflexivity|]. split; [reflexivity|].
  apply (viewer_stays_in_range items [Next; Next; Next; Switch]). discriminate.
Defined.

End PublicSessionViewerFacts.
